(** * Mineral_processing_final: acquisition driver and wide-to-long transformer

    A shallow embedding of
      - [codes/commodity_wise_import_scraper.py] (module [Scraper]): the
        completion oracle [is_hscode_completed], the staging-directory
        helper [get_latest_file] and the crawl driver
        [scrape_commodity_data];
      - [codes/transform_to_long_format_export.py] (module [Transform]):
        [extract_year_columns], [process_monthly_file] and
        [process_hscode_directory], with the [drop_duplicates] step that
        [codes/merge_transformed_files.py] shares;
      - the catalog reader [read_hscodes_from_file] and the entry point of
        the scraper (module [Catalog]);
      - [load_hscode_lookup] and [main] of the transformer, and
        [merge_excel_files] of [codes/merge_transformed_files.py] (module
        [Consolidate]).

    Conventions.  Python [str] values are Rocq strings whose characters
    are read as code points below 256.  The file system is the set of the
    paths that exist; the browser, the remote site and what the operating
    system refuses are an environment record the driver queries; [print]
    lines and browser requests are events appended to the output of the
    world.  A run ends normally or with a raised exception, and carries
    its world either way.  Floats are binary64 values, rounded as CPython
    rounds them. *)

From Stdlib Require Import ZArith Ascii String List Bool Lia.
From stdpp Require Import base tactics option list list_numbers sorting.
From stdpp Require Import strings pretty gmap sets.

Local Open Scope Z_scope.

(** ** Python string helpers *)

Module PyStr.

(** [s.endswith(suffix)] *)
Definition endswith (s suffix : string) : bool :=
  let n := String.length s in
  let k := String.length suffix in
  (k <=? n)%nat && String.eqb (substring (n - k) k s) suffix.

(** [s.startswith(prefix)] *)
Definition startswith (s pre : string) : bool := String.prefix pre s.

(** [str.isspace] on one code point below 256. *)
Definition isspace (c : ascii) : bool :=
  let n := nat_of_ascii c in
  ((9 <=? n)%nat && (n <=? 13)%nat) || ((28 <=? n)%nat && (n <=? 32)%nat)
  || (n =? 133)%nat || (n =? 160)%nat.

Fixpoint lstrip_chars (l : list ascii) : list ascii :=
  match l with
  | c :: l' => if isspace c then lstrip_chars l' else l
  | [] => []
  end.

(** [s.strip()] *)
Definition strip_chars (l : list ascii) : list ascii :=
  rev (lstrip_chars (rev (lstrip_chars l))).

Definition strip (s : string) : string :=
  string_of_list_ascii (strip_chars (list_ascii_of_string s)).

(** [str.lower] on one code point below 256: A-Z, and the Latin-1 capitals
    0xC0-0xDE except the multiplication sign 0xD7. *)
Definition lower_char (c : ascii) : ascii :=
  let n := nat_of_ascii c in
  if ((65 <=? n)%nat && (n <=? 90)%nat)
     || ((192 <=? n)%nat && (n <=? 222)%nat && negb (n =? 215)%nat)
  then ascii_of_nat (n + 32) else c.

(** [s.lower()] *)
Definition lower (s : string) : string :=
  string_of_list_ascii (map lower_char (list_ascii_of_string s)).

(** [posixpath.join(a, b)] *)
Definition os_path_join (a b : string) : string :=
  if startswith b "/" then b
  else if String.eqb a "" || endswith a "/" then a +:+ b
  else a +:+ "/" +:+ b.

Definition is_slash (c : ascii) : bool := Ascii.eqb c "/".

(** Of a path read backwards: the tail, up to the first slash met. *)
Fixpoint tail_rev (r : list ascii) : list ascii :=
  match r with
  | c :: r' => if is_slash c then [] else c :: tail_rev r'
  | [] => []
  end.

(** Of a path read backwards: the head, from the first slash met. *)
Fixpoint head_rev (r : list ascii) : list ascii :=
  match r with
  | c :: r' => if is_slash c then r else head_rev r'
  | [] => []
  end.

Fixpoint drop_slashes (r : list ascii) : list ascii :=
  match r with
  | c :: r' => if is_slash c then drop_slashes r' else r
  | [] => []
  end.

(** [posixpath.split(p)]: the head is [p] up to its last slash, without
    its trailing slashes unless it is made of slashes only; the tail is
    what follows the last slash. *)
Definition os_path_split (p : string) : string * string :=
  let r := rev (list_ascii_of_string p) in
  let h := head_rev r in
  let h := if forallb is_slash h then h else drop_slashes h in
  (string_of_list_ascii (rev h), string_of_list_ascii (rev (tail_rev r))).

End PyStr.

(** ** The acquisition driver *)

Module Scraper.
Import PyStr.

(** *** Calendar *)

Definition MINYEAR : Z := 1.
Definition MAXYEAR : Z := 9999.

(** What [datetime.date(year, month, 1)] accepts. *)
Definition date_ok (year month : Z) : bool :=
  (MINYEAR <=? year) && (year <=? MAXYEAR) && (1 <=? month) && (month <=? 12).

(** A value of [datetime.datetime.now()].  Python cannot build a datetime
    outside [MINYEAR..MAXYEAR] and months 1..12, which [dt_valid] records. *)
Record datetime := mk_datetime {
  dt_year : Z;
  dt_month : Z;
  dt_day : Z;
  dt_valid : date_ok dt_year dt_month = true
}.

Definition month_names : list string :=
  ["January"; "February"; "March"; "April"; "May"; "June"; "July";
   "August"; "September"; "October"; "November"; "December"]%string.

(** [datetime.date(year, month, 1).strftime('%B')]; [None] stands for the
    [ValueError] of the [date] constructor. *)
Definition strftime_B (year month : Z) : option string :=
  if date_ok year month then month_names !! Z.to_nat (month - 1) else None.

(** [f"{month_name}_{year}.xlsx"] *)
Definition target_filename_of (month_name : string) (year : Z) : string :=
  month_name +:+ "_" +:+ pretty year +:+ ".xlsx".

(** The strict "in the future" order on periods: (year, month) after the
    month of [now]. *)
Definition in_future (now : datetime) (year month : Z) : Prop :=
  dt_year now < year ∨ (year = dt_year now ∧ dt_month now < month).

(** [year == now.year and month > now.month], the test before [break]. *)
Definition future_month (now : datetime) (year month : Z) : bool :=
  (year =? dt_year now) && (dt_month now <? month).

(** *** The completion oracle *)

(** How the inner [for month] loop of [is_hscode_completed] is left. *)
Inductive loop_exit :=
| Fallthrough        (* the loop ran out, or hit [break] *)
| ReturnFalse        (* [return False] *)
| RaiseValueError.   (* [datetime.date] raised *)

Section Oracle.
(** [tree]: the paths for which [os.path.exists] holds;
    [now]: what [datetime.datetime.now()] returns in this call. *)
Variable tree : gset string.
Variable now : datetime.
Variable hscode_dir : string.

Definition os_path_exists (p : string) : bool := bool_decide (p ∈ tree).

Fixpoint check_months (year : Z) (months : list Z) : loop_exit :=
  match months with
  | [] => Fallthrough
  | month :: rest =>
      if future_month now year month then Fallthrough
      else
        match strftime_B year month with
        | None => RaiseValueError
        | Some month_name =>
            let target_filename := target_filename_of month_name year in
            let target_path := os_path_join hscode_dir target_filename in
            if os_path_exists target_path then check_months year rest
            else ReturnFalse
        end
  end.

Fixpoint check_years (years : list Z) : option bool :=
  match years with
  | [] => Some true
  | year :: rest =>
      match check_months year (seqZ 1 12) with
      | Fallthrough => check_years rest
      | ReturnFalse => Some false
      | RaiseValueError => None
      end
  end.

(** [is_hscode_completed(hscode_dir, start_year, end_year)]; [None] when
    the call raises. *)
Definition is_hscode_completed (start_year end_year : Z) : option bool :=
  if negb (os_path_exists hscode_dir) then Some false
  else check_years (seqZ start_year (end_year + 1 - start_year)).
End Oracle.

(** The path the oracle and the driver compute for a period, when the date
    is one [datetime.date] accepts. *)
Definition target_path_of (hscode_dir : string) (year month : Z) : option string :=
  month_name ← strftime_B year month;
  Some (os_path_join hscode_dir (target_filename_of month_name year)).

(** *** The world of the driver *)

Definition exn := string.

(** A file the glob [TEMP_DOWNLOAD_DIR/*] returns, with what
    [os.path.getctime] and [os.path.getmtime] report for it. *)
Record SFile := mk_sfile { sf_path : string; sf_ctime : Z; sf_mtime : Z }.

(** The [print] lines of the driver and its interactions with the remote
    report tool ([Net_request]: [driver.get(url)] and the submission of the
    form for one period; [Net_export]: the click on the export button). *)
Inductive event :=
| Msg_processing_total (total : nat)
| Msg_processing (idx total : nat) (hscode : string)
| Msg_skipping (hscode : string)
| Msg_downloading (month_name : string) (year : Z)
| Net_request (hscode : string) (month year : Z)
| Msg_no_data (month_name : string) (year : Z)
| Net_export (hscode : string) (month year : Z)
| Msg_saved (target_filename : string)
| Msg_timeout
| Msg_error (month_name : string) (year : Z) (e : exn)
| Msg_blank
| Msg_closing.

Global Instance event_eq_dec : EqDecision event.
Proof. solve_decision. Defined.

Definition is_network (e : event) : bool :=
  match e with
  | Net_request _ _ _ | Net_export _ _ _ => true
  | _ => false
  end.

(** [clock]: [time.time()] in milliseconds; [tree]: the paths for which
    [os.path.exists] holds, the files inside [TEMP_DOWNLOAD_DIR] apart;
    [staging]: the listing of [TEMP_DOWNLOAD_DIR]; [output]: the events so
    far, oldest first.  The files of the staging directory are kept apart
    from the tree: no code of the catalog is taken to name the folder
    [temp_downloads]. *)
Record World := mk_world {
  clock : Z;
  tree : gset string;
  staging : list SFile;
  output : list event
}.

(** The browser, the remote site and the calendar, as the driver sees
    them.  Every query receives the request and the clock reading. *)
Record Env := mk_env {
  cwd : string;
  (** [datetime.datetime.now()] at a clock reading *)
  datetime_now : Z → datetime;
  (** [driver.get(url)], the wait for the form, the three fields and the
      submit click; [Some e] when one of them raises the [Exception] e *)
  submit_query : string → Z → Z → Z → option exn;
  (** after how many milliseconds [.buttons-excel] is present; [None] when
      it never is *)
  excel_button_after : string → Z → Z → Z → option Z;
  (** the click on the export button; [Some e] when it raises *)
  click_excel : string → Z → Z → Z → option exn;
  (** what the browser has done to the staging directory when it is
      listed at a clock reading *)
  staging_update : string → Z → Z → Z → list SFile → list SFile;
  (** [shutil.move(src, dst)]: [Some e] when the move raises *)
  move_error : string → string → Z → option exn;
  (** [os.mkdir(path)] for a path that does not exist: [Some e] when the
      system refuses it (a name too long, an embedded NUL, no
      permission) *)
  mkdir_error : string → Z → option exn;
  (** [setup_driver()]: [Some e] when the browser cannot be started *)
  setup_error : Z → option exn;
  (** [driver.quit()]: [Some e] when it raises *)
  quit_error : Z → option exn;
  (** [os.rmdir(TEMP_DOWNLOAD_DIR)] for a directory that exists and in
      which the driver has listed no file: whether the system finds it
      empty and removes it (the glob of the driver does not list hidden
      files, and the browser may have written since the last listing) *)
  rmdir_allowed : Z → bool
}.

Definition seconds (n : Z) : Z := 1000 * n.

Definition print (e : event) (w : World) : World :=
  mk_world (clock w) (tree w) (staging w) (output w ++ [e]).

(** [time.sleep(n)] *)
Definition sleep (n : Z) (w : World) : World :=
  mk_world (clock w + seconds n) (tree w) (staging w) (output w).

Definition advance (ms : Z) (w : World) : World :=
  mk_world (clock w + ms) (tree w) (staging w) (output w).

(** [shutil.move(src, dst)]: the staging entry goes, the target appears. *)
Definition shutil_move (src dst : string) (w : World) : World :=
  mk_world (clock w) ({[dst]} ∪ tree w)
    (filter (λ f, sf_path f ≠ src) (staging w)) (output w).

Definition BASE_DOWNLOAD_DIR (env : Env) : string :=
  os_path_join (os_path_join (cwd env) "data") "import".

(** [os.path.join(BASE_DOWNLOAD_DIR, str(hscode))] *)
Definition hscode_dir_of (env : Env) (hscode : string) : string :=
  os_path_join (BASE_DOWNLOAD_DIR env) hscode.

Definition TEMP_DOWNLOAD_DIR (env : Env) : string :=
  os_path_join (BASE_DOWNLOAD_DIR env) "temp_downloads".

(** *** Directories *)

(** How a call or a loop of the driver ends: normally, or with an
    exception that no [try] of the driver catches. *)
Inductive result :=
| Normal (w : World)
| Raised (e : exn) (w : World).

Definition world_of (r : result) : World :=
  match r with Normal w | Raised _ w => w end.

Section Directories.
Variable env : Env.

(** [os.mkdir(path)] *)
Definition os_mkdir (path : string) (w : World) : result :=
  if os_path_exists (tree w) path then Raised "FileExistsError" w
  else
    match mkdir_error env path (clock w) with
    | Some e => Raised e w
    | None =>
        Normal (mk_world (clock w) ({[path]} ∪ tree w) (staging w) (output w))
    end.

(** [os.makedirs(name)], with [exist_ok=False]: the head of the name is
    made first when it does not exist, a [FileExistsError] of that call is
    passed over, and a name whose tail is "." is done with its head.  The
    recursion is on the head, which is shorter than the name: one unit of
    fuel per character of the name. *)
Fixpoint makedirs_fuel (fuel : nat) (name : string) (w : World) : result :=
  match fuel with
  | O => os_mkdir name w
  | S fuel' =>
      let '(head, tail) := os_path_split name in
      let '(head, tail) :=
        if String.eqb tail "" then os_path_split head else (head, tail) in
      if negb (String.eqb head "") && negb (String.eqb tail "")
         && negb (os_path_exists (tree w) head)
      then
        let after w' :=
          if String.eqb tail "." then Normal w' else os_mkdir name w' in
        match makedirs_fuel fuel' head w with
        | Normal w' => after w'
        | Raised e w' =>
            if String.eqb e "FileExistsError" then after w' else Raised e w'
        end
      else os_mkdir name w
  end.

Definition makedirs (name : string) (w : World) : result :=
  makedirs_fuel (String.length name) name w.

(** [if not os.path.exists(p): os.makedirs(p)] *)
Definition ensure_dir (p : string) (w : World) : result :=
  if os_path_exists (tree w) p then Normal w else makedirs p w.


Definition nil_listing (l : list SFile) : bool :=
  match l with [] => true | _ :: _ => false end.

(** [try: os.rmdir(TEMP_DOWNLOAD_DIR) except: pass]: the directory goes
    when it exists, holds no file the driver has listed, and the system
    finds it empty; otherwise the exception is passed over. *)
Definition rmdir_temp (w : World) : World :=
  if os_path_exists (tree w) (TEMP_DOWNLOAD_DIR env)
     && nil_listing (staging w) && rmdir_allowed env (clock w)
  then mk_world (clock w) (tree w ∖ {[TEMP_DOWNLOAD_DIR env]}) [] (output w)
  else w.
End Directories.

(** *** The staging directory *)

(** [max(files, key=os.path.getctime)]: the first file of greatest ctime. *)
Fixpoint max_by_ctime (best : SFile) (files : list SFile) : SFile :=
  match files with
  | [] => best
  | f :: rest =>
      max_by_ctime (if sf_ctime best <? sf_ctime f then f else best) rest
  end.

Definition in_progress (f : SFile) : bool :=
  endswith (sf_path f) ".crdownload" || endswith (sf_path f) ".tmp".

(** [get_latest_file(directory)], on the listing of the directory. *)
Definition get_latest_file (listing : list SFile) : option SFile :=
  match filter (λ f, in_progress f = false) listing with
  | [] => None
  | f :: files => Some (max_by_ctime f files)
  end.

Section Cycle.
Variable env : Env.
Variables (hscode : string) (month year : Z).

(** The listing of the staging directory at the clock of the world. *)
Definition list_staging (w : World) : World :=
  mk_world (clock w) (tree w)
    (staging_update env hscode month year (clock w) (staging w)) (output w).

(** The loop [while time.time() - start_wait < timeout], one unit of
    fuel per test of its condition. *)
Fixpoint wait_for_download (fuel : nat) (timeout start_wait : Z) (w : World)
  : option SFile * World :=
  match fuel with
  | O => (None, w)
  | S fuel' =>
      if clock w - start_wait <? seconds timeout then
        let w1 := list_staging w in
        match get_latest_file (staging w1) with
        | Some latest =>
            if start_wait <? sf_mtime latest then (Some latest, w1)
            else wait_for_download fuel' timeout start_wait (sleep 1 w1)
        | None => wait_for_download fuel' timeout start_wait (sleep 1 w1)
        end
      else (None, w)
  end.

(** [WebDriverWait(driver, 20).until(presence of .buttons-excel)] *)
Definition wait_for_excel_button (w : World) : bool * World :=
  match excel_button_after env hscode month year (clock w) with
  | Some d =>
      if d <=? seconds 20 then (true, advance (Z.max 0 d) w)
      else (false, advance (seconds 20) w)
  | None => (false, advance (seconds 20) w)
  end.

(** Step 7 and the move: wait for the download to finish, then move and
    rename it.  An exception of the move reaches the [except Exception]
    of the period, which prints it. *)
Definition reconcile (month_name target_filename target_path : string)
    (w : World) : World :=
  let timeout := 60 in
  let start_wait := clock w in
  let '(new_file, w) :=
    wait_for_download (S (Z.to_nat timeout)) timeout start_wait w in
  match new_file with
  | Some f =>
      let w := sleep 1 w in
      match move_error env (sf_path f) target_path (clock w) with
      | Some e => print (Msg_error month_name year e) w
      | None =>
          print (Msg_saved target_filename)
            (shutil_move (sf_path f) target_path w)
      end
  | None => print Msg_timeout w
  end.

(** The body of the [try] of one period, with the [print] before it. *)
Definition download_cycle (month_name target_filename target_path : string)
    (w : World) : World :=
  let w := print (Msg_downloading month_name year) w in
  let w := print (Net_request hscode month year) w in
  match submit_query env hscode month year (clock w) with
  | Some e => print (Msg_error month_name year e) w
  | None =>
      let '(found, w) := wait_for_excel_button w in
      if negb found then print (Msg_no_data month_name year) w
      else
        let w := sleep 2 w in
        let w := print (Net_export hscode month year) w in
        match click_excel env hscode month year (clock w) with
        | Some e => print (Msg_error month_name year e) w
        | None => reconcile month_name target_filename target_path w
        end
  end.
End Cycle.

(** *** The crawl driver *)

Definition start_year : Z := 2018.

Section Driver.
Variable env : Env.
(** [now]: read once, when [scrape_commodity_data] starts. *)
Variable now : datetime.

Fixpoint month_loop (hscode hscode_dir : string) (year : Z)
    (months : list Z) (w : World) : result :=
  match months with
  | [] => Normal w
  | month :: rest =>
      if future_month now year month then Normal w
      else
        match strftime_B year month with
        | None => Raised "ValueError" w
        | Some month_name =>
            let target_filename := target_filename_of month_name year in
            let target_path := os_path_join hscode_dir target_filename in
            if os_path_exists (tree w) target_path
            then month_loop hscode hscode_dir year rest w
            else
              month_loop hscode hscode_dir year rest
                (download_cycle env hscode month year
                   month_name target_filename target_path w)
        end
  end.

Fixpoint year_loop (hscode hscode_dir : string) (years : list Z)
    (w : World) : result :=
  match years with
  | [] => Normal w
  | year :: rest =>
      match month_loop hscode hscode_dir year (seqZ 1 12) w with
      | Normal w' => year_loop hscode hscode_dir rest w'
      | Raised e w' => Raised e w'
      end
  end.

(** The body of [for idx, hscode in enumerate(hscodes, 1)]. *)
Definition process_hscode (idx total : nat) (hscode : string) (w : World)
  : result :=
  let current_year := dt_year now in
  let w := print (Msg_processing idx total hscode) w in
  let hscode_dir := hscode_dir_of env hscode in
  match ensure_dir env hscode_dir w with
  | Raised e w' => Raised e w'
  | Normal w =>
      match is_hscode_completed (tree w) (datetime_now env (clock w))
              hscode_dir start_year current_year with
      | None => Raised "ValueError" w
      | Some true => Normal (print (Msg_skipping hscode) w)
      | Some false =>
          match year_loop hscode hscode_dir
                  (seqZ start_year (current_year + 1 - start_year)) w with
          | Normal w' => Normal (print Msg_blank w')
          | Raised e w' => Raised e w'
          end
      end
  end.

Fixpoint hscode_loop (idx total : nat) (hscodes : list string) (w : World)
  : result :=
  match hscodes with
  | [] => Normal w
  | hscode :: rest =>
      match process_hscode idx total hscode w with
      | Normal w' => hscode_loop (S idx) total rest w'
      | Raised e w' => Raised e w'
      end
  end.
End Driver.

(** The [finally] block after the [try] ended as [r]: the line is
    printed and the driver closed; an exception of [driver.quit()] leaves
    the block at once and takes the place of the one of the [try], if any;
    otherwise the staging directory is removed if it can be, and the [try]
    ends as it did. *)
Definition finally (env : Env) (r : result) : result :=
  let w := print Msg_closing (world_of r) in
  match quit_error env (clock w) with
  | Some e => Raised e w
  | None =>
      let w := rmdir_temp env w in
      match r with
      | Normal _ => Normal w
      | Raised e _ => Raised e w
      end
  end.

(** [scrape_commodity_data(hscodes)]; [setup_driver()] is called before
    the [try]. *)
Definition scrape_commodity_data (env : Env) (hscodes : list string)
    (w : World) : result :=
  match setup_error env (clock w) with
  | Some e => Raised e w
  | None =>
      let now := datetime_now env (clock w) in
      let total := length hscodes in
      let w := print (Msg_processing_total total) w in
      finally env (hscode_loop env now 1 total hscodes w)
  end.

(** The events a run added to the output of the world it started from. *)
Definition new_events (w : World) (r : result) : list event :=
  drop (length (output w)) (output (world_of r)).

(** *** Vocabulary of the statements *)

(** The artifact of a period exists. *)
Definition present (tree : gset string) (hscode_dir : string) (y m : Z) : Prop :=
  ∃ p, target_path_of hscode_dir y m = Some p ∧ p ∈ tree.

(** An interaction with the remote tool for one code and period. *)
Definition net_of (c : string) (m y : Z) (e : event) : Prop :=
  e = Net_request c m y ∨ e = Net_export c m y.

(** The export button is not there when the wait of 20 seconds ends. *)
Definition no_export_button (env : Env) (c : string) (m y t : Z) : Prop :=
  ∀ d, excel_button_after env c m y t = Some d → seconds 20 < d.

(** No finished download newer than [start] ever shows in the staging
    directory. *)
Definition never_downloaded (env : Env) (c : string) (m y start : Z) : Prop :=
  ∀ t l f, f ∈ staging_update env c m y t l →
           in_progress f = false → sf_mtime f ≤ start.

(** The months a run reaches in the year 2025 are only January and
    February. *)
Definition only_january_february (evs : list event) : Prop :=
  ∀ c m, Net_request c m 2025 ∈ evs → m = 1 ∨ m = 2.

(** The months of [year] that [evs] requests, in order. *)
Definition requested_months (year : Z) (evs : list event) : list Z :=
  omap (λ e, match e with
             | Net_request _ m y => if y =? year then Some m else None
             | _ => None
             end) evs.

(** The completion gate answers by the periods that are not in the
    future, whatever the years asked for. *)
Definition gate_by_non_future (tree : gset string) (now : datetime)
    (hscode_dir : string) (start_year end_year : Z) : Prop :=
  (hscode_dir ∉ tree →
     is_hscode_completed tree now hscode_dir start_year end_year = Some false) ∧
  (hscode_dir ∈ tree →
     (is_hscode_completed tree now hscode_dir start_year end_year = Some true ↔
      ∀ y m, start_year ≤ y ≤ end_year → 1 ≤ m ≤ 12 →
             ¬ in_future now y m → present tree hscode_dir y m)).

(** The run ended without an exception. *)
Definition ended_normally (r : result) : Prop :=
  match r with Normal _ => True | Raised _ _ => False end.

(** Nothing raises outside the cycles of the periods: the browser starts
    and closes, and the system refuses no directory. *)
Definition os_cooperates (env : Env) : Prop :=
  (∀ t, setup_error env t = None) ∧ (∀ p t, mkdir_error env p t = None) ∧
  (∀ t, quit_error env t = None).

(** A line or an interaction of the cycle of a period. *)
Definition is_cycle_event (e : event) : bool :=
  match e with
  | Msg_downloading _ _ | Net_request _ _ _ | Msg_no_data _ _
  | Net_export _ _ _ | Msg_saved _ | Msg_timeout | Msg_error _ _ _ => true
  | _ => false
  end.

(** The names [os.makedirs(name)] goes through: the name, the head it
    makes first, the head of that head, and so on. *)
Fixpoint makedirs_names (fuel : nat) (name : string) : list string :=
  match fuel with
  | O => [name]
  | S fuel' =>
      let '(head, tail) := os_path_split name in
      let '(head, tail) :=
        if String.eqb tail "" then os_path_split head else (head, tail) in
      if negb (String.eqb head "") && negb (String.eqb tail "")
      then name :: makedirs_names fuel' head
      else [name]
  end.

(** The directory and the directories above it, as [os.makedirs] names
    them. *)
Definition dirs_of (name : string) : list string :=
  makedirs_names (String.length name) name.

(** A second run, after a first one has ended, talks to nobody and leaves
    the download tree as it found it, the staging directory apart. *)
Definition second_run_silent (env1 env2 : Env) (hscodes : list string)
    (w0 : World) : Prop :=
  let w1 := world_of (scrape_commodity_data env1 hscodes w0) in
  let r2 := scrape_commodity_data env2 hscodes w1 in
  filter (λ e, is_network e = true) (new_events w1 r2) = [] ∧
  ∀ p, p ≠ TEMP_DOWNLOAD_DIR env2 → p ∈ tree (world_of r2) ↔ p ∈ tree w1.

Section Vocabulary.
Variable env : Env.
Variable now : datetime.

(** A request to the remote tool is legitimate when it is for a code of
    [C] and a period of [R] that is not in the future, and the artifact
    of the period was absent from the tree [tree0]. *)
Definition legit (tree0 : gset string) (C : string → Prop)
    (R : Z → Z → Prop) (e : event) : Prop :=
  is_network e = true →
  ∃ c y m p, net_of c m y e ∧ C c ∧ R y m ∧ future_month now y m = false ∧
             target_path_of (hscode_dir_of env c) y m = Some p ∧ p ∉ tree0.

(** The period was dealt with: its artifact exists, or it was requested. *)
Definition covered (c : string) (y m : Z) (w' : World) (evs : list event)
  : Prop :=
  ∃ p, target_path_of (hscode_dir_of env c) y m = Some p ∧
       (p ∈ tree w' ∨ Net_request c m y ∈ evs).

(** What a loop over the periods [R] of one code does to the world. *)
Definition loop_spec (c : string) (R : Z → Z → Prop)
    (w : World) (r : result) : Prop :=
  ∃ w' evs, r = Normal w' ∧ output w' = output w ++ evs ∧
    tree w ⊆ tree w' ∧
    Forall (legit (tree w) (eq c) R) evs ∧
    (∀ y m, R y m → future_month now y m = false → covered c y m w' evs) ∧
    ((∀ y m, R y m → future_month now y m = false →
             present (tree w) (hscode_dir_of env c) y m) → w' = w).

(** The periods of a run: every month of the years from [start_year] to
    the year of [now]. *)
Definition grid (y m : Z) : Prop :=
  start_year ≤ y ≤ dt_year now ∧ 1 ≤ m ≤ 12.

(** Nothing happened but printing. *)
Definition quiet (w w' : World) (evs : list event) : Prop :=
  tree w' = tree w ∧ staging w' = staging w ∧ clock w' = clock w ∧
  Forall (λ e, is_network e = false) evs.

(** Every code has its directory and the artifact of every period. *)
Definition complete (hscodes : list string) (t : gset string) : Prop :=
  ∀ c, c ∈ hscodes →
    hscode_dir_of env c ∈ t ∧
    ∀ y m, grid y m → future_month now y m = false →
           present t (hscode_dir_of env c) y m.

(** The completion gate let the code pass at a clock reading [t] between
    the two worlds: every period of the grid that is not in the future at
    [t] has its artifact. *)
Definition gate_passed (c : string) (w w' : World) : Prop :=
  ∃ t, clock w ≤ t ≤ clock w' ∧
    ∀ y m, grid y m → future_month (datetime_now env t) y m = false →
           present (tree w') (hscode_dir_of env c) y m.

(** What a loop over the codes [hscodes] does to the world, however it
    ends. *)
Definition run_spec (hscodes : list string) (w : World) (r : result) : Prop :=
  ∃ evs, output (world_of r) = output w ++ evs ∧
    tree w ⊆ tree (world_of r) ∧ clock w ≤ clock (world_of r) ∧
    Forall (legit (tree w) (λ c, c ∈ hscodes) grid) evs ∧
    (∀ c, Msg_skipping c ∈ evs → c ∈ hscodes ∧ gate_passed c w (world_of r)) ∧
    (ended_normally r →
     ∀ c y m, c ∈ hscodes → grid y m → future_month now y m = false →
       Msg_skipping c ∈ evs ∨ covered c y m (world_of r) evs) ∧
    (complete hscodes (tree w) →
     ended_normally r ∧ quiet w (world_of r) evs) ∧
    ((∀ p t, mkdir_error env p t = None) → ended_normally r).
End Vocabulary.

(** *** Sample environments *)

Definition now_2018_01 : datetime := mk_datetime 2018 1 20 eq_refl.
Definition now_2018_02 : datetime := mk_datetime 2018 2 20 eq_refl.
Definition now_2025_03_15 : datetime := mk_datetime 2025 3 15 eq_refl.

(** The remote tool never shows the export button. *)
Definition env_no_data (now : datetime) : Env :=
  mk_env "" (λ _, now) (λ _ _ _ _, None) (λ _ _ _ _, None)
    (λ _ _ _ _, None) (λ _ _ _ _ l, l) (λ _ _ _, None)
    (λ _ _, None) (λ _, None) (λ _, None) (λ _, true).

(** Every request is answered by a download that lands at once. *)
Definition env_saving (now : datetime) : Env :=
  mk_env "" (λ _, now) (λ _ _ _ _, None) (λ _ _ _ _, Some 500)
    (λ _ _ _ _, None)
    (λ _ _ _ t _, [mk_sfile "data/import/temp_downloads/report.xlsx" t (t + 1)])
    (λ _ _ _, None)
    (λ _ _, None) (λ _, None) (λ _, None) (λ _, true).

(** The page of the remote tool cannot be driven. *)
Definition env_failing (now : datetime) : Env :=
  mk_env "" (λ _, now) (λ _ _ _ _, Some "WebDriverException"%string)
    (λ _ _ _ _, None) (λ _ _ _ _, None) (λ _ _ _ _ l, l) (λ _ _ _, None)
    (λ _ _, None) (λ _, None) (λ _, None) (λ _, true).

(** The export starts and never finishes: the staging directory holds a
    partial file only. *)
Definition env_stalled (now : datetime) : Env :=
  mk_env "" (λ _, now) (λ _ _ _ _, None) (λ _ _ _ _, Some 500)
    (λ _ _ _ _, None)
    (λ _ _ _ t _,
       [mk_sfile "data/import/temp_downloads/report.xlsx.crdownload" t (t + 1)])
    (λ _ _ _, None)
    (λ _ _, None) (λ _, None) (λ _, None) (λ _, false).

Definition w_empty : World := mk_world 0 ∅ [] [].

(** A code directory holding January to March 2025. *)
Definition tree_q1_2025 : gset string :=
  {[ "d"; "d/January_2025.xlsx"; "d/February_2025.xlsx";
     "d/March_2025.xlsx" ]}%string.

Definition tree_jan_2018 : gset string :=
  {[ "d"; "d/January_2018.xlsx" ]}%string.

End Scraper.

(** ** The wide-to-long transformer *)

Module Transform.
Import PyStr.

(** *** Cell values *)

(** A Python float, by its value: [Finite m e] is the float that equals
    m * 10^e (a binary64 number has a finite decimal expansion; the
    conversions below give it with e <= 0 and, when e < 0, with m no
    multiple of 10).  Zero is [Finite 0 0], and [NegativeZero] is -0.0. *)
Inductive pyfloat :=
| Finite (mantissa exponent : Z)
| Infinity (negative : bool)
| NaN
| NegativeZero.

(** What [pd.read_excel(header=None)] puts in a cell: a string, an int or
    a float; an empty cell is the float NaN. *)
Inductive cell :=
| CStr (s : string)
| CInt (z : Z)
| CFloat (x : pyfloat).

Definition is_digit (c : ascii) : bool :=
  let n := nat_of_ascii c in (48 <=? n)%nat && (n <=? 57)%nat.

Definition is_alpha (c : ascii) : bool :=
  let n := nat_of_ascii c in
  ((65 <=? n)%nat && (n <=? 90)%nat) || ((97 <=? n)%nat && (n <=? 122)%nat).

Definition digit_value (c : ascii) : Z := Z.of_nat (nat_of_ascii c) - 48.

Definition decimal_value (ds : list ascii) : Z :=
  fold_left (λ acc c, 10 * acc + digit_value c) ds 0.

(** **** Rounding to binary64 *)

(** The binary64 number nearest to num / den (both positive), ties to the
    even significand: the significand q and the exponent s of q * 2^s,
    with s >= -1074 and q <= 2^53. *)
Definition round_to_nearest (num den : Z) : Z * Z :=
  let b := Z.log2 num - Z.log2 den in
  let below := num * 2 ^ Z.max 0 (- b) <? den * 2 ^ Z.max 0 b in
  let ex := if below then b - 1 else b in
  let s := Z.max (ex - 52) (-1074) in
  let n := num * 2 ^ Z.max 0 (- s) in
  let d := den * 2 ^ Z.max 0 s in
  let q := n / d in
  let r := n mod d in
  let up := (d <? 2 * r) || ((d =? 2 * r) && Z.odd q) in
  (if up then q + 1 else q, s).

(** How many times 2 divides q, up to [fuel] times. *)
Fixpoint twos (fuel : nat) (q : Z) : Z :=
  match fuel with
  | O => 0
  | S fuel' => if Z.even q && negb (q =? 0) then 1 + twos fuel' (q / 2) else 0
  end.

(** q * 2^s as m * 10^e with e <= 0 and, when e < 0, m no multiple of
    10. *)
Definition decimal_of_binary (q s : Z) : Z * Z :=
  if 0 <=? s then (q * 2 ^ s, 0)
  else
    let t := Z.min (twos 64 q) (- s) in
    ((q / 2 ^ t) * 5 ^ (- s - t), s + t).

Definition signed_zero (negative : bool) : pyfloat :=
  if negative then NegativeZero else Finite 0 0.

(** The float nearest to (-1)^negative * m * 10^e, for m >= 0: what the
    conversion of a decimal literal or of an int gives.  A value of
    2^1024 - 2^970 or more rounds to infinity, one of 2^-1075 or less to
    zero; the two tests on the exponent only spare the computation of a
    large power. *)
Definition binary64_of (negative : bool) (m e : Z) : pyfloat :=
  if m <=? 0 then signed_zero negative
  else if 342 <=? e then Infinity negative
  else if Z.log2 m + 1 + 3 * e <=? -1075 then signed_zero negative
  else
    let '(q, s) := round_to_nearest (m * 10 ^ Z.max 0 e) (10 ^ Z.max 0 (- e)) in
    if q =? 0 then signed_zero negative
    else if 2 ^ 1024 <=? q * 2 ^ Z.max 0 s then Infinity negative
    else
      let '(m', e') := decimal_of_binary q s in
      Finite (if negative then - m' else m') e'.

(** The number of decimal digits of a positive integer: the least d with
    n < 10^d, looked for from a lower estimate. *)
Fixpoint digits_from (fuel : nat) (n d : Z) : Z :=
  match fuel with
  | O => d
  | S fuel' => if n <? 10 ^ d then d else digits_from fuel' n (d + 1)
  end.

Definition decimal_length (n : Z) : Z :=
  digits_from (S (Z.to_nat (Z.log2 n))) n (Z.log2 n * 1233 / 4096).

(** **** [repr] of a float *)

Fixpoint drop_zeros (rev_digits : list ascii) (e : Z) : list ascii * Z :=
  match rev_digits with
  | c :: r => if Ascii.eqb c "0" then drop_zeros r (e + 1) else (rev_digits, e)
  | [] => ([], e)
  end.

Definition zeros (n : Z) : list ascii := replicate (Z.to_nat n) "0"%char.

Definition exponent_digits (x : Z) : string :=
  let s := pretty (Z.abs x) in
  if (String.length s <? 2)%nat then "0" +:+ s else s.

(** [repr(x)] for a finite x with digits [ds] and the decimal point after
    [decpt] of them: exponent notation when decpt <= -4 or decpt > 16. *)
Definition repr_digits (ds : list ascii) (decpt : Z) : string :=
  let n := Z.of_nat (length ds) in
  if (decpt <=? -4) || (16 <? decpt) then
    let mant := match ds with
                | d :: (_ :: _) as rest => d :: "."%char :: rest
                | _ => ds
                end in
    string_of_list_ascii mant +:+ "e"
      +:+ (if decpt - 1 <? 0 then "-" else "+") +:+ exponent_digits (decpt - 1)
  else if decpt <=? 0 then
    "0." +:+ string_of_list_ascii (zeros (- decpt) ++ ds)
  else if n <=? decpt then
    string_of_list_ascii (ds ++ zeros (decpt - n)) +:+ ".0"
  else
    string_of_list_ascii (take (Z.to_nat decpt) ds) +:+ "."
      +:+ string_of_list_ascii (drop (Z.to_nat decpt) ds).

Definition same_float (x y : pyfloat) : bool :=
  match x, y with
  | Finite m e, Finite m' e' => (m =? m') && (e =? e')
  | Infinity a, Infinity b => Bool.eqb a b
  | NaN, NaN => true
  | NegativeZero, NegativeZero => true
  | _, _ => false
  end.

(** The decimals c * 10^k of at most [n] digits next to m * 10^e (m > 0)
    that read back as the float [x], the nearer one first. *)
Definition round_trip_candidate (x : pyfloat) (m e : Z) (len n : Z)
  : option (Z * Z) :=
  let scale := Z.max 0 (len - n) in
  let lo := m / 10 ^ scale in
  let hi := lo + 1 in
  let ok c := same_float (binary64_of false c (e + scale)) x in
  let below := m - lo * 10 ^ scale in
  let above := hi * 10 ^ scale - m in
  let lo_first := (below <? above) || ((below =? above) && Z.even lo) in
  if ok lo && (lo_first || negb (ok hi)) then Some (lo, e + scale)
  else if ok hi then Some (hi, e + scale)
  else None.

(** The shortest decimal that reads back as the float, the nearest to
    it among the shortest: 17 digits always do. *)
Fixpoint shortest_digits (x : pyfloat) (m e : Z) (len n : Z) (fuel : nat)
  : Z * Z :=
  match fuel with
  | O => (m, e)
  | S fuel' =>
      match round_trip_candidate x m e len n with
      | Some c => c
      | None => shortest_digits x m e len (n + 1) fuel'
      end
  end.

(** [repr(x)]; a [Finite m e] that is no binary64 number prints as the
    float nearest to it. *)
Definition float_repr (x : pyfloat) : string :=
  match x with
  | NaN => "nan"
  | Infinity negative => if negative then "-inf" else "inf"
  | NegativeZero => "-0.0"
  | Finite m e =>
      match binary64_of (m <? 0) (Z.abs m) e with
      | Finite m' e' =>
          if m' =? 0 then "0.0"
          else
            let '(c, k) :=
              shortest_digits (Finite (Z.abs m') e') (Z.abs m') e'
                (decimal_length (Z.abs m')) 1 17 in
            let '(rd, k') :=
              drop_zeros (rev (list_ascii_of_string (pretty c))) k in
            let ds := rev rd in
            (if m' <? 0 then "-" else "")
              +:+ repr_digits ds (Z.of_nat (length ds) + k')
      | Infinity negative => if negative then "-inf" else "inf"
      | NaN => "nan"
      | NegativeZero => "-0.0"
      end
  end.

(** [str(value)] *)
Definition py_str (value : cell) : string :=
  match value with
  | CStr s => s
  | CInt z => pretty z
  | CFloat x => float_repr x
  end.

(** **** [float] of a string *)

(** [Py_ISSPACE]: the blanks [float] strips. *)
Definition py_isspace (c : ascii) : bool :=
  let n := nat_of_ascii c in
  ((9 <=? n)%nat && (n <=? 13)%nat) || (n =? 32)%nat.

(** What [float] makes of a character of its argument before it parses:
    a code point below 127 is kept, a Unicode space above becomes a blank,
    any other a question mark. *)
Definition float_char (c : ascii) : ascii :=
  if (nat_of_ascii c <? 127)%nat then c
  else if isspace c then " "%char else "?"%char.

Fixpoint skip_blanks (l : list ascii) : list ascii :=
  match l with
  | c :: l' => if py_isspace c then skip_blanks l' else l
  | [] => []
  end.

(** The rest of a digitpart, [(["_"] digit)*]: the digits and what
    follows them. *)
Fixpoint digitpart_rest (l : list ascii) : list ascii * list ascii :=
  match l with
  | c :: l' =>
      if is_digit c then
        let '(ds, r) := digitpart_rest l' in (c :: ds, r)
      else if Ascii.eqb c "_" then
        match l' with
        | d :: l'' =>
            if is_digit d then
              let '(ds, r) := digitpart_rest l'' in (d :: ds, r)
            else ([], l)
        | [] => ([], l)
        end
      else ([], l)
  | [] => ([], [])
  end.

(** [digitpart ::= digit (["_"] digit)*] *)
Definition digitpart (l : list ascii) : option (list ascii * list ascii) :=
  match l with
  | c :: l' =>
      if is_digit c then
        let '(ds, r) := digitpart_rest l' in Some (c :: ds, r)
      else None
  | [] => None
  end.

(** The exponent and the end of the literal. *)
Definition parse_exponent (l : list ascii) : option Z :=
  match l with
  | [] => Some 0
  | c :: r =>
      if Ascii.eqb c "e" || Ascii.eqb c "E" then
        let '(neg, r') :=
          match r with
          | s :: r' =>
              if Ascii.eqb s "-" then (true, r')
              else if Ascii.eqb s "+" then (false, r')
              else (false, r)
          | [] => (false, r)
          end in
        match digitpart r' with
        | Some (ds, []) =>
            Some (if neg then - decimal_value ds else decimal_value ds)
        | _ => None
        end
      else None
  end.

(** [floatnumber], without sign: digits, an optional point and fraction,
    an optional exponent; at least one digit before the exponent. *)
Definition parse_floatnumber (l : list ascii) : option (Z * Z) :=
  let '(ip, r1) := match digitpart l with
                   | Some x => x
                   | None => ([], l)
                   end in
  let '(fp, r2) :=
    match r1 with
    | c :: r =>
        if Ascii.eqb c "." then
          match digitpart r with
          | Some x => x
          | None => ([], r)
          end
        else ([], r1)
    | [] => ([], r1)
    end in
  match ip ++ fp with
  | [] => None
  | ds =>
      e ← parse_exponent r2;
      Some (decimal_value ds, e - Z.of_nat (length fp))
  end.

(** [float(s)] for a string; [None] stands for [ValueError].  The blanks
    at both ends go, then come a sign and "inf", "infinity" or "nan" in
    any case, or a decimal literal, which is rounded to the nearest
    float. *)
Definition float_of_string (s : string) : option pyfloat :=
  let l := map float_char (list_ascii_of_string s) in
  let l := rev (skip_blanks (rev (skip_blanks l))) in
  let '(neg, body) :=
    match l with
    | c :: r =>
        if Ascii.eqb c "-" then (true, r)
        else if Ascii.eqb c "+" then (false, r)
        else (false, l)
    | [] => (false, l)
    end in
  let word := lower (string_of_list_ascii body) in
  if String.eqb word "inf" || String.eqb word "infinity" then Some (Infinity neg)
  else if String.eqb word "nan" then Some NaN
  else
    '(m, e) ← parse_floatnumber body;
    Some (binary64_of neg m e).

(** What [float(value)] does: it returns a float, raises the [ValueError]
    that the loop over the columns catches, or raises the [OverflowError]
    of an int that rounds beyond the largest float. *)
Inductive float_result :=
| Float (x : pyfloat)
| ValueError
| OverflowError.

(** [float(value)] *)
Definition py_float (value : cell) : float_result :=
  match value with
  | CStr s => match float_of_string s with
              | Some x => Float x
              | None => ValueError
              end
  | CInt z => if Z.abs z <? 2 ^ 1024 - 2 ^ 970
              then Float (binary64_of (z <? 0) (Z.abs z) 0)
              else OverflowError
  | CFloat x => Float x
  end.

(** [pd.isna(value)] *)
Definition pd_isna (value : cell) : bool :=
  match value with
  | CFloat NaN => true
  | _ => false
  end.

(** [value == ''] *)
Definition is_empty_str (value : cell) : bool :=
  match value with
  | CStr s => String.eqb s ""
  | _ => false
  end.

(** *** The header pattern *)

(** The length of the leading run of letters. *)
Fixpoint letter_run (l : list ascii) : nat :=
  match l with
  | c :: l' => if is_alpha c then S (letter_run l') else O
  | [] => O
  end.

(** The ways a greedy [[A-Za-z]] repetition of at least [lo] letters can
    match a prefix of [l], longest first, each with the text after it. *)
Definition letters_greedy (lo : nat) (l : list ascii)
  : list (list ascii * list ascii) :=
  (λ k, (take k l, drop k l)) <$> rev (seq lo (S (letter_run l) - lo)).

(** [-?]: with the dash first, then without. *)
Definition optional_dash (l : list ascii) : list (list ascii) :=
  match l with
  | c :: r => if Ascii.eqb c "-" then [r; l] else [l]
  | [] => [l]
  end.

(** [\d{4}] at the head of [l]. *)
Definition four_digits (l : list ascii) : option (list ascii) :=
  match l with
  | a :: b :: c :: d :: _ =>
      if is_digit a && is_digit b && is_digit c && is_digit d
      then Some [a; b; c; d] else None
  | _ => None
  end.

Fixpoint first_some {A B} (f : A → option B) (l : list A) : option B :=
  match l with
  | [] => None
  | x :: l' => match f x with
               | Some y => Some y
               | None => first_some f l'
               end
  end.

(** The pattern of [extract_year_columns] (group 1: one or more letters;
    an optional dash; group 2: optional letters; group 3: four digits)
    anchored at the head of [l], in the order a backtracking matcher tries
    the alternatives.  The result holds groups 1 and 3. *)
Definition match_here (l : list ascii) : option (list ascii * list ascii) :=
  first_some (λ '(g1, r1),
    first_some (λ r2,
      first_some (λ '(_, r3),
        g3 ← four_digits r3; Some (g1, g3))
        (letters_greedy 0 r2))
      (optional_dash r1))
    (letters_greedy 1 l).

(** [re.search(pattern, s)]: the leftmost position with a match. *)
Fixpoint search_from (l : list ascii) : option (list ascii * list ascii) :=
  match match_here l with
  | Some g => Some g
  | None => match l with
            | [] => None
            | _ :: l' => search_from l'
            end
  end.

(** [(match.group(1), match.group(3))] of the search in [col_str]. *)
Definition re_search_month_year (col_str : string) : option (string * string) :=
  '(g1, g3) ← search_from (list_ascii_of_string col_str);
  Some (string_of_list_ascii g1, string_of_list_ascii g3).

(** *** Header and rows *)

Definition non_year_labels : list string :=
  ["S.No."; "Country"; "(R)"; "%Growth"; "nan"; ""]%string.

(** The loop of [extract_year_columns], from column [idx] on. *)
Fixpoint extract_year_columns_from (idx : nat) (cells : list cell)
  : list (nat * string * string * string) :=
  match cells with
  | [] => []
  | col_name :: rest =>
      let col_str := strip (py_str col_name) in
      if bool_decide (col_str ∈ non_year_labels)
      then extract_year_columns_from (S idx) rest
      else
        match re_search_month_year col_str with
        | Some (month, year) =>
            (idx, col_str, year, month) :: extract_year_columns_from (S idx) rest
        | None => extract_year_columns_from (S idx) rest
        end
  end.

(** [extract_year_columns(df_header_row)]: (index, name, year, month). *)
Definition extract_year_columns (df_header_row : list cell)
  : list (nat * string * string * string) :=
  extract_year_columns_from 0 df_header_row.

(** The loop that finds the Country column, from column [idx] on. *)
Fixpoint find_country_from (idx : nat) (cells : list cell) : option nat :=
  match cells with
  | [] => None
  | col_name :: rest =>
      if String.eqb (lower (strip (py_str col_name))) "country" then Some idx
      else find_country_from (S idx) rest
  end.

Record LongRecord := mk_record {
  HSCod : string;
  Commodity : string;
  Value : pyfloat;
  Country : string;
  Date : string;
  Type_ : string
}.

Section Rows.
Variables (hscode commodity_name data_type : string).

(** The loop over the year columns of one row; [None] stands for an
    exception that leaves the loop: the [IndexError] of [row.iloc] or the
    [OverflowError] of [float]. *)
Fixpoint columns_loop (row : list cell) (country : string)
    (year_columns : list (nat * string * string * string))
  : option (list LongRecord) :=
  match year_columns with
  | [] => Some []
  | (col_idx, col_name, year, month) :: rest =>
      match row !! col_idx with
      | None => None
      | Some value =>
          if pd_isna value || is_empty_str value
          then columns_loop row country rest
          else
            match py_float value with
          | ValueError => columns_loop row country rest
          | OverflowError => None
          | Float value_float =>
              let date_str := month +:+ "-" +:+ year in
              cons (mk_record hscode commodity_name value_float
                      country date_str data_type)
                <$> columns_loop row country rest
          end
      end
  end.

(** The loop over the data rows. *)
Fixpoint rows_loop (country_col_idx : nat)
    (year_columns : list (nat * string * string * string))
    (data_rows : list (list cell)) : option (list LongRecord) :=
  match data_rows with
  | [] => Some []
  | row :: rest =>
      match row !! country_col_idx with
      | None => None
      | Some c =>
          let country := strip (py_str c) in
          if bool_decide (country ∈ [""; "nan"; "None"]%string)
          then rows_loop country_col_idx year_columns rest
          else
            recs ← columns_loop row country year_columns;
            more ← rows_loop country_col_idx year_columns rest;
            Some (recs ++ more)
      end
  end.
End Rows.

(** What [pd.read_excel(filepath, header=None)] does with a file: it
    raises, or returns the grid of its cells. *)
Inductive artifact :=
| Unreadable
| Sheet (df_raw : list (list cell)).

(** [process_monthly_file(filepath, hscode, commodity_name, data_type)] on
    the content of the file; [None] is the [None] the function returns,
    also from its [except Exception]. *)
Definition process_monthly_file (file : artifact)
    (hscode commodity_name data_type : string) : option (list LongRecord) :=
  match file with
  | Unreadable => None
  | Sheet df_raw =>
      if (length df_raw <? 3)%nat then None
      else
        header_row ← df_raw !! 2%nat;
        let data_rows := drop 3 df_raw in
        let year_columns := extract_year_columns header_row in
        match year_columns with
        | [] => None
        | _ =>
            country_col_idx ← find_country_from 0 header_row;
            long_data ← rows_loop hscode commodity_name data_type
                          country_col_idx year_columns data_rows;
            match long_data with
            | [] => None
            | _ => Some long_data
            end
        end
  end.

(** *** Aggregation *)

(** The subset of [drop_duplicates]. *)
Definition key (r : LongRecord) : string * string * string :=
  (HSCod r, Country r, Date r).

Fixpoint drop_duplicates_seen (seen : list (string * string * string))
    (l : list LongRecord) : list LongRecord :=
  match l with
  | [] => []
  | r :: l' =>
      if bool_decide (key r ∈ seen) then drop_duplicates_seen seen l'
      else r :: drop_duplicates_seen (key r :: seen) l'
  end.

(** [df.drop_duplicates(subset=['HSCod', 'Country', 'Date'], keep='first')] *)
Definition drop_duplicates (l : list LongRecord) : list LongRecord :=
  drop_duplicates_seen [] l.

(** [os.listdir(hscode_dir)] *)
Definition listdir (hscode_dir : gmap string artifact) : list string :=
  (map_to_list hscode_dir).*1.

(** [sorted(f for f in os.listdir(hscode_dir) if f.endswith('.xlsx'))] *)
Definition excel_files_of (hscode_dir : gmap string artifact) : list string :=
  merge_sort String.le
    (filter (λ f, endswith f ".xlsx" = true) (listdir hscode_dir)).

(** One turn of the loop over the files: what is appended to [all_data]. *)
Definition monthly_frame (hscode_dir : gmap string artifact)
    (hscode commodity_name : string) (filename : string)
  : option (list LongRecord) :=
  file ← hscode_dir !! filename;
  df_long ← process_monthly_file file hscode commodity_name "Export";
  if (0 <? length df_long)%nat then Some df_long else None.

(** [process_hscode_directory(hscode_dir, hscode, commodity_name)] on the
    files of the directory. *)
Definition process_hscode_directory (hscode_dir : gmap string artifact)
    (hscode commodity_name : string) : option (list LongRecord) :=
  let excel_files := excel_files_of hscode_dir in
  let all_data :=
    omap (monthly_frame hscode_dir hscode commodity_name) excel_files in
  match all_data with
  | [] => None
  | _ => Some (drop_duplicates (concat all_data))
  end.

(** [pd.concat(all_dataframes)] and [drop_duplicates(subset=[HSCod,
    Country, Date], keep=first)] of [merge_excel_files], on rows whose
    three key columns hold text, as the transformer writes them; what
    [pd.read_excel] makes of the cells of a file is not part of this
    definition. *)
Definition merge_deduplicate (all_dataframes : list (list LongRecord))
  : list LongRecord :=
  drop_duplicates (concat all_dataframes).

(** *** Vocabulary of the statements *)

(** The first record of [l] with key [k]. *)
Definition first_with_key (k : string * string * string)
    (l : list LongRecord) : option LongRecord :=
  List.find (λ r, bool_decide (key r = k)) l.

(** Some cell of the header has the normalized label "country". *)
Definition has_country_column (header_row : list cell) : Prop :=
  ∃ c, c ∈ header_row ∧ lower (strip (py_str c)) = "country"%string.

(** *** Sample artifacts *)

Definition synthetic_header : list cell :=
  [CStr "S.No."; CStr "Country"; CStr "Apr-2020"; CStr "May-2020";
   CStr "%Growth"].

Definition synthetic_row : list cell :=
  [CStr "1"; CStr "Germany"; CStr "12.5"; CStr ""; CStr "3%"].

(** A header without a Country column. *)
Definition headless_sheet : artifact :=
  Sheet [[]; []; [CStr "S.No."; CStr "Apr-2020"]; [CStr "1"; CStr "7"]].

Definition germany (value : string) : artifact :=
  Sheet [[]; [];
         [CStr "S.No."; CStr "Country"; CStr "Apr-2019"];
         [CStr "1"; CStr "Germany"; CStr value]].

(** Two months of one code that both report Germany for Apr-2019. *)
Definition april_august_dir : gmap string artifact :=
  {[ "August_2018.xlsx"%string := germany "1";
     "April_2019.xlsx"%string := germany "2" ]}.

Definition with_headless_dir : gmap string artifact :=
  <["Broken_2018.xlsx"%string := headless_sheet]> april_august_dir.

Definition record_a (value : Z) : LongRecord :=
  mk_record "26011100" "Iron ore" (Finite value 0) "Germany" "Apr-2019" "Export".

End Transform.

(** ** The catalog and the entry point of the scraper *)

Module Catalog.
Import PyStr Scraper.

Definition is_lf (c : ascii) : bool := Ascii.eqb c "010".
Definition is_cr (c : ascii) : bool := Ascii.eqb c "013".

(** The lines of a text file opened with [open(filepath, 'r')], as
    [for line in f] yields them, without their terminator: a line ends at
    a line feed, at a carriage return, or at the pair of them. *)
Fixpoint text_lines (l : list ascii) : list (list ascii) :=
  match l with
  | [] => []
  | c :: l' =>
      if is_lf c then [] :: text_lines l'
      else if is_cr c then
        match l' with
        | c' :: _ => if is_lf c' then text_lines l' else [] :: text_lines l'
        | [] => [] :: text_lines l'
        end
      else
        match text_lines l' with
        | [] => [[c]]
        | cur :: rest => (c :: cur) :: rest
        end
  end.

(** The lines that [read_hscodes_from_file] and the entry point print. *)
Inductive main_line :=
| Banner
| Loaded (n : nat)
| File_not_found
| No_codes_found
| Completed.

(** [code = line.strip()] and the test [code and not code.startswith('#')] *)
Definition code_of_line (line : list ascii) : option string :=
  let code := strip (string_of_list_ascii line) in
  if negb (String.eqb code "") && negb (startswith code "#") then Some code
  else None.

(** [read_hscodes_from_file(filepath)] on the content of the file, [None]
    when there is no such file: the codes and the line printed. *)
Definition read_hscodes_from_file (file : option string)
  : list string * main_line :=
  match file with
  | None => ([], File_not_found)
  | Some content =>
      let hscodes :=
        omap code_of_line (text_lines (list_ascii_of_string content)) in
      (hscodes, Loaded (length hscodes))
  end.


(** *** Vocabulary of the statements *)

(** A catalog file with one line per entry. *)
Definition unlines (lines : list string) : string :=
  foldr (λ line rest, line +:+ String "010" rest) ""%string lines.

(** The character is no line terminator. *)
Definition no_break (c : ascii) : bool := negb (is_lf c) && negb (is_cr c).

(** The requests of a trace, as (code, year, month), in order. *)
Definition requests_of (evs : list event) : list (string * Z * Z) :=
  omap (λ e, match e with
             | Net_request c m y => Some (c, y, m)
             | _ => None
             end) evs.

(** The periods of the years [years] in the order of the loops: year by
    year, months 1 to 12. *)
Definition periods_of (years : list Z) : list (Z * Z) :=
  y ← years; (λ m, (y, m)) <$> seqZ 1 12.

(** The periods of a run in the order of the loops: codes in catalog
    order, years from [start_year] to the year of [now], months 1 to 12. *)
Definition grid_list (now : datetime) (hscodes : list string)
  : list (string * Z * Z) :=
  c ← hscodes;
  (λ '(y, m), (c, y, m)) <$>
    periods_of (seqZ start_year (dt_year now + 1 - start_year)).

(** The progress lines of a trace, as (index, total, code), in order. *)
Definition announcements (evs : list event) : list (nat * nat * string) :=
  omap (λ e, match e with
             | Msg_processing idx total c => Some (idx, total, c)
             | _ => None
             end) evs.

(** A gap of the tree: a period that is not in the future and whose
    artifact is absent. *)
Definition is_gap (env : Env) (tree : gset string) (now : datetime)
    (request : string * Z * Z) : bool :=
  let '(c, y, m) := request in
  negb (future_month now y m) &&
  match target_path_of (hscode_dir_of env c) y m with
  | Some p => negb (os_path_exists tree p)
  | None => false
  end.

(** The line that closes the cycle of one period. *)
Definition is_outcome (month_name : string) (year : Z)
    (target_filename : string) (e : event) : Prop :=
  e = Msg_no_data month_name year ∨ e = Msg_saved target_filename ∨
  e = Msg_timeout ∨ ∃ x, e = Msg_error month_name year x.

(** What a loop of the driver over the periods [periods] of the code [c]
    leaves behind: its requests follow the order of the periods, and every
    path it adds is the artifact of a period it requested. *)
Definition trace_spec (env : Env) (c : string) (periods : list (Z * Z))
    (w : World) (r : result) : Prop :=
  ∃ w' evs, r = Normal w' ∧ output w' = output w ++ evs ∧
    requests_of evs `sublist_of` ((λ '(y, m), (c, y, m)) <$> periods) ∧
    ∀ p, p ∈ tree w' →
      p ∈ tree w ∨
      ∃ y m, (c, y, m) ∈ requests_of evs ∧
             target_path_of (hscode_dir_of env c) y m = Some p.

(** The same for a loop over the codes [hscodes], however it ends: a path
    it adds may also be a directory made for a code. *)
Definition run_trace_spec (env : Env) (now : datetime)
    (hscodes : list string) (w : World) (r : result) : Prop :=
  ∃ evs, output (world_of r) = output w ++ evs ∧
    requests_of evs `sublist_of` grid_list now hscodes ∧
    ∀ p, p ∈ tree (world_of r) →
      p ∈ tree w ∨
      (∃ c, c ∈ hscodes ∧ p ∈ dirs_of (hscode_dir_of env c)) ∨
      ∃ c y m, (c, y, m) ∈ requests_of evs ∧
               target_path_of (hscode_dir_of env c) y m = Some p.

(** A finished file, stale for a wait begun at [start], that the listing
    always shows with a creation time above every other finished file. *)
Definition stale_newest (env : Env) (c : string) (m y start : Z) : Prop :=
  ∀ t l, ∃ s, s ∈ staging_update env c m y t l ∧ in_progress s = false ∧
    sf_mtime s ≤ start ∧
    ∀ g, g ∈ staging_update env c m y t l → in_progress g = false →
         sf_ctime g ≤ sf_ctime s ∧ (sf_ctime g = sf_ctime s → g = s).

(** *** Samples *)

Definition sample_catalog : string :=
  ("# iron ores" +:+ String "010" "" +:+ "26011100" +:+ String "013" (String "010" "")
   +:+ String "010" "" +:+ "  26011200  " +:+ String "010" "" +:+ "   # done")%string.

(** A fresh download hidden behind a leftover with a later creation time. *)
Definition env_leftover (now : datetime) : Env :=
  mk_env "" (λ _, now) (λ _ _ _ _, None) (λ _ _ _ _, Some 500)
    (λ _ _ _ _, None)
    (λ _ _ _ t _,
       [mk_sfile "data/import/temp_downloads/old.xlsx" (t + 10) (-5);
        mk_sfile "data/import/temp_downloads/report.xlsx" t (t + 1)])
    (λ _ _ _, None)
    (λ _ _, None) (λ _, None) (λ _, None) (λ _, false).

End Catalog.

(** ** The consolidation: the entry point of the transformer and the merger *)

Module Consolidate.
Import PyStr Transform.

(** *** The lookup of commodity names *)

(** [load_hscode_lookup()] on the rows of the lookup sheet, each with the
    cell of the column 'Cleaned ITC Code' and, for a sheet whose
    descriptions are text, the string of the column 'Description'. *)
Definition load_hscode_lookup (rows : list (cell * string))
  : gmap string string :=
  foldl (λ lookup_dict '(code, description),
           <[strip (py_str code) := description]> lookup_dict) ∅ rows.

(** [f"Unknown Commodity ({hscode})"] *)
Definition unknown_commodity (hscode : string) : string :=
  "Unknown Commodity (" +:+ hscode +:+ ")".

(** [hscode_lookup.get(hscode, f"Unknown Commodity ({hscode})")] *)
Definition commodity_name_of (hscode_lookup : gmap string string)
    (hscode : string) : string :=
  default (unknown_commodity hscode) (hscode_lookup !! hscode).

(** *** [sort_values] *)

(** The columns of [sort_values(['HSCod', 'Date', 'Country'])]. *)
Definition sort_key (r : LongRecord) : string * string * string :=
  (HSCod r, Date r, Country r).

(** The order of the sort on one column, then on the columns after it. *)
Definition lexico_le (a b : string) (rest : Prop) : Prop :=
  (a ≠ b ∧ String.le a b) ∨ (a = b ∧ rest).

Definition key_le (a b : string * string * string) : Prop :=
  lexico_le a.1.1 b.1.1 (lexico_le a.1.2 b.1.2 (String.le a.2 b.2)).

Global Instance key_le_dec a b : Decision (key_le a b).
Proof. unfold key_le, lexico_le. apply _. Defined.

Definition sort_le (r1 r2 : LongRecord) : Prop :=
  key_le (sort_key r1) (sort_key r2).

(** The place of [r] in a sorted frame whose rows all came after it:
    before the first row that is not below it. *)
Fixpoint insert_sorted (r : LongRecord) (l : list LongRecord)
  : list LongRecord :=
  match l with
  | [] => [r]
  | x :: l' =>
      if bool_decide (sort_le r x) then r :: l else x :: insert_sorted r l'
  end.

(** [df.sort_values(['HSCod', 'Date', 'Country'])]: rows with the same
    three values keep their order. *)
Definition sort_values (l : list LongRecord) : list LongRecord :=
  foldr insert_sorted [] l.

(** *** The entry point of the transformer *)

(** What [os.listdir(DATA_DIR)] names: a file, or a directory with the
    artifacts it holds. *)
Inductive entry :=
| File
| Directory (content : gmap string artifact).

(** [[d for d in os.listdir(DATA_DIR) if os.path.isdir(...)]], each with
    its content; [listing] is [os.listdir(DATA_DIR)] in its order. *)
Definition hscode_dirs_of (listing : list (string * entry))
  : list (string * gmap string artifact) :=
  omap (λ '(d, e), match e with
                   | Directory content => Some (d, content)
                   | File => None
                   end) listing.

(** The loop over the directories, with [all_transformed_data] and the
    two counters. *)
Fixpoint directories_loop (hscode_lookup : gmap string string)
    (hscode_dirs : list (string * gmap string artifact))
    (all_transformed_data : list (list LongRecord))
    (processed_count skipped_count : nat)
  : list (list LongRecord) * nat * nat :=
  match hscode_dirs with
  | [] => (all_transformed_data, processed_count, skipped_count)
  | (hscode, content) :: rest =>
      let commodity_name := commodity_name_of hscode_lookup hscode in
      match process_hscode_directory content hscode commodity_name with
      | Some df_hscode =>
          directories_loop hscode_lookup rest
            (all_transformed_data ++ [df_hscode])
            (S processed_count) skipped_count
      | None =>
          directories_loop hscode_lookup rest all_transformed_data
            processed_count (S skipped_count)
      end
  end.

(** What a run of [main] leaves: the frame written to
    all_export_data.xlsx, if one is written, and the two counts of the
    summary. *)
Record summary := mk_summary {
  consolidated : option (list LongRecord);
  processed : nat;
  skipped : nat
}.

(** [main()] of the transformer, on the rows of the lookup sheet and the
    listing of the data directory. *)
Definition transform_main (lookup_rows : list (cell * string))
    (listing : list (string * entry)) : summary :=
  let hscode_lookup := load_hscode_lookup lookup_rows in
  let hscode_dirs := hscode_dirs_of listing in
  let '(all_transformed_data, processed_count, skipped_count) :=
    directories_loop hscode_lookup hscode_dirs [] 0 0 in
  mk_summary
    (match all_transformed_data with
     | [] => None
     | _ => Some (sort_values (concat all_transformed_data))
     end)
    processed_count skipped_count.

(** *** The merger *)

(** [sub in s] *)
Fixpoint contains (sub s : string) : bool :=
  String.prefix sub s ||
  match s with
  | EmptyString => false
  | String _ s' => contains sub s'
  end.

(** [f.endswith('.xlsx') and 'consolidated' not in f.lower()] *)
Definition selected (f : string) : bool :=
  endswith f ".xlsx" && negb (contains "consolidated" (lower f)).

Section Merger.
(** [frame]: a DataFrame as [pd.read_excel] returns it, its columns typed
    as pandas infers them (a column of codes made of digits comes back as
    integers, whatever the transformer wrote); [consolidate]: lines 79 to
    95 on the frames read, [pd.concat], [drop_duplicates], [sort_values]
    and [to_excel], on such frames, [None] when one of them raises.  Both
    are pandas' own and are left open. *)
Variable frame : Type.
Variable consolidate : list frame → option frame.

(** How [merge_excel_files] ends: with no file to merge, with no frame
    read, with the frame it writes and its two counts, or with an
    exception of the consolidation. *)
Inductive merge_result :=
| No_files
| No_valid_data (error_count : nat)
| Merged (df_consolidated : frame) (processed_count error_count : nat)
| Consolidation_raised.

(** The loop over the files.  A file comes with what [pd.read_excel] and
    the test of the expected columns make of it: [None] when the read
    raises or a column is missing, the frame otherwise. *)
Fixpoint read_loop (excel_files : list (string * option frame))
    (all_dataframes : list frame) (processed_count error_count : nat)
  : list frame * nat * nat :=
  match excel_files with
  | [] => (all_dataframes, processed_count, error_count)
  | (_, Some df) :: rest =>
      read_loop rest (all_dataframes ++ [df]) (S processed_count) error_count
  | (_, None) :: rest =>
      read_loop rest all_dataframes processed_count (S error_count)
  end.

(** [merge_excel_files()] on the listing of the transformed directory. *)
Definition merge_excel_files (listing : list (string * option frame))
  : merge_result :=
  let excel_files := filter (λ p, selected p.1 = true) listing in
  match excel_files with
  | [] => No_files
  | _ =>
      let '(all_dataframes, processed_count, error_count) :=
        read_loop excel_files [] 0 0 in
      match all_dataframes with
      | [] => No_valid_data error_count
      | _ =>
          match consolidate all_dataframes with
          | Some df_consolidated =>
              Merged df_consolidated processed_count error_count
          | None => Consolidation_raised
          end
      end
  end.
End Merger.

Arguments No_files {frame}.
Arguments No_valid_data {frame} error_count.
Arguments Merged {frame} df_consolidated processed_count error_count.
Arguments Consolidation_raised {frame}.
Arguments read_loop {frame} excel_files all_dataframes processed_count error_count.
Arguments merge_excel_files {frame} consolidate listing.

(** *** Vocabulary of the statements *)

(** The frames of the directories, in the order of the listing. *)
Definition frames_of (hscode_lookup : gmap string string)
    (hscode_dirs : list (string * gmap string artifact))
  : list (list LongRecord) :=
  omap (λ '(hscode, content),
          process_hscode_directory content hscode
            (commodity_name_of hscode_lookup hscode)) hscode_dirs.

(** The description of the last row of the sheet whose code cell reads
    [hscode]. *)
Definition last_description (rows : list (cell * string)) (hscode : string)
  : option string :=
  (λ found, found.2.2) <$>
    list_find (λ row, strip (py_str row.1) = hscode) (reverse rows).

(** A grid of cells as a DataFrame holds it: every row has the same
    number of cells. *)
Definition rectangular (df : list (list cell)) : Prop :=
  ∃ n, Forall (λ row, length row = n) df.

(** The cell is no integer beyond the range of a float. *)
Definition in_float_range (c : cell) : Prop :=
  match c with
  | CInt z => Z.abs z < 2 ^ 1024 - 2 ^ 970
  | _ => True
  end.

(** A frame in the form the consolidation writes: sorted, and with one
    row per code, country and date. *)
Definition canonical (l : list LongRecord) : Prop :=
  StronglySorted sort_le l ∧ NoDup (key <$> l).

(** *** Samples *)

(** The synthetic artifact with its two title rows as wide as the
    header. *)
Definition rectangular_sheet : list (list cell) :=
  [replicate 5 (CFloat NaN); replicate 5 (CFloat NaN);
   synthetic_header; synthetic_row].

Definition sample_lookup : list (cell * string) :=
  [(CInt 26011100, "Iron ore"%string); (CFloat (Finite 26011200 0), "Pellets"%string)].

(** The consolidation on frames whose columns all hold text. *)
Definition text_consolidate (frames : list (list LongRecord))
  : option (list LongRecord) :=
  Some (sort_values (merge_deduplicate frames)).

Definition sample_listing : list (string * entry) :=
  [("26011200"%string, Directory april_august_dir);
   ("readme.txt"%string, File);
   ("26011100"%string, Directory april_august_dir);
   ("empty"%string, Directory ∅)].

End Consolidate.

(** ** Facts about the acquisition driver *)

Module ScraperFacts.
Import PyStr Scraper.

(** A closed decidable goal, by evaluation. *)
Local Ltac by_computation :=
  match goal with
  | |- ?P => apply (bool_decide_eq_true_1 P); vm_compute; reflexivity
  end.

Lemma os_path_exists_true tree p : os_path_exists tree p = true ↔ p ∈ tree.
Proof. unfold os_path_exists. apply bool_decide_eq_true. Qed.

Lemma os_path_exists_false tree p : os_path_exists tree p = false ↔ p ∉ tree.
Proof. unfold os_path_exists. apply bool_decide_eq_false. Qed.

Lemma future_month_true now y m :
  future_month now y m = true ↔ y = dt_year now ∧ dt_month now < m.
Proof. unfold future_month. rewrite andb_true_iff, Z.eqb_eq, Z.ltb_lt. tauto. Qed.

Lemma future_month_false now y m :
  future_month now y m = false ↔ ¬ (y = dt_year now ∧ dt_month now < m).
Proof. rewrite <- future_month_true. destruct (future_month now y m); intuition congruence. Qed.

Lemma future_month_in_future now y m :
  y ≤ dt_year now → future_month now y m = false ↔ ¬ in_future now y m.
Proof. intros Hy. rewrite future_month_false. unfold in_future. intuition lia. Qed.

Lemma future_month_mono now y m m' :
  m ≤ m' → future_month now y m = true → future_month now y m' = true.
Proof. rewrite !future_month_true. lia. Qed.

Lemma date_ok_spec y m :
  date_ok y m = true ↔ MINYEAR ≤ y ≤ MAXYEAR ∧ 1 ≤ m ≤ 12.
Proof. unfold date_ok. rewrite !andb_true_iff, !Z.leb_le. tauto. Qed.

Lemma strftime_B_is_Some y m :
  MINYEAR ≤ y ≤ MAXYEAR → 1 ≤ m ≤ 12 → is_Some (strftime_B y m).
Proof.
  intros Hy Hm. unfold strftime_B.
  rewrite (proj2 (date_ok_spec y m)) by done.
  apply lookup_lt_is_Some_2. simpl. lia.
Qed.

Lemma strftime_B_None y m :
  strftime_B y m = None → ¬ (MINYEAR ≤ y ≤ MAXYEAR ∧ 1 ≤ m ≤ 12).
Proof.
  intros HN [Hy Hm]. destruct (strftime_B_is_Some y m Hy Hm) as [x Hx]. congruence.
Qed.

Lemma target_path_of_Some dir y m mn :
  strftime_B y m = Some mn →
  target_path_of dir y m = Some (os_path_join dir (target_filename_of mn y)).
Proof. intros H. unfold target_path_of. by rewrite H. Qed.

Lemma datetime_year_bounds now : MINYEAR ≤ dt_year now ≤ MAXYEAR.
Proof. destruct now as [y m d Hv]. simpl. apply date_ok_spec in Hv. tauto. Qed.

Lemma seqZ_S_cons a (k : nat) :
  seqZ a (Z.of_nat (S k)) = a :: seqZ (Z.succ a) (Z.of_nat k).
Proof. rewrite seqZ_cons by lia. f_equal. f_equal. lia. Qed.

(** *** Strings and paths *)

Lemma string_app_cons a (s t : string) : String a s +:+ t = String a (s +:+ t).
Proof. reflexivity. Qed.

Lemma string_app_assoc (s t u : string) : (s +:+ t) +:+ u = s +:+ t +:+ u.
Proof. induction s as [|a s IH]; [done|]. rewrite !string_app_cons. by rewrite IH. Qed.

Lemma string_app_length (s t : string) :
  String.length (s +:+ t) = (String.length s + String.length t)%nat.
Proof. induction s as [|a s IH]; [done|]. rewrite string_app_cons. simpl. by rewrite IH.  Qed.

Lemma list_ascii_app (s t : string) :
  list_ascii_of_string (s +:+ t)
  = list_ascii_of_string s ++ list_ascii_of_string t.
Proof. induction s as [|a s IH]; [done|]. rewrite string_app_cons. simpl. by rewrite IH. Qed.

Lemma string_length_of_list l :
  String.length (string_of_list_ascii l) = length l.
Proof. induction l as [|a l IH]; [done|]. simpl. by rewrite IH. Qed.

Lemma string_length_to_list s :
  length (list_ascii_of_string s) = String.length s.
Proof. induction s as [|a s IH]; [done|]. simpl. by rewrite IH. Qed.

Lemma os_path_join_suffix a b : ∃ pre, os_path_join a b = pre +:+ b.
Proof.
  unfold os_path_join. destruct (startswith b "/"); [by exists ""%string|].
  destruct (String.eqb a "" || endswith a "/"); [by exists a|].
  exists (a +:+ "/")%string. by rewrite string_app_assoc.
Qed.

(** An artifact path ends in "x", the staging directory in "s". *)
Lemma target_path_not_temp env dir y m p :
  target_path_of dir y m = Some p → p ≠ TEMP_DOWNLOAD_DIR env.
Proof.
  unfold target_path_of. destruct (strftime_B y m) as [mn|]; [|done].
  simpl. intros [= <-] Heq.
  destruct (os_path_join_suffix dir (target_filename_of mn y)) as (pre1 & H1).
  destruct (os_path_join_suffix (BASE_DOWNLOAD_DIR env) "temp_downloads")
    as (pre2 & H2).
  unfold TEMP_DOWNLOAD_DIR in Heq. rewrite H1, H2 in Heq.
  unfold target_filename_of in Heq.
  apply (f_equal list_ascii_of_string) in Heq.
  rewrite !list_ascii_app in Heq.
  change (list_ascii_of_string ".xlsx")
    with ([".";"x";"l";"s"] ++ ["x"])%char in Heq.
  change (list_ascii_of_string "temp_downloads")
    with (list_ascii_of_string "temp_download" ++ ["s"])%char in Heq.
  rewrite !app_assoc in Heq.
  apply (f_equal last) in Heq. rewrite !last_snoc in Heq. discriminate Heq.
Qed.

Lemma present_not_temp env t dir y m :
  present (t ∖ {[TEMP_DOWNLOAD_DIR env]}) dir y m ↔ present t dir y m.
Proof.
  split; intros (p & Hp & Hin); exists p; (split; [done|]).
  - set_solver.
  - apply elem_of_difference. split; [done|].
    apply not_elem_of_singleton. by eapply target_path_not_temp.
Qed.

(** *** Directories *)

Lemma tail_head_rev r : r = tail_rev r ++ head_rev r.
Proof.
  induction r as [|c r IH]; [done|]. simpl.
  destruct (is_slash c); [done|]. simpl. by f_equal.
Qed.

Lemma drop_slashes_length r : (length (drop_slashes r) ≤ length r)%nat.
Proof.
  induction r as [|c r IH]; [done|]. simpl.
  destruct (is_slash c); simpl; lia.
Qed.

Lemma os_path_split_length p :
  (String.length (os_path_split p).1 + String.length (os_path_split p).2
   ≤ String.length p)%nat.
Proof.
  unfold os_path_split. cbn [fst snd].
  rewrite !string_length_of_list, !length_rev.
  rewrite <- (string_length_to_list p), <- (length_rev (list_ascii_of_string p)).
  set (r := rev (list_ascii_of_string p)).
  assert (length r = length (tail_rev r) + length (head_rev r))%nat as Hlen.
  { rewrite (tail_head_rev r) at 1. apply length_app. }
  pose proof (drop_slashes_length (head_rev r)).
  destruct (forallb is_slash (head_rev r)); lia.
Qed.

Lemma string_eqb_empty s : String.eqb s "" = false → (0 < String.length s)%nat.
Proof. destruct s; [done|]. simpl. lia. Qed.

(** The head [os.makedirs] makes first is shorter than the name. *)
Lemma makedirs_head_shorter name head tail :
  (if String.eqb (os_path_split name).2 ""
   then os_path_split (os_path_split name).1
   else os_path_split name) = (head, tail) →
  String.eqb tail "" = false →
  (String.length head < String.length name)%nat.
Proof.
  intros Hsplit Htail. apply string_eqb_empty in Htail.
  pose proof (os_path_split_length name) as H1.
  destruct (String.eqb (os_path_split name).2 "").
  - pose proof (os_path_split_length (os_path_split name).1) as H2.
    rewrite Hsplit in H2. cbn [fst snd] in H2. lia.
  - rewrite Hsplit in H1. cbn [fst snd] in H1. lia.
Qed.

Lemma makedirs_names_length fuel name q :
  q ∈ makedirs_names fuel name →
  q = name ∨ (String.length q < String.length name)%nat.
Proof.
  revert name. induction fuel as [|fuel IH]; intros name; cbn [makedirs_names].
  { intros ->%list_elem_of_singleton. by left. }
  rewrite (surjective_pairing (os_path_split name)).
  destruct (if String.eqb (os_path_split name).2 ""
            then os_path_split (os_path_split name).1
            else ((os_path_split name).1, (os_path_split name).2))
    as [head tail] eqn:Hsplit.
  rewrite <- (surjective_pairing (os_path_split name)) in Hsplit.
  destruct (String.eqb head ""); cbn [negb andb];
    [intros ->%list_elem_of_singleton; by left|].
  destruct (String.eqb tail "") eqn:Htail; cbn [negb andb];
    [intros ->%list_elem_of_singleton; by left|].
  intros [->|Hin]%elem_of_cons; [by left|]. right.
  pose proof (makedirs_head_shorter name head tail Hsplit Htail).
  destruct (IH head Hin) as [->|?]; lia.
Qed.

Section DirectoryFacts.
Variable env : Env.

Lemma os_mkdir_spec path w :
  clock (world_of (os_mkdir env path w)) = clock w ∧
  staging (world_of (os_mkdir env path w)) = staging w ∧
  output (world_of (os_mkdir env path w)) = output w ∧
  tree w ⊆ tree (world_of (os_mkdir env path w)) ∧
  (∀ q, q ∈ tree (world_of (os_mkdir env path w)) → q ∈ tree w ∨ q = path) ∧
  (mkdir_error env path (clock w) = None → path ∉ tree w →
   ended_normally (os_mkdir env path w)).
Proof.
  unfold os_mkdir. destruct (os_path_exists (tree w) path) eqn:He.
  { apply os_path_exists_true in He. repeat split; try done. by left. }
  destruct (mkdir_error env path (clock w)) as [e|].
  { repeat split; try done. by left. }
  simpl. repeat split; try done; set_solver.
Qed.

Lemma makedirs_fuel_spec fuel name w :
  let r := makedirs_fuel env fuel name w in
  clock (world_of r) = clock w ∧ staging (world_of r) = staging w ∧
  output (world_of r) = output w ∧ tree w ⊆ tree (world_of r) ∧
  (∀ q, q ∈ tree (world_of r) → q ∈ tree w ∨ q ∈ makedirs_names fuel name).
Proof.
  revert name w. induction fuel as [|fuel IH]; intros name w;
    cbn [makedirs_fuel makedirs_names].
  { destruct (os_mkdir_spec name w) as (? & ? & ? & ? & Hq & _).
    repeat split; try done. intros q Hin. destruct (Hq q Hin) as [?| ->];
      [by left|right; left]. }
  rewrite (surjective_pairing (os_path_split name)).
  destruct (if String.eqb (os_path_split name).2 ""
            then os_path_split (os_path_split name).1
            else ((os_path_split name).1, (os_path_split name).2))
    as [head tail].
  assert (Hmk : ∀ w0 : World,
            clock w0 = clock w → staging w0 = staging w →
            output w0 = output w → tree w ⊆ tree w0 →
            (∀ q, q ∈ tree w0 → q ∈ tree w ∨ q ∈ makedirs_names fuel head) →
            let r := os_mkdir env name w0 in
            clock (world_of r) = clock w ∧ staging (world_of r) = staging w ∧
            output (world_of r) = output w ∧ tree w ⊆ tree (world_of r) ∧
            (∀ q, q ∈ tree (world_of r) →
                  q ∈ tree w ∨ q ∈ name :: makedirs_names fuel head)).
  { intros w0 Hc Hs Ho Ht Hq.
    destruct (os_mkdir_spec name w0) as (Hc' & Hs' & Ho' & Ht' & Hq' & _).
    simpl. split; [congruence|]. split; [congruence|]. split; [congruence|].
    split; [set_solver|]. intros q Hin.
    destruct (Hq' q Hin) as [Hin'| ->]; [|right; left].
    destruct (Hq q Hin') as [?|?]; [by left|right; by right]. }
  destruct (String.eqb head ""); cbn [negb andb].
  { destruct (os_mkdir_spec name w) as (? & ? & ? & ? & Hq & _).
    repeat split; try done. intros q Hin. destruct (Hq q Hin) as [?| ->];
      [by left|right; left]. }
  destruct (String.eqb tail ""); cbn [negb andb].
  { destruct (os_mkdir_spec name w) as (? & ? & ? & ? & Hq & _).
    repeat split; try done. intros q Hin. destruct (Hq q Hin) as [?| ->];
      [by left|right; left]. }
  destruct (os_path_exists (tree w) head); cbn [negb].
  2:{ destruct (IH head w) as (Hc & Hs & Ho & Ht & Hq).
      assert (Hdone : ∀ w0 : World,
                clock w0 = clock w → staging w0 = staging w →
                output w0 = output w → tree w ⊆ tree w0 →
                (∀ q, q ∈ tree w0 → q ∈ tree w ∨ q ∈ makedirs_names fuel head) →
                ∀ q, q ∈ tree w0 →
                     q ∈ tree w ∨ q ∈ name :: makedirs_names fuel head).
      { intros w0 _ _ _ _ Hq0 q Hin. destruct (Hq0 q Hin); [by left|right; by right]. }
      destruct (makedirs_fuel env fuel head w) as [w'|e w']; simpl in *.
      - destruct (String.eqb tail "."); [|by apply Hmk].
        simpl. repeat split; try done. by apply (Hdone w').
      - destruct (String.eqb e "FileExistsError").
        + destruct (String.eqb tail "."); [|by apply Hmk].
          simpl. repeat split; try done. by apply (Hdone w').
        + simpl. repeat split; try done. by apply (Hdone w'). }
  destruct (os_mkdir_spec name w) as (? & ? & ? & ? & Hq & _).
  repeat split; try done. intros q Hin. destruct (Hq q Hin) as [?| ->];
    [by left|right; left].
Qed.

Lemma makedirs_fuel_ok fuel name w :
  (∀ p t, mkdir_error env p t = None) → name ∉ tree w →
  ended_normally (makedirs_fuel env fuel name w).
Proof.
  intros Hok. revert name w. induction fuel as [|fuel IH]; intros name w Hname;
    cbn [makedirs_fuel].
  { by apply os_mkdir_spec. }
  rewrite (surjective_pairing (os_path_split name)).
  destruct (if String.eqb (os_path_split name).2 ""
            then os_path_split (os_path_split name).1
            else ((os_path_split name).1, (os_path_split name).2))
    as [head tail] eqn:Hsplit.
  rewrite <- (surjective_pairing (os_path_split name)) in Hsplit.
  destruct (String.eqb head ""); cbn [negb andb]; [by apply os_mkdir_spec|].
  destruct (String.eqb tail "") eqn:Htail; cbn [negb andb];
    [by apply os_mkdir_spec|].
  destruct (os_path_exists (tree w) head) eqn:He; cbn [negb];
    [by apply os_mkdir_spec|].
  apply os_path_exists_false in He.
  pose proof (IH head w He) as Hn.
  destruct (makedirs_fuel_spec fuel head w) as (Hc & _ & _ & _ & Hq).
  destruct (makedirs_fuel env fuel head w) as [w'|e w']; [|done].
  simpl in *. destruct (String.eqb tail "."); [done|].
  apply os_mkdir_spec; [done|].
  intros Hin. destruct (Hq name Hin) as [?|Hin']; [done|].
  pose proof (makedirs_head_shorter name head tail Hsplit Htail).
  destruct (makedirs_names_length fuel head name Hin') as [->|?]; lia.
Qed.

Lemma ensure_dir_spec p w :
  let r := ensure_dir env p w in
  clock (world_of r) = clock w ∧ staging (world_of r) = staging w ∧
  output (world_of r) = output w ∧ tree w ⊆ tree (world_of r) ∧
  (∀ q, q ∈ tree (world_of r) → q ∈ tree w ∨ q ∈ dirs_of p) ∧
  (p ∈ tree w → r = Normal w) ∧
  ((∀ q t, mkdir_error env q t = None) → ended_normally r).
Proof.
  unfold ensure_dir. destruct (os_path_exists (tree w) p) eqn:He.
  { simpl. repeat split; try done. by left. }
  apply os_path_exists_false in He.
  destruct (makedirs_fuel_spec (String.length p) p w) as (? & ? & ? & ? & ?).
  unfold makedirs, dirs_of. repeat split; try done.
  intros Hok. by apply makedirs_fuel_ok.
Qed.
End DirectoryFacts.

(** *** The completion oracle *)

Section OracleFacts.
Variable tree : gset string.
Variable now : datetime.
Variable dir : string.


Lemma check_months_seqZ y (k : nat) a :
  MINYEAR ≤ y ≤ MAXYEAR → 1 ≤ a → a + Z.of_nat k ≤ 13 →
  match check_months tree now dir y (seqZ a (Z.of_nat k)) with
  | Fallthrough =>
      ∀ m, a ≤ m < a + Z.of_nat k → future_month now y m = false → present tree dir y m
  | ReturnFalse =>
      ∃ m, a ≤ m < a + Z.of_nat k ∧ future_month now y m = false ∧ ¬ present tree dir y m
  | RaiseValueError => False
  end.
Proof.
  intros Hy. revert a. induction k as [|k IH]; intros a Ha Hk.
  - rewrite seqZ_nil by lia. simpl. intros m Hm. lia.
  - rewrite seqZ_S_cons. simpl.
    destruct (future_month now y a) eqn:Hf.
    + intros m Hm Hfm.
      rewrite (future_month_mono now y a m) in Hfm by (done || lia). done.
    + destruct (strftime_B y a) as [mn|] eqn:Hs.
      2:{ apply strftime_B_None in Hs. lia. }
      destruct (os_path_exists tree _) eqn:He.
      * specialize (IH (Z.succ a) ltac:(lia) ltac:(lia)).
        destruct (check_months _ _ _ _ _); [|..|done].
        -- intros m Hm Hfm. destruct (decide (m = a)) as [->|].
           ++ eexists. split; [by apply target_path_of_Some|].
              by apply os_path_exists_true.
           ++ apply IH; [lia|done].
        -- destruct IH as (m & Hm & ?). exists m. split; [lia|done].
      * exists a. split; [lia|]. split; [done|].
        intros (p & Hp & Hin). rewrite (target_path_of_Some _ _ _ _ Hs) in Hp.
        simplify_eq. by apply os_path_exists_false in He.
Qed.

Lemma check_years_seqZ (k : nat) s :
  MINYEAR ≤ s → s + Z.of_nat k - 1 ≤ MAXYEAR →
  ∃ b, check_years tree now dir (seqZ s (Z.of_nat k)) = Some b ∧
    (b = true ↔
     ∀ y m, s ≤ y < s + Z.of_nat k → 1 ≤ m ≤ 12 →
            future_month now y m = false → present tree dir y m).
Proof.
  revert s. induction k as [|k IH]; intros s Hs Hk.
  - rewrite seqZ_nil by lia. exists true. split; [reflexivity|]. split; [|reflexivity]. intros _ y m ?. lia.
  - rewrite seqZ_S_cons. cbn [check_years].
    pose proof (check_months_seqZ s 12 1 ltac:(lia) ltac:(lia) ltac:(lia)) as Hm.
    change (Z.of_nat 12) with 12 in Hm.
    destruct (check_months tree now dir s (seqZ 1 12)); [| |done].
    + destruct (IH (Z.succ s) ltac:(lia) ltac:(lia)) as (b & Hb & Hiff).
      exists b. split; [done|]. rewrite Hiff. split.
      * intros H y m Hy Hmm Hf. destruct (decide (y = s)) as [->|].
        -- apply Hm; [lia|done].
        -- apply H; [lia|done..].
      * intros H y m Hy. apply H. lia.
    + exists false. split; [reflexivity|]. split; [done|].
      intros H. destruct Hm as (m & Hm1 & Hm2 & Hm3). destruct Hm3.
      apply H; [lia|lia|done].
Qed.

Lemma is_hscode_completed_no_dir s e :
  dir ∉ tree → is_hscode_completed tree now dir s e = Some false.
Proof.
  intros H. unfold is_hscode_completed.
  by rewrite (proj2 (os_path_exists_false _ _) H).
Qed.

Lemma is_hscode_completed_spec s e :
  dir ∈ tree → MINYEAR ≤ s → e ≤ MAXYEAR →
  ∃ b, is_hscode_completed tree now dir s e = Some b ∧
    (b = true ↔
     ∀ y m, s ≤ y ≤ e → 1 ≤ m ≤ 12 → future_month now y m = false → present tree dir y m).
Proof.
  intros Hd Hs He. unfold is_hscode_completed.
  rewrite (proj2 (os_path_exists_true _ _) Hd). simpl.
  destruct (decide (s ≤ e)) as [Hse|Hse].
  - destruct (check_years_seqZ (Z.to_nat (e + 1 - s)) s Hs ltac:(lia))
      as (b & Hb & Hiff).
    rewrite Z2Nat.id in Hb by lia. exists b. split; [done|].
    rewrite Hiff. split; intros H y m Hy; apply H; lia.
  - rewrite seqZ_nil by lia. exists true. split; [done|].
    split; [|done]. intros _ y m ?. lia.
Qed.
End OracleFacts.


(** *** The request and download cycle *)


Lemma output_print e w : output (print e w) = output w ++ [e].
Proof. done. Qed.

Lemma max_by_ctime_elem best files :
  max_by_ctime best files ∈ best :: files.
Proof.
  revert best. induction files as [|f files IH]; intros best; simpl.
  - by left.
  - pose proof (IH (if sf_ctime best <? sf_ctime f then f else best)) as H.
    apply elem_of_cons in H as [Heq|Hin].
    + rewrite Heq. destruct (sf_ctime best <? sf_ctime f).
      * right. by left.
      * by left.
    + right. by right.
Qed.

Lemma max_by_ctime_ge_best best files :
  sf_ctime best ≤ sf_ctime (max_by_ctime best files).
Proof.
  revert best. induction files as [|f files IH]; intros best; simpl; [lia|].
  etrans; [|apply IH].
  destruct (sf_ctime best <? sf_ctime f) eqn:Hlt; [|lia].
  apply Z.ltb_lt in Hlt. lia.
Qed.

Lemma max_by_ctime_ge best files g :
  g ∈ best :: files → sf_ctime g ≤ sf_ctime (max_by_ctime best files).
Proof.
  revert best. induction files as [|f files IH]; intros best Hg.
  - apply list_elem_of_singleton in Hg. subst. simpl. lia.
  - apply elem_of_cons in Hg as [->|Hg]; [apply max_by_ctime_ge_best|].
    simpl. apply elem_of_cons in Hg as [->|Hg].
    + etrans; [|apply max_by_ctime_ge_best].
      destruct (sf_ctime best <? sf_ctime f) eqn:Hlt; [lia|].
      apply Z.ltb_ge in Hlt. lia.
    + apply IH. by right.
Qed.

Lemma get_latest_file_Some listing f :
  get_latest_file listing = Some f →
  f ∈ listing ∧ in_progress f = false ∧
  ∀ g, g ∈ listing → in_progress g = false → sf_ctime g ≤ sf_ctime f.
Proof.
  unfold get_latest_file.
  destruct (filter _ listing) as [|f0 files] eqn:Hfl; [done|].
  intros [= <-].
  assert (Hin : max_by_ctime f0 files ∈ filter (λ f, in_progress f = false) listing).
  { rewrite Hfl. apply max_by_ctime_elem. }
  apply list_elem_of_filter in Hin as [Hp Hin]. split; [done|]. split; [done|].
  intros g Hg Hgp. apply max_by_ctime_ge. rewrite <- Hfl.
  by apply list_elem_of_filter.
Qed.

Lemma get_latest_file_None listing :
  get_latest_file listing = None → ∀ g, g ∈ listing → in_progress g = true.
Proof.
  unfold get_latest_file.
  destruct (filter _ listing) as [|f0 files] eqn:Hfl; [|done].
  intros _ g Hg. destruct (in_progress g) eqn:Hp; [done|].
  assert (g ∈ filter (λ f, in_progress f = false) listing) as Hin
    by by apply list_elem_of_filter.
  rewrite Hfl in Hin. by apply not_elem_of_nil in Hin.
Qed.

Section CycleFacts.
Variable env : Env.
Variables (c : string) (m y : Z).

Lemma wait_for_download_frame fuel timeout start w f w1 :
  wait_for_download env c m y fuel timeout start w = (f, w1) →
  tree w1 = tree w ∧ output w1 = output w ∧ clock w ≤ clock w1.
Proof.
  revert w. induction fuel as [|fuel IH]; simpl; intros w H.
  - by simplify_eq.
  - destruct (clock w - start <? seconds timeout); [|by simplify_eq].
    destruct (get_latest_file _) as [latest|].
    + destruct (start <? sf_mtime latest).
      * simplify_eq. simpl. done.
      * apply IH in H. simpl in H. unfold seconds in H. intuition lia.
    + apply IH in H. simpl in H. unfold seconds in H. intuition lia.
Qed.

Lemma wait_for_download_Some fuel timeout start w f w1 :
  wait_for_download env c m y fuel timeout start w = (Some f, w1) →
  f ∈ staging w1 ∧ in_progress f = false ∧ start < sf_mtime f.
Proof.
  revert w. induction fuel as [|fuel IH]; simpl; intros w H; [done|].
  destruct (clock w - start <? seconds timeout); [|done].
  destruct (get_latest_file _) as [latest|] eqn:Hl; [|by eapply IH].
  destruct (start <? sf_mtime latest) eqn:Hlt; [|by eapply IH].
  simplify_eq. apply get_latest_file_Some in Hl as (? & ? & _).
  apply Z.ltb_lt in Hlt. done.
Qed.

Lemma wait_for_download_None fuel timeout start w w1 :
  wait_for_download env c m y fuel timeout start w = (None, w1) →
  seconds timeout ≤ clock w1 - start ∨
  clock w + seconds (Z.of_nat fuel) ≤ clock w1.
Proof.
  revert w. induction fuel as [|fuel IH]; simpl; intros w H.
  - simplify_eq. right. unfold seconds. lia.
  - destruct (clock w - start <? seconds timeout) eqn:Hc.
    2:{ simplify_eq. apply Z.ltb_ge in Hc. by left. }
    assert (wait_for_download env c m y fuel timeout start
              (sleep 1 (list_staging env c m y w)) = (None, w1)) as H'.
    { destruct (get_latest_file _) as [latest|]; [|done].
      by destruct (start <? sf_mtime latest). }
    apply IH in H'. simpl in H'. unfold seconds in *. lia.
Qed.

(** The fuel of [reconcile] never cuts the loop short: once the fuel
    covers the time left, more fuel gives the same result. *)
Lemma wait_for_download_enough_fuel fuel k timeout start w :
  seconds timeout - (clock w - start) < seconds (Z.of_nat fuel) →
  wait_for_download env c m y (fuel + k) timeout start w
  = wait_for_download env c m y fuel timeout start w.
Proof.
  revert w. induction fuel as [|fuel IH]; intros w Hleft.
  - destruct k as [|k]; [done|]. simpl.
    destruct (clock w - start <? seconds timeout) eqn:Hc; [|done].
    apply Z.ltb_lt in Hc. unfold seconds in *. lia.
  - cbn [Nat.add wait_for_download].
    destruct (clock w - start <? seconds timeout); [|done].
    assert (Hnext : wait_for_download env c m y (fuel + k) timeout start
                      (sleep 1 (list_staging env c m y w))
                    = wait_for_download env c m y fuel timeout start
                        (sleep 1 (list_staging env c m y w))).
    { apply IH. simpl. unfold seconds in *. lia. }
    destruct (get_latest_file _) as [latest|]; [|done].
    by destruct (start <? sf_mtime latest).
Qed.

Lemma wait_for_download_never fuel timeout start w :
  never_downloaded env c m y start →
  (wait_for_download env c m y fuel timeout start w).1 = None.
Proof.
  unfold never_downloaded. intros Hnever. revert w. induction fuel as [|fuel IH]; simpl; intros w; [done|].
  destruct (clock w - start <? seconds timeout); [|done].
  destruct (get_latest_file _) as [latest|] eqn:Hl; [|apply IH].
  apply get_latest_file_Some in Hl as (Hin & Hp & _). simpl in Hin.
  apply Hnever in Hin; [|done].
  destruct (start <? sf_mtime latest) eqn:Hlt; [|apply IH].
  apply Z.ltb_lt in Hlt. lia.
Qed.

Lemma wait_for_excel_button_frame w :
  tree (wait_for_excel_button env c m y w).2 = tree w ∧
  staging (wait_for_excel_button env c m y w).2 = staging w ∧
  output (wait_for_excel_button env c m y w).2 = output w.
Proof.
  unfold wait_for_excel_button.
  destruct (excel_button_after _ _ _ _ _) as [d|]; [|done].
  by destruct (d <=? seconds 20).
Qed.

Lemma reconcile_frame mn fn p w :
  ∃ evs, output (reconcile env c m y mn fn p w) = output w ++ evs ∧
    Forall (λ e, is_network e = false) evs ∧
    (tree (reconcile env c m y mn fn p w) = tree w ∨
     tree (reconcile env c m y mn fn p w) = {[p]} ∪ tree w).
Proof.
  unfold reconcile.
  destruct (wait_for_download _ _ _ _ _ _ _ _) as [new_file w1] eqn:Hw.
  apply wait_for_download_frame in Hw as (Ht & Ho & _).
  destruct new_file as [f|].
  - destruct (move_error _ _ _ _) as [e|].
    + exists [Msg_error mn y e]. simpl. rewrite Ho, Ht.
      split; [done|]. split; [by repeat constructor|by left].
    + exists [Msg_saved fn]. simpl. rewrite Ho, Ht.
      split; [done|]. split; [by repeat constructor|by right].
  - exists [Msg_timeout]. simpl. rewrite Ho, Ht.
    split; [done|]. split; [by repeat constructor|by left].
Qed.

Lemma download_cycle_frame mn fn p w :
  ∃ evs,
    output (download_cycle env c m y mn fn p w) =
      output w ++ Msg_downloading mn y :: Net_request c m y :: evs ∧
    Forall (λ e, is_network e = true → e = Net_export c m y) evs ∧
    (tree (download_cycle env c m y mn fn p w) = tree w ∨
     tree (download_cycle env c m y mn fn p w) = {[p]} ∪ tree w).
Proof.
  unfold download_cycle.
  destruct (submit_query _ _ _ _ _) as [e|].
  { exists [Msg_error mn y e]. simpl. rewrite <- !app_assoc.
    split; [done|]. split; [by repeat constructor|by left]. }
  pose proof (wait_for_excel_button_frame
                (print (Net_request c m y) (print (Msg_downloading mn y) w)))
    as (Ht & _ & Ho).
  destruct (wait_for_excel_button _ _ _ _ _) as [found w1]. simpl in Ht, Ho.
  destruct found; simpl.
  - destruct (click_excel _ _ _ _ _) as [e|].
    + exists [Net_export c m y; Msg_error mn y e]. simpl.
      rewrite Ho, Ht, <- !app_assoc.
      split; [done|]. split; [by repeat constructor|by left].
    + destruct (reconcile_frame mn fn p
                  (print (Net_export c m y) (sleep 2 w1))) as (evs & Ho' & Hn & Ht').
      exists (Net_export c m y :: evs). rewrite Ho'. simpl. rewrite Ho, <- !app_assoc.
      split; [done|]. split.
      * constructor; [done|]. eapply Forall_impl; [exact Hn|].
        simpl. intros e -> [=].
      * simpl in Ht'. by rewrite Ht in Ht'.
  - exists [Msg_no_data mn y]. rewrite Ho, Ht, <- !app_assoc.
    split; [done|]. split; [by repeat constructor|by left].
Qed.
Lemma wait_for_excel_button_clock w :
  clock w ≤ clock (wait_for_excel_button env c m y w).2.
Proof.
  unfold wait_for_excel_button.
  destruct (excel_button_after _ _ _ _ _) as [d|]; simpl;
    [destruct (d <=? seconds 20); simpl|]; unfold seconds; lia.
Qed.

Lemma reconcile_steps mn fn p w :
  clock w ≤ clock (reconcile env c m y mn fn p w) ∧
  ∃ evs, output (reconcile env c m y mn fn p w) = output w ++ evs ∧
    Forall (λ e, is_cycle_event e = true) evs.
Proof.
  unfold reconcile.
  destruct (wait_for_download _ _ _ _ _ _ _ _) as [new_file w1] eqn:Hw.
  apply wait_for_download_frame in Hw as (_ & Ho & Hc).
  destruct new_file as [f|].
  - destruct (move_error _ _ _ _) as [e|]; simpl; rewrite Ho;
      (split; [unfold seconds; lia|]); eexists; (split; [done|]);
      by repeat constructor.
  - simpl. rewrite Ho. split; [done|]. eexists. split; [done|].
    by repeat constructor.
Qed.

Lemma download_cycle_steps mn fn p w :
  clock w ≤ clock (download_cycle env c m y mn fn p w) ∧
  ∃ evs, output (download_cycle env c m y mn fn p w) = output w ++ evs ∧
    Forall (λ e, is_cycle_event e = true) evs.
Proof.
  unfold download_cycle.
  destruct (submit_query _ _ _ _ _) as [e|].
  { simpl. split; [lia|]. exists [Msg_downloading mn y; Net_request c m y; Msg_error mn y e].
    rewrite <- !app_assoc. split; [done|]. by repeat constructor. }
  pose proof (wait_for_excel_button_frame
                (print (Net_request c m y) (print (Msg_downloading mn y) w)))
    as (_ & _ & Ho).
  pose proof (wait_for_excel_button_clock
                (print (Net_request c m y) (print (Msg_downloading mn y) w)))
    as Hc.
  destruct (wait_for_excel_button _ _ _ _ _) as [found w1]. simpl in Ho, Hc.
  destruct found; cbn [negb].
  - destruct (click_excel _ _ _ _ _) as [e|].
    + simpl. split; [unfold seconds; lia|].
      exists [Msg_downloading mn y; Net_request c m y; Net_export c m y;
              Msg_error mn y e].
      rewrite Ho, <- !app_assoc. split; [done|]. by repeat constructor.
    + destruct (reconcile_steps mn fn p
                  (print (Net_export c m y) (sleep 2 w1))) as (Hc' & evs & Ho' & Hev).
      simpl in Hc'. split; [unfold seconds in *; lia|].
      exists ([Msg_downloading mn y; Net_request c m y; Net_export c m y] ++ evs).
      rewrite Ho'. simpl. rewrite Ho, <- !app_assoc. split; [done|].
      by repeat (constructor; [done|]).
  - simpl. split; [done|].
    exists [Msg_downloading mn y; Net_request c m y; Msg_no_data mn y].
    rewrite Ho, <- !app_assoc. split; [done|]. by repeat constructor.
Qed.
End CycleFacts.


(** *** The loops of the driver *)

Section LoopFacts.
Variable env : Env.
Variable now : datetime.


Lemma legit_weaken tree0 tree1 (C C' : string → Prop) (R R' : Z → Z → Prop) e :
  tree1 ⊆ tree0 → (∀ c, C c → C' c) → (∀ y m, R y m → R' y m) →
  legit env now tree0 C R e → legit env now tree1 C' R' e.
Proof.
  intros Ht HC HR H Hn. destruct (H Hn) as (c & y & m & p & ? & ? & ? & ? & ? & ?).
  exists c, y, m, p. repeat split; auto; set_solver.
Qed.

Lemma covered_weaken c y m w1 w2 evs1 evs2 :
  tree w1 ⊆ tree w2 → evs1 ⊆ evs2 →
  covered env c y m w1 evs1 → covered env c y m w2 evs2.
Proof.
  intros Ht He (p & Hp & [H|H]); exists p; (split; [done|]); set_solver.
Qed.

Lemma loop_spec_nil c (R : Z → Z → Prop) w :
  (∀ y m, R y m → future_month now y m = true) → loop_spec env now c R w (Normal w).
Proof.
  intros HR. exists w, []. rewrite app_nil_r.
  repeat split; try done.
  intros y m Hr Hf. rewrite (HR y m Hr) in Hf. done.
Qed.

Lemma loop_spec_seq c (R1 R2 R : Z → Z → Prop) w w1 r :
  (∀ y m, R y m ↔ R1 y m ∨ R2 y m) →
  loop_spec env now c R1 w (Normal w1) → loop_spec env now c R2 w1 r → loop_spec env now c R w r.
Proof.
  intros HR (w1' & evs1 & [= <-] & Ho1 & Ht1 & Hl1 & Hc1 & Hn1)
            (w' & evs2 & -> & Ho2 & Ht2 & Hl2 & Hc2 & Hn2).
  exists w', (evs1 ++ evs2). split; [done|].
  split; [by rewrite Ho2, Ho1, app_assoc|].
  split; [set_solver|]. split; [|split].
  - apply Forall_app. split.
    + eapply Forall_impl; [exact Hl1|]. intros e.
      apply legit_weaken; [done|done|]. intros y m. rewrite HR. tauto.
    + eapply Forall_impl; [exact Hl2|]. intros e.
      apply legit_weaken; [done|done|]. intros y m. rewrite HR. tauto.
  - intros y m Hr Hf. apply HR in Hr as [Hr|Hr].
    + apply (covered_weaken c y m w1 w' evs1); [exact Ht2|set_solver|by apply Hc1].
    + apply (covered_weaken c y m w' w' evs2); [done|set_solver|by apply Hc2].
  - intros Hall.
    assert (w1 = w) as -> by (apply Hn1; intros y m Hr; apply Hall, HR; tauto).
    apply Hn2. intros y m Hr. apply Hall, HR. tauto.
Qed.

Lemma month_loop_spec c y (k : nat) a w :
  MINYEAR ≤ y ≤ MAXYEAR → 1 ≤ a → a + Z.of_nat k ≤ 13 →
  loop_spec env now c (λ y' m', y' = y ∧ a ≤ m' < a + Z.of_nat k) w
    (month_loop env now c (hscode_dir_of env c) y (seqZ a (Z.of_nat k)) w).
Proof.
  intros Hy. revert a w. induction k as [|k IH]; intros a w Ha Hk.
  { rewrite seqZ_nil by lia. apply loop_spec_nil. lia. }
  rewrite seqZ_S_cons. cbn [month_loop].
  destruct (future_month now y a) eqn:Hf.
  { apply loop_spec_nil. intros y' m' [-> Hm].
    apply (future_month_mono now y a); [lia|done]. }
  destruct (strftime_B y a) as [mn|] eqn:Hs.
  2:{ apply strftime_B_None in Hs. lia. }
  pose proof (target_path_of_Some (hscode_dir_of env c) _ _ _ Hs) as Hp.
  set (p := os_path_join (hscode_dir_of env c) (target_filename_of mn y)) in *.
  destruct (os_path_exists (tree w) p) eqn:He.
  - apply os_path_exists_true in He.
    eapply (loop_spec_seq c (λ y' m', y' = y ∧ m' = a)
              (λ y' m', y' = y ∧ Z.succ a ≤ m' < Z.succ a + Z.of_nat k));
      [| |apply IH; lia].
    { intros y' m'. lia. }
    exists w, []. rewrite app_nil_r. repeat split; try done.
    intros y' m' [-> ->] _. exists p. split; [done|by left].
  - apply os_path_exists_false in He.
    eapply (loop_spec_seq c (λ y' m', y' = y ∧ m' = a)
              (λ y' m', y' = y ∧ Z.succ a ≤ m' < Z.succ a + Z.of_nat k));
      [| |apply IH; lia].
    { intros y' m'. lia. }
    destruct (download_cycle_frame env c a y mn (target_filename_of mn y) p w)
      as (evs & Ho & Hn & Ht).
    eexists _, _. split; [done|]. split; [exact Ho|].
    split; [destruct Ht as [-> | ->]; set_solver|]. split; [|split].
    + assert (∀ e, net_of c a y e → legit env now (tree w) (eq c)
                (λ y' m', y' = y ∧ m' = a) e) as Hleg.
      { intros e Hnet _. exists c, y, a, p. done. }
      constructor; [done|]. constructor; [apply Hleg; by left|].
      eapply Forall_impl; [exact Hn|]. intros e Himp Hnet.
      apply Hleg; [|done]. right. auto.
    + intros y' m' [-> ->] _. exists p. split; [done|]. right.
      right. left.
    + intros Hall. destruct (Hall y a) as (p' & Hp' & Hin); [done|done|].
      rewrite Hp in Hp'. by simplify_eq.
Qed.

Lemma year_loop_spec c (k : nat) s w :
  MINYEAR ≤ s → s + Z.of_nat k - 1 ≤ MAXYEAR →
  loop_spec env now c (λ y m, s ≤ y < s + Z.of_nat k ∧ 1 ≤ m < 13) w
    (year_loop env now c (hscode_dir_of env c) (seqZ s (Z.of_nat k)) w).
Proof.
  revert s w. induction k as [|k IH]; intros s w Hs Hk.
  { rewrite seqZ_nil by lia. apply loop_spec_nil. lia. }
  rewrite seqZ_S_cons. cbn [year_loop].
  pose proof (month_loop_spec c s 12 1 w ltac:(lia) ltac:(lia) ltac:(lia)) as Hm.
  change (Z.of_nat 12) with 12 in Hm.
  destruct Hm as (w1 & evs & Hr & Hrest). rewrite Hr.
  eapply (loop_spec_seq c (λ y m, y = s ∧ 1 ≤ m < 1 + 12)
            (λ y m, Z.succ s ≤ y < Z.succ s + Z.of_nat k ∧ 1 ≤ m < 13));
    [|exists w1, evs; split; [done|exact Hrest]|apply IH; lia].
  intros y m. simpl. lia.
Qed.


Lemma seqZ_to_nat s n : seqZ s (Z.of_nat (Z.to_nat n)) = seqZ s n.
Proof. unfold seqZ. by rewrite Nat2Z.id. Qed.

Lemma month_loop_steps c dir y months w :
  clock w ≤ clock (world_of (month_loop env now c dir y months w)) ∧
  ∃ evs, output (world_of (month_loop env now c dir y months w))
           = output w ++ evs ∧
    Forall (λ e, is_cycle_event e = true) evs.
Proof.
  revert w. induction months as [|m months IH]; intros w; cbn [month_loop].
  { simpl. split; [done|]. exists []. by rewrite app_nil_r. }
  destruct (future_month now y m).
  { simpl. split; [done|]. exists []. by rewrite app_nil_r. }
  destruct (strftime_B y m) as [mn|].
  2:{ simpl. split; [done|]. exists []. by rewrite app_nil_r. }
  destruct (os_path_exists (tree w) _); [apply IH|].
  destruct (download_cycle_steps env c m y mn (target_filename_of mn y)
              (os_path_join dir (target_filename_of mn y)) w)
    as (Hc & evs & Ho & Hev).
  destruct (IH (download_cycle env c m y mn (target_filename_of mn y)
                  (os_path_join dir (target_filename_of mn y)) w))
    as (Hc' & evs' & Ho' & Hev').
  split; [lia|]. exists (evs ++ evs'). rewrite Ho', Ho, app_assoc.
  split; [done|]. by apply Forall_app.
Qed.

Lemma year_loop_steps c dir years w :
  clock w ≤ clock (world_of (year_loop env now c dir years w)) ∧
  ∃ evs, output (world_of (year_loop env now c dir years w))
           = output w ++ evs ∧
    Forall (λ e, is_cycle_event e = true) evs.
Proof.
  revert w. induction years as [|y years IH]; intros w; cbn [year_loop].
  { simpl. split; [done|]. exists []. by rewrite app_nil_r. }
  destruct (month_loop_steps c dir y (seqZ 1 12) w) as (Hc & evs & Ho & Hev).
  destruct (month_loop env now c dir y (seqZ 1 12) w) as [w1|e w1];
    simpl in Hc, Ho.
  - destruct (IH w1) as (Hc' & evs' & Ho' & Hev').
    split; [lia|]. exists (evs ++ evs'). rewrite Ho', Ho, app_assoc.
    split; [done|]. by apply Forall_app.
  - simpl. split; [done|]. by exists evs.
Qed.

(** The completion gate of the driver never raises, and answers true only
    for a directory that exists and holds every period that is not in the
    future for the clock it reads. *)
Lemma gate_answer t now' dir :
  ∃ b, is_hscode_completed t now' dir start_year (dt_year now) = Some b ∧
    (b = true → dir ∈ t ∧
       ∀ y m, grid now y m → future_month now' y m = false →
              present t dir y m).
Proof.
  pose proof (datetime_year_bounds now) as Hnow.
  destruct (decide (dir ∈ t)) as [Hd|Hd].
  - destruct (is_hscode_completed_spec t now' dir start_year (dt_year now) Hd)
      as (b & Hb & Hiff); [unfold start_year, MINYEAR; lia|lia|].
    exists b. split; [done|]. intros ->. split; [done|].
    intros y m [Hy Hm]. by apply Hiff.
  - exists false. split; [by apply is_hscode_completed_no_dir|done].
Qed.

Lemma process_hscode_spec idx total c w :
  run_spec env now [c] w (process_hscode env now idx total c w).
Proof.
  unfold process_hscode.
  set (w0 := print (Msg_processing idx total c) w).
  destruct (ensure_dir_spec env (hscode_dir_of env c) w0)
    as (Hc1 & Hs1 & Ho1 & Ht1 & _ & Hq1 & Hok1).
  destruct (ensure_dir env (hscode_dir_of env c) w0) as [w1|e w1];
    cbn [world_of] in Hc1, Hs1, Ho1, Ht1.
  2:{ exists [Msg_processing idx total c]. cbn [world_of].
      split; [by rewrite Ho1|]. split; [done|]. split; [simpl in Hc1; lia|].
      split; [repeat constructor; by intros [=]|].
      split; [by intros c' [=]%list_elem_of_singleton|].
      split; [done|]. split; [|exact Hok1].
      intros Hcomp. destruct (Hcomp c) as [Hin _]; [left|].
      by specialize (Hq1 Hin). }
  assert (Hq1' : hscode_dir_of env c ∈ tree w → w1 = w0).
  { intros Hin. specialize (Hq1 Hin). by injection Hq1. }
  assert (Hclock : clock w1 = clock w) by (by rewrite Hc1).
  assert (Ho1' : output w1 = output w ++ [Msg_processing idx total c])
    by (by rewrite Ho1).
  clear Ho1. rename Ho1' into Ho1.
  pose proof (datetime_year_bounds now) as Hnow.
  destruct (gate_answer (tree w1) (datetime_now env (clock w1))
              (hscode_dir_of env c)) as (b & -> & Hb).
  destruct b.
  - destruct (Hb eq_refl) as [Hdir Hall].
    exists [Msg_processing idx total c; Msg_skipping c]. cbn [world_of].
    split; [simpl; by rewrite Ho1, <- app_assoc|].
    split; [done|]. split; [simpl; lia|].
    split; [repeat constructor; by intros [=]|]. split; [|split; [|split]].
    + intros c' Hin. apply elem_of_cons in Hin as [[=]|Hin].
      apply list_elem_of_singleton in Hin as [= ->]. split; [left|].
      exists (clock w1). split; [simpl; lia|]. exact Hall.
    + intros _ c' y m ->%list_elem_of_singleton _ _. left.
      apply list_elem_of_further, list_elem_of_here.
    + intros Hcomp. destruct (Hcomp c) as [Hin _]; [left|].
      rewrite (Hq1' Hin). split; [done|].
      repeat split; try done. by repeat constructor.
    + done.
  - rewrite <- (seqZ_to_nat start_year).
    destruct (year_loop_spec c (Z.to_nat (dt_year now + 1 - start_year))
                start_year w1) as (w2 & evs & Hr & Ho & Ht & Hl & Hc & Hn).
    { unfold start_year, MINYEAR. lia. }
    { unfold start_year, MAXYEAR, MINYEAR in *. lia. }
    destruct (year_loop_steps c (hscode_dir_of env c)
                (seqZ start_year (Z.of_nat (Z.to_nat (dt_year now + 1 - start_year))))
                w1) as (Hck & evs' & Ho' & Hev).
    rewrite Hr in Hck, Ho' |- *. cbn [world_of] in Hck, Ho' |- *.
    rewrite Ho in Ho'. apply app_inv_head in Ho' as <-.
    exists (Msg_processing idx total c :: evs ++ [Msg_blank]).
    split; [simpl; rewrite Ho, Ho1, <- !app_assoc; done|].
    split; [simpl; set_solver|]. split; [simpl; lia|].
    split; [|split; [|split; [|split]]].
    + constructor; [by intros [=]|]. apply Forall_app. split; [|by repeat constructor].
      eapply Forall_impl; [exact Hl|]. intros e'.
      apply legit_weaken; [done|set_solver|]. unfold grid. intros y m. lia.
    + intros c' Hin. exfalso.
      apply elem_of_cons in Hin as [[=]|Hin].
      apply elem_of_app in Hin as [Hin|[=]%list_elem_of_singleton].
      rewrite Forall_forall in Hev. by specialize (Hev _ Hin).
    + intros _ c' y m ->%list_elem_of_singleton [Hy Hm] Hf. right.
      apply (covered_weaken c y m w2 _ evs); [done|set_solver|].
      apply Hc; [lia|done].
    + intros Hcomp. destruct (Hcomp c) as [Hin Hall]; [set_solver|].
      split; [done|].
      assert (w2 = w1) as ->.
      { apply Hn. intros y m Hr' Hf. rewrite (Hq1' Hin). simpl.
        apply Hall; [|done]. unfold grid. lia. }
      rewrite (Hq1' Hin). split; [done|]. split; [done|]. split; [done|].
      assert (evs = []) as ->.
      { rewrite (Hq1' Hin) in Ho. simpl in Ho.
        apply (f_equal length) in Ho. rewrite !length_app in Ho.
        destruct evs; [done|]. simpl in Ho. lia. }
      by repeat constructor.
    + done.
Qed.

Lemma run_spec_nil w : run_spec env now [] w (Normal w).
Proof.
  exists []. cbn [world_of]. rewrite app_nil_r.
  split; [done|]. split; [done|]. split; [done|]. split; [done|].
  split; [by intros c []%elem_of_nil|].
  split; [intros _ c y m Hc; by apply not_elem_of_nil in Hc|].
  split; [|done]. intros _. split; [done|]. repeat split; try done.
Qed.

Lemma present_mono t1 t2 dir y m :
  t1 ⊆ t2 → present t1 dir y m → present t2 dir y m.
Proof. intros Ht (p & Hp & Hin). exists p. split; [done|set_solver]. Qed.

Lemma gate_passed_weaken c w0 w1 w2 w3 :
  clock w0 ≤ clock w1 → clock w2 ≤ clock w3 → tree w2 ⊆ tree w3 →
  gate_passed env now c w1 w2 → gate_passed env now c w0 w3.
Proof.
  intros H01 H23 Ht (t & Hc & Hall). exists t. split; [lia|].
  intros y m Hg Hf. eapply present_mono; [exact Ht|]. by apply Hall.
Qed.

Lemma run_spec_cons c hscodes w w1 r :
  run_spec env now [c] w (Normal w1) → run_spec env now hscodes w1 r →
  run_spec env now (c :: hscodes) w r.
Proof.
  intros (evs1 & Ho1 & Ht1 & Hk1 & Hl1 & Hs1 & Hc1 & Hn1 & Hm1)
         (evs2 & Ho2 & Ht2 & Hk2 & Hl2 & Hs2 & Hc2 & Hn2 & Hm2).
  cbn [world_of] in Ho1, Ht1, Hk1, Hs1, Hc1, Hn1.
  exists (evs1 ++ evs2).
  split; [by rewrite Ho2, Ho1, app_assoc|].
  split; [set_solver|]. split; [lia|]. split; [|split; [|split; [|split]]].
  - apply Forall_app. split.
    + eapply Forall_impl; [exact Hl1|]. intros e.
      apply legit_weaken; [done|set_solver|done].
    + eapply Forall_impl; [exact Hl2|]. intros e.
      apply legit_weaken; [done|set_solver|done].
  - intros c' [Hin|Hin]%elem_of_app.
    + destruct (Hs1 c' Hin) as [->%list_elem_of_singleton Hg]. split; [left|].
      apply (gate_passed_weaken c w w w1); [lia|done|done|done].
    + destruct (Hs2 c' Hin) as [Hc' Hg]. split; [by right|].
      apply (gate_passed_weaken c' w w1 (world_of r)); [done|lia|done|done].
  - intros Hnorm c' y m Hin Hg Hf. apply elem_of_cons in Hin as [->|Hin].
    + destruct (Hc1 I c y m) as [H|H]; [set_solver|done|done|left; set_solver|].
      right. apply (covered_weaken c y m w1 (world_of r) evs1); [done|set_solver|done].
    + destruct (Hc2 Hnorm c' y m) as [H|H]; [done..|left; set_solver|].
      right. apply (covered_weaken c' y m (world_of r) (world_of r) evs2);
        [done|set_solver|done].
  - intros Hcomp.
    destruct Hn1 as (_ & Ht & Hs & Hk & Hq).
    { intros c' ->%list_elem_of_singleton. apply Hcomp. by left. }
    destruct Hn2 as (Hnorm & Ht' & Hs' & Hk' & Hq').
    { intros c' Hin. rewrite Ht. apply Hcomp. by right. }
    split; [done|].
    split; [congruence|]. split; [congruence|]. split; [congruence|].
    by apply Forall_app.
  - done.
Qed.

Lemma run_spec_raised c hscodes w e w1 :
  run_spec env now [c] w (Raised e w1) →
  run_spec env now (c :: hscodes) w (Raised e w1).
Proof.
  intros (evs1 & Ho1 & Ht1 & Hk1 & Hl1 & Hs1 & Hc1 & Hn1 & Hm1).
  exists evs1. split; [done|]. split; [done|]. split; [done|].
  split; [|split; [|split; [|split]]].
  - eapply Forall_impl; [exact Hl1|]. intros e'.
    apply legit_weaken; [done|set_solver|done].
  - intros c' Hin. destruct (Hs1 c' Hin) as [->%list_elem_of_singleton Hg].
    split; [left|done].
  - done.
  - intros Hcomp. destruct Hn1 as [[] _].
    intros c' ->%list_elem_of_singleton. apply Hcomp. by left.
  - done.
Qed.

Lemma hscode_loop_spec idx total hscodes w :
  run_spec env now hscodes w (hscode_loop env now idx total hscodes w).
Proof.
  revert idx w. induction hscodes as [|c hscodes IH]; intros idx w.
  - apply run_spec_nil.
  - cbn [hscode_loop].
    pose proof (process_hscode_spec idx total c w) as Hp.
    destruct (process_hscode env now idx total c w) as [w1|e w1].
    + eapply run_spec_cons; [exact Hp|apply IH].
    + by apply run_spec_raised.
Qed.
End LoopFacts.

(** What the [finally] block adds to the end of the [try]. *)
Lemma finally_spec env r :
  output (world_of (finally env r)) = output (world_of r) ++ [Msg_closing] ∧
  clock (world_of (finally env r)) = clock (world_of r) ∧
  ((tree (world_of (finally env r)) = tree (world_of r) ∧
    staging (world_of (finally env r)) = staging (world_of r)) ∨
   (tree (world_of (finally env r))
      = tree (world_of r) ∖ {[TEMP_DOWNLOAD_DIR env]} ∧
    staging (world_of (finally env r)) = [])) ∧
  (ended_normally (finally env r) → ended_normally r) ∧
  ((∀ t, quit_error env t = None) → ended_normally r →
   ended_normally (finally env r)).
Proof.
  unfold finally. cbn [print clock].
  destruct (quit_error env (clock (world_of r))) as [e|] eqn:Hq.
  { simpl. split; [done|]. split; [done|]. split; [by left|].
    split; [done|]. intros Hok. by rewrite Hok in Hq. }
  unfold rmdir_temp.
  change (tree (print Msg_closing (world_of r))) with (tree (world_of r)).
  change (clock (print Msg_closing (world_of r))) with (clock (world_of r)).
  change (staging (print Msg_closing (world_of r))) with (staging (world_of r)).
  destruct (os_path_exists (tree (world_of r)) (TEMP_DOWNLOAD_DIR env)
            && nil_listing (staging (world_of r))
            && rmdir_allowed env (clock (world_of r)));
    destruct r as [w|e w]; simpl;
    (split; [done|]); (split; [done|]);
    (split; [(by left) || (by right)|]); (split; [tauto|]); tauto.
Qed.

(** What a run does to the world, however it ends; [now] is the date read
    when it starts. *)
Lemma scrape_commodity_data_spec env hscodes w :
  let now := datetime_now env (clock w) in
  let r := scrape_commodity_data env hscodes w in
  ∃ evs, output (world_of r) = output w ++ evs ∧
    clock w ≤ clock (world_of r) ∧
    tree w ∖ {[TEMP_DOWNLOAD_DIR env]} ⊆ tree (world_of r) ∧
    Forall (legit env now (tree w) (λ c, c ∈ hscodes) (grid now)) evs ∧
    (∀ c, Msg_skipping c ∈ evs →
          c ∈ hscodes ∧ gate_passed env now c w (world_of r)) ∧
    (ended_normally r →
     ∀ c y m, c ∈ hscodes → grid now y m → future_month now y m = false →
       Msg_skipping c ∈ evs ∨ covered env c y m (world_of r) evs) ∧
    (complete env now hscodes (tree w) →
     Forall (λ e, is_network e = false) evs ∧
     ((tree (world_of r) = tree w ∧ staging (world_of r) = staging w) ∨
      (tree (world_of r) = tree w ∖ {[TEMP_DOWNLOAD_DIR env]} ∧
       staging (world_of r) = []))) ∧
    (os_cooperates env → ended_normally r).
Proof.
  intros now r. subst r. unfold scrape_commodity_data.
  destruct (setup_error env (clock w)) as [e|] eqn:Hsetup.
  { exists []. cbn [world_of]. rewrite app_nil_r.
    split; [done|]. split; [done|]. split; [set_solver|]. split; [done|].
    split; [by intros c []%elem_of_nil|]. split; [done|].
    split; [intros _; split; [done|by left]|].
    intros (Hs & _ & _). by rewrite Hs in Hsetup. }
  fold now.
  set (w0 := print (Msg_processing_total (length hscodes)) w).
  destruct (hscode_loop_spec env now 1 (length hscodes) hscodes w0)
    as (evs & Ho & Ht & Hk & Hl & Hs & Hc & Hn & Hm).
  set (r := hscode_loop env now 1 (length hscodes) hscodes w0) in *.
  destruct (finally_spec env r) as (Hfo & Hfc & Hft & Hfn & Hfq).
  assert (Hsub : tree (world_of r) ∖ {[TEMP_DOWNLOAD_DIR env]}
                 ⊆ tree (world_of (finally env r))).
  { destruct Hft as [[-> _]|[-> _]]; set_solver. }
  assert (Hpres : ∀ c y m, present (tree (world_of r)) (hscode_dir_of env c) y m →
                    present (tree (world_of (finally env r))) (hscode_dir_of env c) y m).
  { intros c y m Hp. eapply present_mono; [exact Hsub|].
    by apply present_not_temp. }
  exists (Msg_processing_total (length hscodes) :: evs ++ [Msg_closing]).
  split; [rewrite Hfo, Ho; simpl; by rewrite <- !app_assoc|].
  split; [simpl in Hk; lia|].
  split; [simpl in Ht; set_solver|].
  split; [|split; [|split; [|split]]].
  - constructor; [by intros [=]|]. apply Forall_app. split; [done|by repeat constructor].
  - intros c Hin. apply elem_of_cons in Hin as [[=]|Hin].
    apply elem_of_app in Hin as [Hin|[=]%list_elem_of_singleton].
    destruct (Hs c Hin) as [Hc' (t & Htk & Hall)]. split; [done|].
    exists t. split; [simpl in Htk; lia|].
    intros y m Hg Hf. apply Hpres. by apply Hall.
  - intros Hnorm c y m Hin Hg Hf.
    destruct (Hc (Hfn Hnorm) c y m Hin Hg Hf) as [H|(p & Hp & H)].
    + left. set_solver.
    + right. exists p. split; [done|]. destruct H as [H|H].
      * left. apply Hsub. apply elem_of_difference. split; [done|].
        apply not_elem_of_singleton. by eapply target_path_not_temp.
      * right. set_solver.
  - intros Hcomp. destruct (Hn Hcomp) as (_ & Htree & Hst & _ & Hnet).
    simpl in Htree, Hst. split.
    + constructor; [done|]. apply Forall_app. split; [done|by repeat constructor].
    + rewrite <- Htree, <- Hst. exact Hft.
  - intros (_ & Hmk & Hq). apply Hfq; [done|]. by apply Hm.
Qed.


(** *** Consequences for a run *)

Lemma new_events_app w w' evs :
  output w' = output w ++ evs → new_events w (Normal w') = evs.
Proof.
  intros H. unfold new_events. simpl. rewrite H. by rewrite drop_app_length.
Qed.

Lemma new_events_eq w r evs :
  output (world_of r) = output w ++ evs → new_events w r = evs.
Proof.
  intros H. unfold new_events. rewrite H. by rewrite drop_app_length.
Qed.

Lemma filter_network_nil evs :
  Forall (λ e, is_network e = false) evs →
  filter (λ e, is_network e = true) evs = [].
Proof.
  induction 1 as [|e evs He _ IH]; [done|].
  rewrite filter_cons. destruct (decide (is_network e = true)); [congruence|done].
Qed.

Lemma month_loop_step env now c dir y m rest mn w :
  future_month now y m = false → strftime_B y m = Some mn →
  os_path_join dir (target_filename_of mn y) ∉ tree w →
  month_loop env now c dir y (m :: rest) w =
  month_loop env now c dir y rest
    (download_cycle env c m y mn (target_filename_of mn y)
       (os_path_join dir (target_filename_of mn y)) w).
Proof.
  intros Hf Hs Hp. cbn [month_loop]. rewrite Hf, Hs.
  by rewrite (proj2 (os_path_exists_false _ _) Hp).
Qed.

Lemma download_cycle_unfold env c m y mn fn p w :
  download_cycle env c m y mn fn p w =
  let w1 := print (Net_request c m y) (print (Msg_downloading mn y) w) in
  match submit_query env c m y (clock w) with
  | Some e => print (Msg_error mn y e) w1
  | None =>
      let '(found, w2) := wait_for_excel_button env c m y w1 in
      if negb found then print (Msg_no_data mn y) w2
      else
        match click_excel env c m y (clock w2 + seconds 2) with
        | Some e => print (Msg_error mn y e) (print (Net_export c m y) (sleep 2 w2))
        | None => reconcile env c m y mn fn p (print (Net_export c m y) (sleep 2 w2))
        end
  end.
Proof. reflexivity. Qed.

Lemma reconcile_timeout env c m y mn fn p w :
  never_downloaded env c m y (clock w) →
  ∃ w1, reconcile env c m y mn fn p w = print Msg_timeout w1 ∧
        tree w1 = tree w ∧ output w1 = output w ∧
        seconds 60 ≤ clock w1 - clock w.
Proof.
  intros Hnever. unfold reconcile.
  pose proof (wait_for_download_never env c m y (S (Z.to_nat 60)) 60 (clock w) w Hnever) as Hn.
  destruct (wait_for_download _ _ _ _ _ _ _ _) as [new_file w1] eqn:Hw.
  simpl in Hn. subst new_file. exists w1. split; [done|].
  pose proof (wait_for_download_frame _ _ _ _ _ _ _ _ _ _ Hw) as (Ht & Ho & _).
  apply wait_for_download_None in Hw.
  split; [done|]. split; [done|]. unfold seconds in *. lia.
Qed.

Lemma requested_months_elem year evs m :
  m ∈ requested_months year evs ↔ ∃ c, Net_request c m year ∈ evs.
Proof.
  unfold requested_months. rewrite list_elem_of_omap. split.
  - intros (e & Hin & He). destruct e; try done.
    destruct (year0 =? year) eqn:Hy; [|done]. apply Z.eqb_eq in Hy.
    simplify_eq. by eexists.
  - intros (c & Hin). eexists. split; [exact Hin|]. simpl.
    by rewrite Z.eqb_refl.
Qed.


(** *** The claims on the acquisition driver *)

(** C2, as amended.  The period grid the Crawl Driver iterates never
    includes a month strictly in the future relative to the wall clock at
    run start, and the Completion Oracle, asked for the years up to the
    current one, requires no month strictly in the future relative to the
    time of its call.  The current month is part of the grid: for a run at
    now = 2025-03-15 the grid of the year 2025 holds January, February and
    March, never April onward. *)
Theorem future_months_excluded :
  (∀ env hscodes w c m y,
     Net_request c m y ∈ new_events w (scrape_commodity_data env hscodes w) →
     let now := datetime_now env (clock w) in
     start_year ≤ y ≤ dt_year now ∧ 1 ≤ m ≤ 12 ∧ ¬ in_future now y m) ∧
  (∀ tree now dir,
     dir ∈ tree →
     (∀ y m, start_year ≤ y ≤ dt_year now → 1 ≤ m ≤ 12 →
             ¬ in_future now y m → present tree dir y m) →
     is_hscode_completed tree now dir start_year (dt_year now) = Some true) ∧
  requested_months 2025
    (new_events w_empty
       (scrape_commodity_data (env_no_data now_2025_03_15) ["26011100"] w_empty))
    = [1; 2; 3] ∧
  is_hscode_completed tree_q1_2025 now_2025_03_15 "d" 2025 2025 = Some true ∧
  is_hscode_completed (tree_q1_2025 ∖ {["d/March_2025.xlsx"]})
    now_2025_03_15 "d" 2025 2025 = Some false.
Proof.
  split; [|split; [|split; [|split]]].
  - intros env hscodes w c m y Hin now.
    destruct (scrape_commodity_data_spec env hscodes w)
      as (evs & Ho & _ & _ & Hl & _).
    rewrite (new_events_eq _ _ _ Ho) in Hin.
    rewrite Forall_forall in Hl.
    destruct (Hl _ Hin eq_refl) as (c' & y' & m' & p & Hnet & _ & [Hy Hm] & Hf & _).
    assert (m' = m ∧ y' = y) as [-> ->] by (destruct Hnet; by simplify_eq).
    split; [done|]. split; [done|].
    apply future_month_in_future; [|done]. fold now in Hy. lia.
  - intros tree now dir Hd Hall.
    pose proof (datetime_year_bounds now) as Hnow.
    destruct (is_hscode_completed_spec tree now dir start_year (dt_year now) Hd)
      as (b & Hb & Hiff); [unfold start_year, MINYEAR; lia|lia|].
    rewrite Hb. f_equal. apply Hiff. intros y m Hy Hm Hf.
    apply Hall; [done|done|]. apply future_month_in_future; [lia|done].
  - vm_compute. reflexivity.
  - vm_compute. reflexivity.
  - vm_compute. reflexivity.
Qed.

Lemma future_months_excluded_witness :
  (start_year ≤ 2018 ≤ 2018 ∧ 1 ≤ 1 ≤ 12 ∧ ¬ in_future now_2018_01 2018 1) ∧
  is_hscode_completed tree_jan_2018 now_2018_01 "d" start_year 2018 = Some true.
Proof.
  destruct future_months_excluded as (Hdriver & Horacle & _).
  split.
  - apply (Hdriver (env_no_data now_2018_01) ["26011100"] w_empty "26011100" 1 2018).
    by_computation.
  - apply (Horacle tree_jan_2018 now_2018_01 "d"); [by_computation|].
    intros y m Hy Hm Hf. unfold in_future, start_year in *. simpl in *.
    assert (y = 2018) as -> by lia. assert (m = 1) as -> by lia.
    exists "d/January_2018.xlsx". split; [vm_compute; reflexivity|by_computation].
Defined.

(** C2, as stated, fails: at now = 2025-03-15 the driver requests March
    2025 as well. *)
Lemma march_2025_is_requested :
  ¬ only_january_february
      (new_events w_empty
         (scrape_commodity_data (env_no_data now_2025_03_15) ["26011100"] w_empty)).
Proof.
  intros H. destruct (H "26011100" 3) as [H3|H3]; [|lia|lia].
  by_computation.
Qed.

(** C3, as amended.  [is_hscode_completed] returns false, without raising,
    when the directory of the code does not exist.  Otherwise, for a start
    year of at least 1 and an end year not after the current year (the
    driver passes 2018 and the current year), it returns true if and only
    if, for every year in [start_year, end_year] and every month that is
    not in the future, the file <MonthName>_<Year>.xlsx exists in the
    directory; so one missing month that is not in the future yields
    false. *)
Theorem completion_gate_correct tree now dir s e :
  (dir ∉ tree → is_hscode_completed tree now dir s e = Some false) ∧
  (dir ∈ tree → MINYEAR ≤ s → e ≤ dt_year now →
   (∃ b, is_hscode_completed tree now dir s e = Some b ∧
      (b = true ↔
       ∀ y m, s ≤ y ≤ e → 1 ≤ m ≤ 12 → ¬ in_future now y m →
              present tree dir y m)) ∧
   (∀ y m, s ≤ y ≤ e → 1 ≤ m ≤ 12 → ¬ in_future now y m →
           ¬ present tree dir y m →
           is_hscode_completed tree now dir s e = Some false)).
Proof.
  split; [apply is_hscode_completed_no_dir|].
  intros Hd Hs He. pose proof (datetime_year_bounds now) as Hnow.
  destruct (is_hscode_completed_spec tree now dir s e Hd Hs) as (b & Hb & Hiff); [lia|].
  assert (Hiff' : b = true ↔
            ∀ y m, s ≤ y ≤ e → 1 ≤ m ≤ 12 → ¬ in_future now y m →
                   present tree dir y m).
  { rewrite Hiff.
    split; intros H y m Hy Hm Hf; apply H; try done;
      apply future_month_in_future; (lia || done). }
  split; [by exists b|].
  intros y m Hy Hm Hf Hmissing. rewrite Hb. f_equal.
  destruct b; [|done]. destruct Hmissing. by apply Hiff'.
Qed.

Lemma completion_gate_correct_witness :
  is_hscode_completed ∅ now_2018_01 "d" 2018 2018 = Some false ∧
  ∃ b, is_hscode_completed tree_jan_2018 now_2018_01 "d" 2018 2018 = Some b ∧
    (b = true ↔
     ∀ y m, 2018 ≤ y ≤ 2018 → 1 ≤ m ≤ 12 → ¬ in_future now_2018_01 y m →
            present tree_jan_2018 "d" y m).
Proof.
  split.
  - apply (proj1 (completion_gate_correct ∅ now_2018_01 "d" 2018 2018)).
    apply not_elem_of_empty.
  - apply (proj2 (completion_gate_correct tree_jan_2018 now_2018_01 "d" 2018 2018)).
    + by_computation.
    + unfold MINYEAR. lia.
    + simpl. lia.
Defined.

(** C3, as stated, fails when the end year is after the current year: the
    months of the coming year are required although they are in the
    future. *)
Lemma completion_gate_requires_future_year :
  ¬ gate_by_non_future tree_q1_2025 now_2025_03_15 "d" 2025 2026.
Proof.
  intros [_ H].
  assert (Hd : "d" ∈ tree_q1_2025) by by_computation.
  destruct (H Hd) as [_ Hall].
  assert (is_hscode_completed tree_q1_2025 now_2025_03_15 "d" 2025 2026 = Some false)
    as Hfalse by (vm_compute; reflexivity).
  rewrite Hfalse in Hall. enough (Some false = Some true) by done.
  apply Hall. intros y m Hy Hm Hf. unfold in_future in Hf. simpl in Hf.
  assert (y = 2025) as -> by lia.
  assert (m = 1 ∨ m = 2 ∨ m = 3) as [-> | [-> | ->]] by lia.
  - exists "d/January_2025.xlsx". split; [vm_compute; reflexivity|by_computation].
  - exists "d/February_2025.xlsx". split; [vm_compute; reflexivity|by_computation].
  - exists "d/March_2025.xlsx". split; [vm_compute; reflexivity|by_computation].
Qed.


(** C5.  When the form was submitted and the export button does not appear
    within its wait of 20 seconds, the period ends as NoData: the cycle
    prints the no-data line and nothing else, writes no file, prints no
    error, and the month loop goes on with the next period.  A download
    that never shows in the staging directory ends differently, with the
    timeout line, also without a file. *)
Theorem no_data_is_not_a_failure env c m y mn fn p w :
  let w1 := print (Net_request c m y) (print (Msg_downloading mn y) w) in
  submit_query env c m y (clock w) = None →
  (no_export_button env c m y (clock w) →
     download_cycle env c m y mn fn p w
       = print (Msg_no_data mn y) (advance (seconds 20) w1) ∧
     tree (download_cycle env c m y mn fn p w) = tree w ∧
     staging (download_cycle env c m y mn fn p w) = staging w ∧
     new_events w (Normal (download_cycle env c m y mn fn p w))
       = [Msg_downloading mn y; Net_request c m y; Msg_no_data mn y] ∧
     ∀ now dir rest,
       future_month now y m = false → strftime_B y m = Some mn →
       fn = target_filename_of mn y → p = os_path_join dir fn → p ∉ tree w →
       month_loop env now c dir y (m :: rest) w
         = month_loop env now c dir y rest
             (print (Msg_no_data mn y) (advance (seconds 20) w1))) ∧
  (∀ d, excel_button_after env c m y (clock w) = Some d → d ≤ seconds 20 →
     click_excel env c m y (clock w + Z.max 0 d + seconds 2) = None →
     never_downloaded env c m y (clock w + Z.max 0 d + seconds 2) →
     ∃ w2, download_cycle env c m y mn fn p w = print Msg_timeout w2 ∧
       tree w2 = tree w ∧
       new_events w (Normal (download_cycle env c m y mn fn p w))
         = [Msg_downloading mn y; Net_request c m y; Net_export c m y;
            Msg_timeout]).
Proof.
  intros w1 Hsubmit. split.
  - intros Hno.
    assert (Heq : download_cycle env c m y mn fn p w
                  = print (Msg_no_data mn y) (advance (seconds 20) w1)).
    { unfold download_cycle. simpl. rewrite Hsubmit.
      unfold wait_for_excel_button. simpl.
      destruct (excel_button_after env c m y (clock w)) as [d|] eqn:Hd; [|done].
      specialize (Hno d Hd).
      destruct (d <=? seconds 20) eqn:Hle; [|done].
      apply Z.leb_le in Hle. lia. }
    split; [done|]. rewrite Heq. split; [done|]. split; [done|]. split.
    + apply new_events_app. simpl. by rewrite <- !app_assoc.
    + intros now dir rest Hf Hs -> -> Hp.
      rewrite (month_loop_step env now c dir y m rest mn w Hf Hs Hp).
      by rewrite Heq.
  - intros d Hd Hle Hclick Hnever.
    assert (Hw : wait_for_excel_button env c m y w1
                 = (true, advance (Z.max 0 d) w1)).
    { unfold wait_for_excel_button. change (clock w1) with (clock w).
      rewrite Hd. by rewrite (proj2 (Z.leb_le _ _) Hle). }
    rewrite download_cycle_unfold. cbv zeta. fold w1. rewrite Hsubmit, Hw.
    cbn [negb].
    change (clock (advance (Z.max 0 d) w1) + seconds 2)
      with (clock w + Z.max 0 d + seconds 2).
    rewrite Hclick.
    destruct (reconcile_timeout env c m y mn fn p
                (print (Net_export c m y) (sleep 2 (advance (Z.max 0 d) w1))))
      as (w2 & Hrec & Ht & Ho & _); [exact Hnever|].
    exists w2. rewrite Hrec. split; [done|]. split; [done|].
    apply new_events_app. simpl. rewrite Ho. simpl. by rewrite <- !app_assoc.
Qed.

Lemma no_data_is_not_a_failure_witness :
  download_cycle (env_no_data now_2018_01) "26011100" 1 2018 "January"
    "January_2018.xlsx" "data/import/26011100/January_2018.xlsx" w_empty
  = print (Msg_no_data "January" 2018)
      (advance (seconds 20)
         (print (Net_request "26011100" 1 2018)
            (print (Msg_downloading "January" 2018) w_empty))) ∧
  ∃ w2,
    download_cycle (env_stalled now_2018_01) "26011100" 1 2018 "January"
      "January_2018.xlsx" "data/import/26011100/January_2018.xlsx" w_empty
    = print Msg_timeout w2 ∧ tree w2 = tree w_empty.
Proof.
  split.
  - pose proof (no_data_is_not_a_failure (env_no_data now_2018_01) "26011100"
                  1 2018 "January" "January_2018.xlsx"
                  "data/import/26011100/January_2018.xlsx" w_empty eq_refl)
      as [Hno _].
    apply Hno. intros d Hd. discriminate Hd.
  - pose proof (no_data_is_not_a_failure (env_stalled now_2018_01) "26011100"
                  1 2018 "January" "January_2018.xlsx"
                  "data/import/26011100/January_2018.xlsx" w_empty eq_refl)
      as [_ Hstall].
    destruct (Hstall 500) as (w2 & Heq & Ht & _).
    + reflexivity.
    + unfold seconds. lia.
    + reflexivity.
    + intros t l f Hin Hp. simpl in Hin.
      apply list_elem_of_singleton in Hin. subst f. vm_compute in Hp. discriminate Hp.
    + exists w2. split; [exact Heq|exact Ht].
Defined.

(** C8.  An exception raised in the cycle of one period (while the form is
    driven, at the click on the export button, or at the move of the
    download) is caught and printed, and the month loop goes on with the
    next period.  Whatever the remote tool does in the cycles, the run
    ends normally as long as nothing raises outside them (the browser
    starts and closes, the directories of the codes can be made), and
    then every period of the grid, for every code of the catalog, has been
    dealt with: its artifact exists or it was requested, unless the
    completion gate skipped its code while its own reading of the clock
    put the period in the future.  The gate skips a code only when every
    period that is not in the future at its reading has its artifact. *)
Theorem failure_isolation env hscodes w :
  let now := datetime_now env (clock w) in
  let r := scrape_commodity_data env hscodes w in
  (∀ c m y mn fn p w0 e,
     submit_query env c m y (clock w0) = Some e →
     download_cycle env c m y mn fn p w0
       = print (Msg_error mn y e)
           (print (Net_request c m y) (print (Msg_downloading mn y) w0))) ∧
  (∀ c m y mn fn p w0 w2 e,
     submit_query env c m y (clock w0) = None →
     wait_for_excel_button env c m y
       (print (Net_request c m y) (print (Msg_downloading mn y) w0)) = (true, w2) →
     click_excel env c m y (clock w2 + seconds 2) = Some e →
     download_cycle env c m y mn fn p w0
       = print (Msg_error mn y e) (print (Net_export c m y) (sleep 2 w2))) ∧
  (∀ c m y mn fn p w0 f w3 e,
     wait_for_download env c m y (S (Z.to_nat 60)) 60 (clock w0) w0 = (Some f, w3) →
     move_error env (sf_path f) p (clock w3 + seconds 1) = Some e →
     reconcile env c m y mn fn p w0 = print (Msg_error mn y e) (sleep 1 w3)) ∧
  (∀ c dir m y mn rest w0,
     future_month now y m = false → strftime_B y m = Some mn →
     os_path_join dir (target_filename_of mn y) ∉ tree w0 →
     month_loop env now c dir y (m :: rest) w0
       = month_loop env now c dir y rest
           (download_cycle env c m y mn (target_filename_of mn y)
              (os_path_join dir (target_filename_of mn y)) w0)) ∧
  (os_cooperates env → ended_normally r) ∧
  (∀ c, Msg_skipping c ∈ new_events w r →
        c ∈ hscodes ∧ gate_passed env now c w (world_of r)) ∧
  (ended_normally r →
   ∀ c y m, c ∈ hscodes → start_year ≤ y ≤ dt_year now → 1 ≤ m ≤ 12 →
     ¬ in_future now y m →
     covered env c y m (world_of r) (new_events w r) ∨
     (Msg_skipping c ∈ new_events w r ∧
      ∃ t, clock w ≤ t ∧ future_month (datetime_now env t) y m = true)).
Proof.
  intros now r. split; [|split; [|split; [|split]]].
  - intros c m y mn fn p w0 e He. unfold download_cycle. simpl. by rewrite He.
  - intros c m y mn fn p w0 w2 e Hs Hw Hc. unfold download_cycle. simpl.
    rewrite Hs, Hw. simpl. by rewrite Hc.
  - intros c m y mn fn p w0 f w3 e Hw Hm. unfold reconcile.
    rewrite Hw. simpl. by rewrite Hm.
  - intros c dir m y mn rest w0. apply month_loop_step.
  - destruct (scrape_commodity_data_spec env hscodes w)
      as (evs & Ho & _ & _ & _ & Hs & Hc & _ & Hn).
    fold now r in Ho, Hs, Hc, Hn. rewrite (new_events_eq _ _ _ Ho).
    split; [done|]. split; [done|].
    intros Hnorm c y m Hin Hy Hm Hf.
    assert (Hfm : future_month now y m = false).
    { apply future_month_in_future; [lia|done]. }
    destruct (Hc Hnorm c y m Hin (conj Hy Hm) Hfm) as [Hskip|Hcov]; [|by left].
    destruct (Hs c Hskip) as [_ (t & Ht & Hall)].
    destruct (future_month (datetime_now env t) y m) eqn:Hft.
    + right. split; [done|]. exists t. split; [lia|done].
    + left. destruct (Hall y m (conj Hy Hm) Hft) as (p & Hp & Hpin).
      exists p. split; [done|by left].
Qed.

Lemma failure_isolation_witness :
  let env := env_failing now_2018_02 in
  let r := scrape_commodity_data env ["26011100"; "26011200"] w_empty in
  download_cycle env "26011100" 1 2018 "January" "January_2018.xlsx"
    "data/import/26011100/January_2018.xlsx" w_empty
  = print (Msg_error "January" 2018 "WebDriverException")
      (print (Net_request "26011100" 1 2018)
         (print (Msg_downloading "January" 2018) w_empty)) ∧
  ended_normally r ∧
  (covered env "26011200" 2018 2 (world_of r) (new_events w_empty r) ∨
   (Msg_skipping "26011200" ∈ new_events w_empty r ∧
    ∃ t, clock w_empty ≤ t ∧
         future_month (datetime_now env t) 2018 2 = true)).
Proof.
  intros env r.
  destruct (failure_isolation env ["26011100"; "26011200"] w_empty)
    as (Hcaught & _ & _ & _ & Hnorm & _ & Hcover).
  assert (Hos : os_cooperates env) by (by repeat split).
  split; [|split].
  - apply Hcaught. reflexivity.
  - by apply Hnorm.
  - apply Hcover.
    + by apply Hnorm.
    + by_computation.
    + unfold start_year. simpl. lia.
    + lia.
    + unfold in_future. simpl. lia.
Defined.

(** C9.  The file the reconciler relocates does not end in .crdownload or
    .tmp and has a modification time strictly after the timestamp taken
    when the wait began.  After one more second the file is moved: the
    target path exists and the staging directory no longer lists the
    source.  When the wait finds no such file (as it does when no
    finished file newer than the timestamp ever shows) the reconciler
    gives up once 60 seconds have passed (the loop ends by its own
    condition), prints the timeout line and writes no file; the month loop
    then goes on with the next period. *)
Theorem reconciler_relocates_finished_download env c m y mn fn p w :
  (∀ f w1,
     wait_for_download env c m y (S (Z.to_nat 60)) 60 (clock w) w = (Some f, w1) →
     (endswith (sf_path f) ".crdownload" = false ∧
      endswith (sf_path f) ".tmp" = false ∧
      clock w < sf_mtime f ∧ f ∈ staging w1) ∧
     (move_error env (sf_path f) p (clock w1 + seconds 1) = None →
      reconcile env c m y mn fn p w
        = print (Msg_saved fn) (shutil_move (sf_path f) p (sleep 1 w1)) ∧
      clock (reconcile env c m y mn fn p w) = clock w1 + seconds 1 ∧
      p ∈ tree (reconcile env c m y mn fn p w) ∧
      ∀ g, g ∈ staging (reconcile env c m y mn fn p w) →
           sf_path g ≠ sf_path f)) ∧
  (∀ w1,
     wait_for_download env c m y (S (Z.to_nat 60)) 60 (clock w) w = (None, w1) →
     reconcile env c m y mn fn p w = print Msg_timeout w1 ∧
     tree w1 = tree w ∧ seconds 60 ≤ clock w1 - clock w) ∧
  (never_downloaded env c m y (clock w) →
     ∃ w1, reconcile env c m y mn fn p w = print Msg_timeout w1 ∧
       tree w1 = tree w ∧ seconds 60 ≤ clock w1 - clock w) ∧
  (∀ k, wait_for_download env c m y (S (Z.to_nat 60) + k) 60 (clock w) w
        = wait_for_download env c m y (S (Z.to_nat 60)) 60 (clock w) w) ∧
  (∀ now dir rest w0,
     future_month now y m = false → strftime_B y m = Some mn →
     os_path_join dir (target_filename_of mn y) ∉ tree w0 →
     month_loop env now c dir y (m :: rest) w0
       = month_loop env now c dir y rest
           (download_cycle env c m y mn (target_filename_of mn y)
              (os_path_join dir (target_filename_of mn y)) w0)).
Proof.
  split; [|split; [|split; [|split]]].
  - intros f w1 Hw.
    pose proof (wait_for_download_Some _ _ _ _ _ _ _ _ _ _ Hw) as (Hin & Hp & Hlt).
    unfold in_progress in Hp. apply orb_false_iff in Hp as [Hp1 Hp2].
    split; [done|]. intros Hm.
    assert (Heq : reconcile env c m y mn fn p w
                  = print (Msg_saved fn) (shutil_move (sf_path f) p (sleep 1 w1))).
    { unfold reconcile. rewrite Hw. simpl. by rewrite Hm. }
    split; [done|]. rewrite Heq. clear Hw Heq.
    split; [done|]. split.
    + simpl. apply elem_of_union_l. by apply elem_of_singleton.
    + simpl. intros g [Hne _]%list_elem_of_filter. done.
  - intros w1 Hw. split; [unfold reconcile; by rewrite Hw|].
    pose proof (wait_for_download_frame _ _ _ _ _ _ _ _ _ _ Hw) as (Ht & _ & _).
    apply wait_for_download_None in Hw.
    split; [done|]. unfold seconds in *. lia.
  - intros Hnever.
    destruct (reconcile_timeout env c m y mn fn p w Hnever) as (w1 & ? & ? & _ & ?).
    by exists w1.
  - intros k. apply wait_for_download_enough_fuel. unfold seconds. lia.
  - intros now dir rest w0. apply month_loop_step.
Qed.

Lemma reconciler_relocates_finished_download_witness :
  let env := env_saving now_2018_01 in
  let p := "data/import/26011100/January_2018.xlsx"%string in
  let f := mk_sfile "data/import/temp_downloads/report.xlsx" 0 1 in
  (endswith (sf_path f) ".crdownload" = false ∧
   endswith (sf_path f) ".tmp" = false ∧ 0 < sf_mtime f) ∧
  p ∈ tree (reconcile env "26011100" 1 2018 "January" "January_2018.xlsx" p w_empty) ∧
  ∃ w1, reconcile (env_stalled now_2018_01) "26011100" 1 2018 "January"
          "January_2018.xlsx" p w_empty = print Msg_timeout w1 ∧
        tree w1 = tree w_empty.
Proof.
  intros env p f.
  destruct (reconciler_relocates_finished_download env "26011100" 1 2018
              "January" "January_2018.xlsx" p w_empty) as (Hfound & _ & _ & _ & _).
  destruct (Hfound f (list_staging env "26011100" 1 2018 w_empty) eq_refl)
    as ((H1 & H2 & H3 & _) & Hmove).
  split; [done|]. split.
  - apply Hmove. reflexivity.
  - destruct (reconciler_relocates_finished_download (env_stalled now_2018_01)
                "26011100" 1 2018 "January" "January_2018.xlsx" p w_empty)
      as (_ & _ & Hnever & _ & _).
    destruct Hnever as (w1 & Heq & Ht & _).
    + intros t l g Hin Hp. simpl in Hin.
      apply list_elem_of_singleton in Hin. subst g. vm_compute in Hp. discriminate Hp.
    + exists w1. split; [exact Heq|exact Ht].
Defined.

End ScraperFacts.

(** ** Facts about the transformer *)

Module TransformFacts.
Import PyStr Transform.

(** *** Deduplication *)

Lemma drop_duplicates_seen_elem seen l r :
  r ∈ drop_duplicates_seen seen l → r ∈ l ∧ key r ∉ seen.
Proof.
  revert seen. induction l as [|x l IH]; intros seen; simpl.
  - intros H. by apply not_elem_of_nil in H.
  - destruct (bool_decide (key x ∈ seen)) eqn:Hx.
    + intros [? ?]%IH. split; [by right|done].
    + apply bool_decide_eq_false in Hx.
      intros [->|[? Hn]%IH]%elem_of_cons.
      * split; [by left|done].
      * split; [by right|]. intros Hin. apply Hn. by right.
Qed.

Lemma drop_duplicates_seen_NoDup seen l :
  NoDup (key <$> drop_duplicates_seen seen l).
Proof.
  revert seen. induction l as [|x l IH]; intros seen; simpl.
  - constructor.
  - destruct (bool_decide (key x ∈ seen)); [apply IH|].
    rewrite fmap_cons. constructor; [|apply IH].
    intros (r & Hk & Hr)%list_elem_of_fmap.
    apply drop_duplicates_seen_elem in Hr as [_ Hn].
    apply Hn. rewrite <- Hk. by left.
Qed.

Lemma drop_duplicates_seen_snoc_dup seen l r :
  key r ∈ seen ∨ key r ∈ key <$> l →
  drop_duplicates_seen seen (l ++ [r]) = drop_duplicates_seen seen l.
Proof.
  revert seen. induction l as [|x l IH]; intros seen H; simpl.
  - destruct H as [H|H]; [|by apply not_elem_of_nil in H].
    by rewrite bool_decide_eq_true_2.
  - destruct (bool_decide (key x ∈ seen)) eqn:Hx.
    + apply IH. apply bool_decide_eq_true in Hx.
      destruct H as [H|H]; [by left|].
      rewrite fmap_cons in H. apply elem_of_cons in H as [->|H]; [by left|by right].
    + f_equal. apply IH.
      destruct H as [H|H]; [left; by right|].
      rewrite fmap_cons in H. apply elem_of_cons in H as [->|H]; [left; by left|by right].
Qed.

Lemma drop_duplicates_seen_keeps_first seen l1 r l2 :
  key r ∉ seen → key r ∉ key <$> l1 →
  r ∈ drop_duplicates_seen seen (l1 ++ r :: l2).
Proof.
  revert seen. induction l1 as [|x l1 IH]; intros seen Hs Hl; simpl.
  - rewrite bool_decide_eq_false_2 by done. by left.
  - rewrite fmap_cons in Hl. apply not_elem_of_cons in Hl as [Hne Hl].
    destruct (bool_decide (key x ∈ seen)).
    + by apply IH.
    + right. apply IH; [|done]. by apply not_elem_of_cons.
Qed.

Lemma first_with_key_app k l1 l2 :
  first_with_key k (l1 ++ l2) =
  match first_with_key k l1 with
  | Some r => Some r
  | None => first_with_key k l2
  end.
Proof.
  unfold first_with_key. induction l1 as [|x l1 IH]; simpl; [done|].
  by destruct (bool_decide (key x = k)).
Qed.

Lemma first_with_key_None k l :
  first_with_key k l = None ↔ k ∉ key <$> l.
Proof.
  unfold first_with_key. induction l as [|x l IH]; csimpl.
  - split; [intros _; apply not_elem_of_nil|done].
  - rewrite not_elem_of_cons.
    destruct (bool_decide (key x = k)) eqn:Hx.
    + apply bool_decide_eq_true in Hx. split; [done|]. intros [Hne _]. by destruct Hne.
    + apply bool_decide_eq_false in Hx. rewrite IH. split; [|tauto].
      intros ?. split; [congruence|done].
Qed.

Lemma first_with_key_None_inv k l :
  first_with_key k l ≠ None → k ∈ key <$> l.
Proof.
  intros Hne. destruct (decide (k ∈ key <$> l)) as [|Hn]; [done|].
  by apply first_with_key_None in Hn.
Qed.

Lemma first_with_key_Some k l r :
  first_with_key k l = Some r → r ∈ l ∧ key r = k.
Proof.
  unfold first_with_key. intros H. apply find_some in H as [Hin Hk].
  apply bool_decide_eq_true in Hk. split; [|done]. by apply list_elem_of_In.
Qed.

Lemma first_with_key_cons k x l :
  first_with_key k (x :: l) =
  if bool_decide (key x = k) then Some x else first_with_key k l.
Proof. done. Qed.

Lemma first_with_key_drop_duplicates_seen seen k l :
  first_with_key k (drop_duplicates_seen seen l) =
  if bool_decide (k ∈ seen) then None else first_with_key k l.
Proof.
  revert seen. induction l as [|x l IH]; intros seen; cbn [drop_duplicates_seen].
  - by destruct (bool_decide (k ∈ seen)).
  - rewrite (first_with_key_cons k x l).
    destruct (bool_decide (key x ∈ seen)) eqn:Hx.
    + rewrite IH. destruct (bool_decide (k ∈ seen)) eqn:Hk; [done|].
      destruct (bool_decide (key x = k)) eqn:Hxk; [|done].
      apply bool_decide_eq_true in Hxk, Hx. apply bool_decide_eq_false in Hk.
      congruence.
    + rewrite first_with_key_cons, IH.
      apply bool_decide_eq_false in Hx.
      destruct (bool_decide (key x = k)) eqn:Hxk.
      * apply bool_decide_eq_true in Hxk.
        rewrite bool_decide_eq_false_2; [done|congruence].
      * apply bool_decide_eq_false in Hxk.
        destruct (bool_decide (k ∈ seen)) eqn:Hk.
        -- apply bool_decide_eq_true in Hk.
           rewrite bool_decide_eq_true_2; [done|by right].
        -- apply bool_decide_eq_false in Hk.
           rewrite bool_decide_eq_false_2; [done|].
           apply not_elem_of_cons. split; [congruence|done].
Qed.

Lemma first_with_key_drop_duplicates k l :
  first_with_key k (drop_duplicates l) = first_with_key k l.
Proof.
  unfold drop_duplicates. rewrite first_with_key_drop_duplicates_seen.
  rewrite bool_decide_eq_false_2; [done|apply not_elem_of_nil].
Qed.

Lemma drop_duplicates_seen_sublist seen l :
  drop_duplicates_seen seen l `sublist_of` l.
Proof.
  revert seen. induction l as [|r l IH]; intros seen;
    cbn [drop_duplicates_seen]; [done|].
  destruct (bool_decide (key r ∈ seen)).
  - apply sublist_cons, IH.
  - apply sublist_skip, IH.
Qed.

(** *** The sorted listing *)

Lemma elem_of_listdir (d : gmap string artifact) f :
  f ∈ listdir d ↔ is_Some (d !! f).
Proof.
  unfold listdir. rewrite list_elem_of_fmap. split.
  - intros ([f' a] & -> & Hin). apply elem_of_map_to_list in Hin. by exists a.
  - intros [a Ha]. exists (f, a). split; [done|]. by apply elem_of_map_to_list.
Qed.

Lemma elem_of_excel_files (d : gmap string artifact) f :
  f ∈ excel_files_of d ↔ endswith f ".xlsx" = true ∧ is_Some (d !! f).
Proof.
  unfold excel_files_of. rewrite merge_sort_Permutation.
  by rewrite list_elem_of_filter, elem_of_listdir.
Qed.

Lemma excel_files_NoDup (d : gmap string artifact) : NoDup (excel_files_of d).
Proof.
  unfold excel_files_of. rewrite merge_sort_Permutation.
  apply NoDup_filter, NoDup_fst_map_to_list.
Qed.

Lemma excel_files_sorted (d : gmap string artifact) :
  StronglySorted String.le (excel_files_of d).
Proof. apply StronglySorted_merge_sort; apply _. Qed.

Lemma StronglySorted_filter_keeps {A} (R : relation A) (P : A → Prop)
    `{∀ x, Decision (P x)} l :
  StronglySorted R l → StronglySorted R (filter P l).
Proof.
  induction 1 as [|x l Hs IH Hall]; [constructor|].
  rewrite filter_cons. destruct (decide (P x)); [|done].
  constructor; [done|]. rewrite Forall_forall in Hall |- *.
  intros y [_ Hy]%list_elem_of_filter. by apply Hall.
Qed.

Lemma excel_files_delete (d : gmap string artifact) f :
  excel_files_of (delete f d) = filter (λ g, g ≠ f) (excel_files_of d).
Proof.
  apply (StronglySorted_unique String.le).
  - apply excel_files_sorted.
  - apply StronglySorted_filter_keeps, excel_files_sorted.
  - apply NoDup_Permutation.
    + apply excel_files_NoDup.
    + apply NoDup_filter, excel_files_NoDup.
    + intros g. rewrite list_elem_of_filter, !elem_of_excel_files.
      destruct (decide (g = f)) as [->|Hne].
      * rewrite lookup_delete_eq. split; [intros [_ [? ?]]; done|tauto].
      * rewrite lookup_delete_ne by done. tauto.
Qed.

Lemma excel_files_before (d : gmap string artifact) l1 f l2 :
  excel_files_of d = l1 ++ f :: l2 →
  ∀ g, g ∈ l1 → String.le g f ∧ g ≠ f.
Proof.
  intros Heq g Hg.
  pose proof (excel_files_sorted d) as Hs.
  pose proof (excel_files_NoDup d) as Hn.
  rewrite Heq in Hs, Hn. split.
  - eapply (StronglySorted_app_1_elem_of String.le); [exact Hs|done|by left].
  - apply NoDup_app in Hn as (_ & Hn & _). intros ->.
    apply (Hn f Hg). by left.
Qed.


Lemma drop_duplicates_seen_later_dup seen l r l3 :
  key r ∈ seen ∨ key r ∈ key <$> l →
  drop_duplicates_seen seen (l ++ r :: l3) = drop_duplicates_seen seen (l ++ l3).
Proof.
  revert seen. induction l as [|x l IH]; intros seen H; csimpl.
  - destruct H as [H|H]; [|by apply not_elem_of_nil in H].
    by rewrite bool_decide_eq_true_2.
  - csimpl in H. destruct (bool_decide (key x ∈ seen)) eqn:Hx.
    + apply IH. apply bool_decide_eq_true in Hx.
      destruct H as [H|H]; [by left|].
      apply elem_of_cons in H as [->|H]; [by left|by right].
    + f_equal. apply IH.
      destruct H as [H|H]; [left; by right|].
      apply elem_of_cons in H as [->|H]; [left; by left|by right].
Qed.

Lemma monthly_frame_nonempty d hscode cn f recs :
  monthly_frame d hscode cn f = Some recs → recs ≠ [].
Proof.
  unfold monthly_frame. intros H.
  destruct (d !! f) as [file|]; [|done]. simpl in H.
  destruct (process_monthly_file _ _ _ _) as [df|]; [|done]. simpl in H.
  destruct df; simpl in H; [done|]. by simplify_eq.
Qed.

Lemma monthly_frame_delete d hscode cn f g :
  g ≠ f → monthly_frame (delete f d) hscode cn g = monthly_frame d hscode cn g.
Proof. intros Hne. unfold monthly_frame. by rewrite lookup_delete_ne. Qed.

Lemma omap_filter_None {A B} (h : A → option B) (P : A → Prop)
    `{∀ x, Decision (P x)} (l : list A) :
  (∀ x, x ∈ l → ¬ P x → h x = None) → omap h (filter P l) = omap h l.
Proof.
  induction l as [|x l IH]; intros Hn; [done|].
  rewrite filter_cons. destruct (decide (P x)) as [Hp|Hp]; csimpl.
  - rewrite IH; [done|]. intros y Hy. apply Hn. by right.
  - rewrite (Hn x (list_elem_of_here _ _) Hp). apply IH.
    intros y Hy. apply Hn. by right.
Qed.

Lemma omap_ext_in {A B} (h1 h2 : A → option B) (l : list A) :
  (∀ x, x ∈ l → h1 x = h2 x) → omap h1 l = omap h2 l.
Proof.
  induction l as [|x l IH]; intros Hn; [done|]. csimpl.
  rewrite (Hn x (list_elem_of_here _ _)). rewrite IH; [done|].
  intros y Hy. apply Hn. by right.
Qed.

Lemma find_country_from_None idx header :
  ¬ has_country_column header → find_country_from idx header = None.
Proof.
  revert idx. induction header as [|c header IH]; intros idx Hn; [done|].
  cbn [find_country_from].
  destruct (String.eqb (lower (strip (py_str c))) "country") eqn:Heq.
  - apply String.eqb_eq in Heq. destruct Hn. exists c. split; [by left|done].
  - apply IH. intros (c' & Hin & Hc'). apply Hn. exists c'. split; [by right|done].
Qed.

Lemma elem_of_concat {A} (x : A) (ls : list (list A)) :
  x ∈ concat ls ↔ ∃ l, x ∈ l ∧ l ∈ ls.
Proof.
  rewrite list_elem_of_In, in_concat. split.
  - intros (l & Hl & Hx). exists l. by rewrite !list_elem_of_In.
  - intros (l & Hx & Hl). exists l. by rewrite <- !list_elem_of_In.
Qed.

(** The frame of a directory in which some file gives records. *)
Lemma process_hscode_directory_Some d hscode cn :
  omap (monthly_frame d hscode cn) (excel_files_of d) ≠ [] →
  ∃ out, process_hscode_directory d hscode cn = Some out ∧
    NoDup (key <$> out) ∧
    out `sublist_of`
      concat (omap (monthly_frame d hscode cn) (excel_files_of d)) ∧
    ∀ k, first_with_key k out
         = first_with_key k
             (concat (omap (monthly_frame d hscode cn) (excel_files_of d))).
Proof.
  intros Hne. unfold process_hscode_directory.
  destruct (omap _ _) as [|fr frs]; [done|].
  eexists. split; [done|]. split; [apply drop_duplicates_seen_NoDup|].
  split; [apply drop_duplicates_seen_sublist|].
  intros k. apply first_with_key_drop_duplicates.
Qed.

Lemma monthly_frame_listed d hscode cn f recs :
  endswith f ".xlsx" = true → monthly_frame d hscode cn f = Some recs →
  recs ∈ omap (monthly_frame d hscode cn) (excel_files_of d).
Proof.
  intros Hx Hf. apply list_elem_of_omap. exists f. split; [|done].
  apply elem_of_excel_files. split; [done|].
  unfold monthly_frame in Hf. destruct (d !! f); [by eexists|done].
Qed.

(** The record kept for a key is the first one with that key in the file
    of least name that holds the key. *)
Lemma first_holder_is_kept d hscode cn f recs k r :
  endswith f ".xlsx" = true →
  monthly_frame d hscode cn f = Some recs →
  first_with_key k recs = Some r →
  (∀ g recs', g ≠ f → String.le g f → endswith g ".xlsx" = true →
              monthly_frame d hscode cn g = Some recs' → k ∉ key <$> recs') →
  ∃ out, process_hscode_directory d hscode cn = Some out ∧
         first_with_key k out = Some r.
Proof.
  intros Hx Hf Hr Hbefore.
  assert (Hin : f ∈ excel_files_of d).
  { apply elem_of_excel_files. split; [done|].
    unfold monthly_frame in Hf. destruct (d !! f); [by eexists|done]. }
  apply list_elem_of_split in Hin as (l1 & l2 & Hsplit).
  unfold process_hscode_directory. rewrite Hsplit, omap_app. csimpl.
  rewrite Hf.
  set (pre := omap (monthly_frame d hscode cn) l1).
  set (post := omap (monthly_frame d hscode cn) l2).
  assert (Hpre : first_with_key k (concat pre) = None).
  { apply first_with_key_None. intros (x & Hk & Hx')%list_elem_of_fmap.
    apply elem_of_concat in Hx' as (recs' & Hx' & Hrecs').
    apply list_elem_of_omap in Hrecs' as (g & Hg & Hgf).
    destruct (excel_files_before d l1 f l2 Hsplit g Hg) as [Hle Hne].
    apply (Hbefore g recs' Hne Hle); [|done|].
    - apply (elem_of_excel_files d g). rewrite Hsplit.
      apply elem_of_app. by left.
    - apply list_elem_of_fmap. by exists x. }
  destruct (pre ++ recs :: post) as [|x xs] eqn:Hall.
  { by destruct pre. }
  rewrite <- Hall. eexists. split; [done|].
  rewrite first_with_key_drop_duplicates, concat_app, first_with_key_app, Hpre.
  simpl. by rewrite first_with_key_app, Hr.
Qed.

(** *** The claims on the transformer *)

(** C4.  For a grid with two metadata rows, the header row ["S.No.",
    "Country", "Apr-2020", "May-2020", "%Growth"] at row 2 and the data row
    ["1", "Germany", "12.5", "", "3%"], the value columns are Apr-2020 and
    May-2020 (not %Growth), and the transformer emits exactly one record,
    with Country "Germany", Date "Apr-2020" and Value 12.5. *)
Theorem transform_synthetic_artifact meta0 meta1 hscode commodity data_type :
  extract_year_columns synthetic_header
    = [(2%nat, "Apr-2020", "2020", "Apr"); (3%nat, "May-2020", "2020", "May")]%string ∧
  process_monthly_file (Sheet [meta0; meta1; synthetic_header; synthetic_row])
    hscode commodity data_type
    = Some [mk_record hscode commodity (Finite 125 (-1)) "Germany" "Apr-2020"
              data_type].
Proof. split; vm_compute; reflexivity. Qed.

(** C6.  After aggregation at most one record exists per (HSCod, Country,
    Date) key.  A record whose key is met for the first time is kept, and
    every later record with a key already met is dropped, whatever its
    Value.  So it is for the frame of one code: when some .xlsx file of
    the directory gives records, [process_hscode_directory] returns a
    frame, whose keys are all different, whose records are records of
    the files in the order in which they were read, and in which every
    key keeps the first record that has it in that order; and so it is
    for the deduplication of the merger. *)
Theorem deduplication_first_wins :
  (∀ l, NoDup (key <$> drop_duplicates l)) ∧
  (∀ l1 r1 l2 r2 l3,
     key r1 = key r2 →
     drop_duplicates (l1 ++ r1 :: l2 ++ r2 :: l3)
       = drop_duplicates (l1 ++ r1 :: l2 ++ l3)) ∧
  (∀ l1 r1 l2, key r1 ∉ key <$> l1 → r1 ∈ drop_duplicates (l1 ++ r1 :: l2)) ∧
  (∀ d hscode cn,
     let frames := omap (monthly_frame d hscode cn) (excel_files_of d) in
     (frames = [] → process_hscode_directory d hscode cn = None) ∧
     (frames ≠ [] →
      ∃ out, process_hscode_directory d hscode cn = Some out ∧
        NoDup (key <$> out) ∧
        out `sublist_of` concat frames ∧
        ∀ k, first_with_key k out = first_with_key k (concat frames))) ∧
  (∀ frames,
     NoDup (key <$> merge_deduplicate frames) ∧
     merge_deduplicate frames `sublist_of` concat frames ∧
     ∀ k, first_with_key k (merge_deduplicate frames)
          = first_with_key k (concat frames)).
Proof.
  split; [|split; [|split; [|split]]].
  - intros l. apply drop_duplicates_seen_NoDup.
  - intros l1 r1 l2 r2 l3 Hk. unfold drop_duplicates.
    replace (l1 ++ r1 :: l2 ++ r2 :: l3) with ((l1 ++ r1 :: l2) ++ r2 :: l3)
      by (by rewrite <- app_assoc).
    replace (l1 ++ r1 :: l2 ++ l3) with ((l1 ++ r1 :: l2) ++ l3)
      by (by rewrite <- app_assoc).
    apply drop_duplicates_seen_later_dup. right.
    rewrite fmap_app, fmap_cons, <- Hk. apply elem_of_app. right. by left.
  - intros l1 r1 l2 Hn. apply drop_duplicates_seen_keeps_first; [|done].
    apply not_elem_of_nil.
  - intros d hscode cn frames. split.
    + unfold process_hscode_directory. fold frames. by intros ->.
    + apply process_hscode_directory_Some.
  - intros frames. split; [apply drop_duplicates_seen_NoDup|].
    split; [apply drop_duplicates_seen_sublist|].
    intros k. apply first_with_key_drop_duplicates.
Qed.

Lemma deduplication_first_wins_witness :
  drop_duplicates [record_a 1; record_a 2] = drop_duplicates [record_a 1] ∧
  record_a 1 ∈ drop_duplicates [record_a 1; record_a 2] ∧
  ∃ out, process_hscode_directory april_august_dir "26011100" "Iron ore"
         = Some out ∧
    first_with_key ("26011100", "Germany", "Apr-2019")%string out
    = Some (record_a 2).
Proof.
  destruct deduplication_first_wins as (_ & Hdrop & Hkeep & Hdir & _).
  split; [|split].
  - apply (Hdrop [] (record_a 1) [] (record_a 2) []). reflexivity.
  - apply (Hkeep [] (record_a 1) [record_a 2]). apply not_elem_of_nil.
  - destruct (Hdir april_august_dir "26011100"%string "Iron ore"%string)
      as [_ Hsome].
    destruct Hsome as (out & Hout & _ & _ & Hfirst).
    { vm_compute. discriminate. }
    exists out. split; [exact Hout|]. rewrite Hfirst.
    vm_compute. reflexivity.
Defined.

Lemma process_hscode_directory_delete d hscode cn f :
  monthly_frame d hscode cn f = None →
  process_hscode_directory (delete f d) hscode cn
    = process_hscode_directory d hscode cn.
Proof.
  intros Hnone. unfold process_hscode_directory.
  rewrite excel_files_delete.
  rewrite (omap_ext_in (monthly_frame (delete f d) hscode cn)
             (monthly_frame d hscode cn)).
  2:{ intros g [Hne _]%list_elem_of_filter. by apply monthly_frame_delete. }
  rewrite omap_filter_None; [done|].
  intros g _ Hg. destruct (decide (g = f)) as [->|]; done.
Qed.

(** C7.  An artifact in which no header cell has the trimmed, lower-cased
    label "country" yields no records, and so does an artifact with fewer
    than three rows or with no recognized value column; the function
    returns [None] in each case instead of raising.  Such an artifact adds
    nothing to the frame of its code: the directory gives the same result
    as without the file.  The other artifacts are still processed: when
    another .xlsx file of the directory gives records, the directory
    gives a frame, every record of it comes from a file other than the
    rejected one, every key of that other file is in it, and the record
    it keeps for a key is the first one of the file of least name that
    holds the key. *)
Theorem malformed_artifact_rejected file hscode cn data_type :
  ((∀ df header, file = Sheet df → df !! 2%nat = Some header →
                 ¬ has_country_column header) →
     process_monthly_file file hscode cn data_type = None) ∧
  (∀ df, file = Sheet df → (length df < 3)%nat →
     process_monthly_file file hscode cn data_type = None) ∧
  (∀ df header, file = Sheet df → df !! 2%nat = Some header →
     extract_year_columns header = [] →
     process_monthly_file file hscode cn data_type = None) ∧
  (∀ d f, d !! f = Some file →
     process_monthly_file file hscode cn "Export" = None →
     process_hscode_directory d hscode cn
       = process_hscode_directory (delete f d) hscode cn) ∧
  (∀ d f g recs, d !! f = Some file →
     process_monthly_file file hscode cn "Export" = None →
     endswith g ".xlsx" = true →
     monthly_frame d hscode cn g = Some recs →
     ∃ out, process_hscode_directory d hscode cn = Some out ∧
       (∀ r, r ∈ out →
          ∃ g' recs', g' ≠ f ∧ endswith g' ".xlsx" = true ∧
            monthly_frame d hscode cn g' = Some recs' ∧ r ∈ recs') ∧
       (∀ r, r ∈ recs → key r ∈ key <$> out) ∧
       (∀ k r, first_with_key k recs = Some r →
          (∀ g' recs', g' ≠ g → String.le g' g → endswith g' ".xlsx" = true →
             monthly_frame d hscode cn g' = Some recs' → k ∉ key <$> recs') →
          first_with_key k out = Some r)).
Proof.
  split; [|split; [|split; [|split]]].
  - intros Hn. destruct file as [|df]; [done|]. cbn [process_monthly_file].
    destruct (length df <? 3)%nat; [done|].
    destruct (df !! 2%nat) as [header|] eqn:Hh; [|done]. simpl.
    destruct (extract_year_columns header); [done|].
    by rewrite (find_country_from_None 0 header (Hn df header eq_refl Hh)).
  - intros df -> Hlen. cbn [process_monthly_file].
    by rewrite (proj2 (Nat.ltb_lt _ _) Hlen).
  - intros df header -> Hh Hy. cbn [process_monthly_file].
    destruct (length df <? 3)%nat; [done|]. rewrite Hh. simpl. by rewrite Hy.
  - intros d f Hf Hnone. symmetry. apply process_hscode_directory_delete.
    unfold monthly_frame. rewrite Hf. simpl. by rewrite Hnone.
  - intros d f g recs Hf Hnone Hx Hg.
    assert (Hfnone : monthly_frame d hscode cn f = None).
    { unfold monthly_frame. rewrite Hf. simpl. by rewrite Hnone. }
    pose proof (monthly_frame_listed d hscode cn g recs Hx Hg) as Hlisted.
    destruct (process_hscode_directory_Some d hscode cn)
      as (out & Hout & _ & Hsub & Hfirst).
    { intros Hnil. rewrite Hnil in Hlisted. by apply elem_of_nil in Hlisted. }
    exists out. split; [done|]. split; [|split].
    + intros r Hr.
      pose proof (elem_of_sublist _ _ _ Hr Hsub) as Hin.
      apply elem_of_concat in Hin as (recs' & Hin & Hrecs').
      apply list_elem_of_omap in Hrecs' as (g' & Hg' & Hgf).
      apply elem_of_excel_files in Hg' as [Hx' _].
      exists g', recs'. split; [|done]. intros ->. congruence.
    + intros r Hr. apply first_with_key_None_inv. rewrite Hfirst.
      intros Hk. apply first_with_key_None in Hk. apply Hk.
      apply list_elem_of_fmap. exists r. split; [done|].
      apply elem_of_concat. by exists recs.
    + intros k r Hkr Hbefore.
      destruct (first_holder_is_kept d hscode cn g recs k r Hx Hg Hkr Hbefore)
        as (out' & Hout' & Hkept).
      rewrite Hout in Hout'. by injection Hout' as <-.
Qed.

Lemma malformed_artifact_rejected_witness :
  process_monthly_file headless_sheet "26011100" "Iron ore" "Export" = None ∧
  process_monthly_file (Sheet [[]; []]) "26011100" "Iron ore" "Export" = None ∧
  process_monthly_file (Sheet [[]; []; [CStr "Country"; CStr "%Growth"]])
    "26011100" "Iron ore" "Export" = None ∧
  process_hscode_directory with_headless_dir "26011100" "Iron ore"
    = process_hscode_directory (delete "Broken_2018.xlsx" with_headless_dir)
        "26011100" "Iron ore" ∧
  ∃ out, process_hscode_directory with_headless_dir "26011100" "Iron ore"
         = Some out ∧
    ∀ r, r ∈ [record_a 2] → key r ∈ key <$> out.
Proof.
  split; [|split; [|split; [|split]]].
  - apply (proj1 (malformed_artifact_rejected headless_sheet "26011100"
                    "Iron ore" "Export")).
    intros df header [= <-] [= <-] (c & Hin & Hc).
    apply elem_of_cons in Hin as [->|Hin]; [vm_compute in Hc; discriminate Hc|].
    apply list_elem_of_singleton in Hin. subst c. vm_compute in Hc. discriminate Hc.
  - apply (proj1 (proj2 (malformed_artifact_rejected (Sheet [[]; []]) "26011100"
                           "Iron ore" "Export")) [[]; []] eq_refl).
    simpl. lia.
  - apply (proj1 (proj2 (proj2 (malformed_artifact_rejected
                                  (Sheet [[]; []; [CStr "Country"; CStr "%Growth"]])
                                  "26011100" "Iron ore" "Export")))
             _ [CStr "Country"; CStr "%Growth"] eq_refl eq_refl).
    vm_compute. reflexivity.
  - apply (proj1 (proj2 (proj2 (proj2 (malformed_artifact_rejected headless_sheet
                                  "26011100" "Iron ore" "Export"))))).
    + vm_compute. reflexivity.
    + vm_compute. reflexivity.
  - destruct (proj2 (proj2 (proj2 (proj2 (malformed_artifact_rejected
                headless_sheet "26011100" "Iron ore" "Export"))))
                with_headless_dir "Broken_2018.xlsx"%string
                "April_2019.xlsx"%string [record_a 2])
      as (out & Hout & _ & Hkeys & _).
    + vm_compute. reflexivity.
    + vm_compute. reflexivity.
    + vm_compute. reflexivity.
    + vm_compute. reflexivity.
    + exists out. split; [exact Hout|exact Hkeys].
Defined.

(** C10.  The files of a code are processed in the lexicographic order of
    their names: the name list is sorted and holds exactly the .xlsx
    names of the directory.  Hence the record kept for a key is the first
    one with that key in the file of least name that has the key.  With
    April_2019.xlsx and August_2018.xlsx both reporting Germany for
    Apr-2019, the record of April_2019.xlsx is kept, although August 2018
    is the earlier period. *)
Theorem aggregation_follows_filename_order d hscode cn :
  (StronglySorted String.le (excel_files_of d) ∧
   ∀ f, f ∈ excel_files_of d ↔ endswith f ".xlsx" = true ∧ is_Some (d !! f)) ∧
  (∀ f recs k r,
     endswith f ".xlsx" = true →
     monthly_frame d hscode cn f = Some recs →
     first_with_key k recs = Some r →
     (∀ g recs', g ≠ f → String.le g f → endswith g ".xlsx" = true →
                 monthly_frame d hscode cn g = Some recs' → k ∉ key <$> recs') →
     ∃ out, process_hscode_directory d hscode cn = Some out ∧
            first_with_key k out = Some r) ∧
  excel_files_of april_august_dir = ["April_2019.xlsx"; "August_2018.xlsx"]%string ∧
  process_hscode_directory april_august_dir "26011100" "Iron ore"
    = Some [record_a 2].
Proof.
  split; [|split; [|split]].
  - split; [apply excel_files_sorted|apply elem_of_excel_files].
  - apply first_holder_is_kept.
  - vm_compute. reflexivity.
  - vm_compute. reflexivity.
Qed.

Lemma aggregation_follows_filename_order_witness :
  ∃ out, process_hscode_directory april_august_dir "26011100" "Iron ore" = Some out ∧
         first_with_key ("26011100", "Germany", "Apr-2019")%string out
           = Some (record_a 2).
Proof.
  destruct (aggregation_follows_filename_order april_august_dir "26011100" "Iron ore")
    as (_ & Hfirst & _).
  apply (Hfirst "April_2019.xlsx" [record_a 2]).
  - vm_compute. reflexivity.
  - vm_compute. reflexivity.
  - vm_compute. reflexivity.
  - intros g recs' Hne Hle Hx Hg.
    assert (Hin : g ∈ excel_files_of april_august_dir).
    { apply elem_of_excel_files. split; [done|].
      unfold monthly_frame in Hg. destruct (april_august_dir !! g); [by eexists|done]. }
    replace (excel_files_of april_august_dir)
      with ["April_2019.xlsx"; "August_2018.xlsx"]%string in Hin
      by (vm_compute; reflexivity).
    apply elem_of_cons in Hin as [->|Hin]; [done|].
    apply list_elem_of_singleton in Hin. subst g.
    vm_compute in Hle. destruct Hle.
Defined.

End TransformFacts.

(** ** Facts about the catalog and the entry point *)

Module CatalogFacts.
Import PyStr Scraper Catalog ScraperFacts.

(** *** [str.strip] *)

Lemma lstrip_chars_spec l :
  ∃ ws, l = ws ++ lstrip_chars l ∧ Forall (λ c, isspace c = true) ws ∧
        match lstrip_chars l with
        | c :: _ => isspace c = false
        | [] => True
        end.
Proof.
  induction l as [|c l (ws & Heq & Hws & Hhead)]; simpl.
  - by exists [].
  - destruct (isspace c) eqn:Hc.
    + exists (c :: ws). split; [by rewrite Heq at 1|]. split; [by constructor|done].
    + by exists [].
Qed.

Lemma lstrip_chars_fixed l :
  match l with c :: _ => isspace c = false | [] => True end →
  lstrip_chars l = l.
Proof. destruct l as [|c l]; [done|]. simpl. by intros ->. Qed.

Lemma lstrip_chars_idem l : lstrip_chars (lstrip_chars l) = lstrip_chars l.
Proof.
  apply lstrip_chars_fixed. by destruct (lstrip_chars_spec l) as (_ & _ & _ & H).
Qed.

Lemma strip_chars_front l : lstrip_chars (strip_chars l) = strip_chars l.
Proof.
  unfold strip_chars. apply lstrip_chars_fixed.
  destruct (lstrip_chars_spec l) as (ws1 & _ & _ & Hhead).
  destruct (lstrip_chars_spec (rev (lstrip_chars l))) as (ws2 & Heq & _ & _).
  set (a := lstrip_chars l) in *.
  set (b := lstrip_chars (rev a)) in *.
  assert (Ha : a = rev b ++ rev ws2).
  { rewrite <- (rev_involutive a), Heq. by rewrite rev_app_distr. }
  destruct (rev b) as [|c r] eqn:Hb; [done|].
  rewrite Ha in Hhead. exact Hhead.
Qed.

Lemma strip_chars_idem l : strip_chars (strip_chars l) = strip_chars l.
Proof.
  unfold strip_chars at 1. rewrite strip_chars_front.
  unfold strip_chars at 1. rewrite rev_involutive, lstrip_chars_idem.
  reflexivity.
Qed.

Lemma strip_idem s : strip (strip s) = strip s.
Proof.
  unfold strip. by rewrite list_ascii_of_string_of_list_ascii, strip_chars_idem.
Qed.

Lemma Forall_lstrip_chars (P : ascii → Prop) l :
  Forall P l → Forall P (lstrip_chars l).
Proof.
  intros H. destruct (lstrip_chars_spec l) as (ws & Heq & _).
  rewrite Heq in H. by apply Forall_app in H as [_ ?].
Qed.

Lemma Forall_strip_chars (P : ascii → Prop) l :
  Forall P l → Forall P (strip_chars l).
Proof.
  intros H. unfold strip_chars.
  apply Forall_rev, Forall_lstrip_chars, Forall_rev, Forall_lstrip_chars, H.
Qed.

(** *** The lines of the catalog *)

Lemma list_ascii_of_string_app s t :
  list_ascii_of_string (s +:+ t) = list_ascii_of_string s ++ list_ascii_of_string t.
Proof. induction s as [|c s IH]; simpl; [done|]. by rewrite IH. Qed.

Lemma text_lines_no_break l line :
  line ∈ text_lines l → Forall (λ c, no_break c = true) line.
Proof.
  revert line. induction l as [|c l IH]; intros line; simpl.
  - intros H. by apply not_elem_of_nil in H.
  - destruct (is_lf c) eqn:Hlf.
    { intros [->|H]%elem_of_cons; [constructor|by apply IH]. }
    destruct (is_cr c) eqn:Hcr.
    { destruct l as [|c' l'].
      - intros [->|H]%elem_of_cons; [constructor|by apply IH].
      - destruct (is_lf c'); [apply IH|].
        intros [->|H]%elem_of_cons; [constructor|by apply IH]. }
    assert (Hc : no_break c = true) by (unfold no_break; by rewrite Hlf, Hcr).
    destruct (text_lines l) as [|cur rest].
    + intros ->%list_elem_of_singleton. by repeat constructor.
    + intros [->|H]%elem_of_cons.
      * constructor; [done|]. apply IH. by left.
      * apply IH. by right.
Qed.

Lemma text_lines_line line rest :
  Forall (λ c, no_break c = true) line →
  text_lines (line ++ "010"%char :: rest) = line :: text_lines rest.
Proof.
  induction 1 as [|c line Hc _ IH]; [done|].
  simpl. unfold no_break in Hc. apply andb_true_iff in Hc as [Hlf Hcr].
  apply negb_true_iff in Hlf, Hcr. rewrite Hlf, Hcr. by rewrite IH.
Qed.

Lemma text_lines_unlines lines :
  Forall (λ line, Forall (λ c, no_break c = true) (list_ascii_of_string line)) lines →
  text_lines (list_ascii_of_string (unlines lines)) = list_ascii_of_string <$> lines.
Proof.
  induction 1 as [|line lines Hline _ IH]; [done|].
  simpl. rewrite list_ascii_of_string_app. simpl.
  by rewrite text_lines_line, IH.
Qed.

Lemma code_of_line_Some line code :
  code_of_line line = Some code →
  code = strip (string_of_list_ascii line) ∧ code ≠ ""%string ∧
  startswith code "#" = false.
Proof.
  unfold code_of_line.
  destruct (String.eqb _ "") eqn:He; [done|].
  destruct (startswith _ "#") eqn:Hs; [done|]. simpl.
  intros [= <-]. split; [done|]. split; [|done]. by apply String.eqb_neq.
Qed.

Lemma code_of_line_None line :
  code_of_line line = None ↔
  strip (string_of_list_ascii line) = ""%string ∨
  startswith (strip (string_of_list_ascii line)) "#" = true.
Proof.
  unfold code_of_line.
  destruct (String.eqb _ "") eqn:He.
  { apply String.eqb_eq in He. simpl. split; [by left|done]. }
  apply String.eqb_neq in He.
  destruct (startswith _ "#") eqn:Hs; simpl.
  - split; [by right|done].
  - split; [done|]. by intros [?|?].
Qed.

Lemma code_of_line_normal code :
  code ≠ ""%string → strip code = code → startswith code "#" = false →
  code_of_line (list_ascii_of_string code) = Some code.
Proof.
  intros Hne Hs Hh. unfold code_of_line.
  rewrite string_of_list_ascii_of_string, Hs, Hh.
  by rewrite (proj2 (String.eqb_neq _ _) Hne).
Qed.


Lemma read_unlines lines :
  Forall (λ line, Forall (λ c, no_break c = true) (list_ascii_of_string line)) lines →
  (read_hscodes_from_file (Some (unlines lines))).1
  = omap (λ line, code_of_line (list_ascii_of_string line)) lines.
Proof.
  intros H. simpl. rewrite (text_lines_unlines lines H).
  induction lines as [|line lines IH]; [done|]. csimpl.
  apply Forall_cons in H as [_ H]. by rewrite (IH H).
Qed.

(** *** Properties of the catalog reader and of the entry point *)

(** X1.  Every code that [read_hscodes_from_file] returns is not empty,
    has no whitespace at either end (stripping it again changes nothing),
    does not start with '#', and holds no line terminator. *)
Theorem loaded_codes_are_normalized file code :
  code ∈ (read_hscodes_from_file file).1 →
  code ≠ ""%string ∧ strip code = code ∧ startswith code "#" = false ∧
  Forall (λ c, no_break c = true) (list_ascii_of_string code).
Proof.
  destruct file as [content|]; simpl.
  2:{ intros H. by apply not_elem_of_nil in H. }
  intros (line & Hline & Hcode)%list_elem_of_omap.
  apply code_of_line_Some in Hcode as (-> & Hne & Hs).
  split; [done|]. split; [apply strip_idem|]. split; [done|].
  unfold strip. rewrite !list_ascii_of_string_of_list_ascii.
  apply Forall_strip_chars. by apply (text_lines_no_break _ _ Hline).
Qed.

Lemma loaded_codes_are_normalized_witness :
  ("26011200" ≠ "" ∧ strip "26011200" = "26011200" ∧
   startswith "26011200" "#" = false ∧
   Forall (λ c, no_break c = true) (list_ascii_of_string "26011200"))%string.
Proof.
  apply (loaded_codes_are_normalized (Some sample_catalog)).
  vm_compute. apply list_elem_of_further, list_elem_of_here.
Defined.

(** X2.  Round trip: a file that lists the loaded codes, one per line, is
    read back as exactly those codes, in the same order. *)
Theorem catalog_round_trip file :
  read_hscodes_from_file (Some (unlines (read_hscodes_from_file file).1))
  = ((read_hscodes_from_file file).1,
     Loaded (length (read_hscodes_from_file file).1)).
Proof.
  set (codes := (read_hscodes_from_file file).1).
  assert (Hnorm : Forall (λ code, code_of_line (list_ascii_of_string code) = Some code
                          ∧ Forall (λ c, no_break c = true) (list_ascii_of_string code))
                    codes).
  { apply Forall_forall. intros code Hin.
    destruct (loaded_codes_are_normalized file code Hin) as (? & ? & ? & ?).
    split; [by apply code_of_line_normal|done]. }
  assert (Heq : (read_hscodes_from_file (Some (unlines codes))).1 = codes).
  { rewrite read_unlines; [|eapply Forall_impl; [exact Hnorm|]; by intros ? [_ ?]].
    clear -Hnorm. induction Hnorm as [|code codes [Hc _] _ IH]; [done|].
    csimpl. by rewrite Hc, IH. }
  change (read_hscodes_from_file (Some (unlines codes)))
    with ((read_hscodes_from_file (Some (unlines codes))).1,
          Loaded (length (read_hscodes_from_file (Some (unlines codes))).1)).
  by rewrite Heq.
Qed.

(** X3.  In a catalog of lines, a line that is blank or whose first
    character after the leading whitespace is '#' changes nothing; any
    other line contributes its stripped text, between the codes of the
    lines before it and those of the lines after it. *)
Theorem catalog_lines_kept_or_ignored before line after :
  Forall (λ l, Forall (λ c, no_break c = true) (list_ascii_of_string l))
    (before ++ line :: after) →
  (strip line = ""%string ∨ startswith (strip line) "#" = true →
   (read_hscodes_from_file (Some (unlines (before ++ line :: after)))).1
   = (read_hscodes_from_file (Some (unlines (before ++ after)))).1) ∧
  (strip line ≠ ""%string → startswith (strip line) "#" = false →
   (read_hscodes_from_file (Some (unlines (before ++ line :: after)))).1
   = (read_hscodes_from_file (Some (unlines before))).1
     ++ strip line :: (read_hscodes_from_file (Some (unlines after))).1).
Proof.
  intros Hall.
  pose proof Hall as Hall'. apply Forall_app in Hall' as [Hb Hla].
  apply Forall_cons in Hla as [_ Ha].
  split.
  - intros Hblank.
    rewrite (read_unlines _ Hall).
    rewrite (read_unlines (before ++ after)) by (apply Forall_app; by split).
    rewrite !omap_app. csimpl.
    assert (code_of_line (list_ascii_of_string line) = None) as ->; [|done].
    apply code_of_line_None. by rewrite string_of_list_ascii_of_string.
  - intros Hne Hs.
    rewrite (read_unlines _ Hall), (read_unlines before Hb), (read_unlines after Ha).
    rewrite omap_app. csimpl.
    assert (code_of_line (list_ascii_of_string line) = Some (strip line)) as ->; [|done].
    unfold code_of_line. rewrite string_of_list_ascii_of_string, Hs.
    by rewrite (proj2 (String.eqb_neq _ _) Hne).
Qed.

Lemma catalog_lines_kept_or_ignored_witness :
  (read_hscodes_from_file (Some (unlines ["26011100"; "  # note"; "26011200"]))).1
  = (read_hscodes_from_file (Some (unlines ["26011100"; "26011200"]))).1 ∧
  (read_hscodes_from_file (Some (unlines ["26011100"; " 26011200 "; "26011300"]))).1
  = (read_hscodes_from_file (Some (unlines ["26011100"]))).1
    ++ strip " 26011200 " :: (read_hscodes_from_file (Some (unlines ["26011300"]))).1.
Proof.
  split.
  - apply (proj1 (catalog_lines_kept_or_ignored ["26011100"%string] "  # note"
                    ["26011200"%string] ltac:(by vm_compute; repeat constructor))).
    right. reflexivity.
  - apply (proj2 (catalog_lines_kept_or_ignored ["26011100"%string] " 26011200 "
                    ["26011300"%string] ltac:(by vm_compute; repeat constructor))).
    + discriminate.
    + reflexivity.
Defined.



End CatalogFacts.

(** ** Facts about the staging directory *)

Module StagingFacts.
Import PyStr Scraper Catalog ScraperFacts.

Lemma max_by_ctime_first pre best mid files :
  Forall (λ g, sf_ctime g < sf_ctime best) pre →
  Forall (λ g, sf_ctime g ≤ sf_ctime best) mid →
  ∃ l1 l2, pre ++ best :: mid ++ files = l1 ++ max_by_ctime best files :: l2 ∧
    Forall (λ g, sf_ctime g < sf_ctime (max_by_ctime best files)) l1 ∧
    Forall (λ g, sf_ctime g ≤ sf_ctime (max_by_ctime best files)) l2.
Proof.
  revert pre best mid.
  induction files as [|f rest IH]; intros pre best mid Hpre Hmid; simpl.
  - exists pre, mid. by rewrite app_nil_r.
  - destruct (Z.ltb_spec (sf_ctime best) (sf_ctime f)) as [Hlt|Hge].
    + destruct (IH (pre ++ best :: mid) f []) as (l1 & l2 & Heq & H1 & H2).
      * apply Forall_app. split; [|constructor].
        -- eapply Forall_impl; [exact Hpre|]. simpl. lia.
        -- done.
        -- eapply Forall_impl; [exact Hmid|]. simpl. lia.
      * constructor.
      * exists l1, l2. split; [|done]. rewrite <- Heq. simpl.
        by rewrite <- app_assoc.
    + destruct (IH pre best (mid ++ [f])) as (l1 & l2 & Heq & H1 & H2).
      * done.
      * apply Forall_app. split; [done|]. by repeat constructor.
      * exists l1, l2. split; [|done]. rewrite <- Heq.
        by rewrite <- (app_assoc mid [f] rest).
Qed.

(** X5.  [get_latest_file] returns nothing exactly when every listed file
    is a partial download; otherwise it returns the finished file of
    greatest creation time, and among several of that time the one listed
    first. *)
Theorem latest_file_is_first_newest_finished listing :
  (get_latest_file listing = None ↔
   ∀ g, g ∈ listing → in_progress g = true) ∧
  (∀ f, get_latest_file listing = Some f →
     ∃ l1 l2,
       filter (λ g, in_progress g = false) listing = l1 ++ f :: l2 ∧
       Forall (λ g, sf_ctime g < sf_ctime f) l1 ∧
       Forall (λ g, sf_ctime g ≤ sf_ctime f) l2).
Proof.
  split.
  - split; [apply get_latest_file_None|].
    intros Hall. unfold get_latest_file.
    destruct (filter _ listing) as [|f files] eqn:Hf; [done|].
    assert (f ∈ filter (λ g, in_progress g = false) listing) as Hin
      by (rewrite Hf; left).
    apply list_elem_of_filter in Hin as [Hfin Hin].
    rewrite (Hall _ Hin) in Hfin. done.
  - intros f. unfold get_latest_file.
    destruct (filter _ listing) as [|f0 files]; [done|].
    intros [= <-].
    destruct (max_by_ctime_first [] f0 [] files) as (l1 & l2 & Heq & H1 & H2);
      [constructor..|].
    exists l1, l2. by rewrite <- Heq.
Qed.

Lemma latest_file_is_first_newest_finished_witness :
  ∃ l1 l2,
    filter (λ g, in_progress g = false)
      [mk_sfile "a.tmp" 9 9; mk_sfile "b.xlsx" 5 1; mk_sfile "c.xlsx" 5 2]
    = l1 ++ mk_sfile "b.xlsx" 5 1 :: l2 ∧
    Forall (λ g, sf_ctime g < 5) l1 ∧ Forall (λ g, sf_ctime g ≤ 5) l2.
Proof.
  exact (proj2 (latest_file_is_first_newest_finished
                  [mk_sfile "a.tmp" 9 9; mk_sfile "b.xlsx" 5 1;
                   mk_sfile "c.xlsx" 5 2])
           (mk_sfile "b.xlsx" 5 1) eq_refl).
Defined.

Section Wait.
Variable env : Env.
Variables (c : string) (m y : Z).

Lemma wait_for_download_Some_time fuel timeout start w f w1 :
  wait_for_download env c m y fuel timeout start w = (Some f, w1) →
  get_latest_file (staging w1) = Some f ∧
  clock w ≤ clock w1 ∧ clock w1 - start < seconds timeout.
Proof.
  revert w. induction fuel as [|fuel IH]; simpl; intros w H; [done|].
  destruct (Z.ltb_spec (clock w - start) (seconds timeout)) as [Hlt|]; [|done].
  assert (wait_for_download env c m y fuel timeout start
            (sleep 1 (list_staging env c m y w)) = (Some f, w1) →
          get_latest_file (staging w1) = Some f ∧
          clock w ≤ clock w1 ∧ clock w1 - start < seconds timeout) as Hrec.
  { intros H'. apply IH in H' as (? & ? & ?). simpl in *.
    unfold seconds in *. split; [done|]. lia. }
  destruct (get_latest_file (staging_update env c m y (clock w) (staging w)))
    as [latest|] eqn:Hl; [|by apply Hrec].
  destruct (start <? sf_mtime latest); [|by apply Hrec].
  simplify_eq. simpl. split; [done|]. lia.
Qed.

Lemma wait_for_download_None_time fuel timeout start w w1 k :
  clock w - start = seconds k → 0 ≤ k ≤ timeout →
  timeout - k < Z.of_nat fuel →
  wait_for_download env c m y fuel timeout start w = (None, w1) →
  clock w1 - start = seconds timeout.
Proof.
  revert w k. induction fuel as [|fuel IH]; intros w k Hk Hb Hfuel; simpl;
    [lia|].
  destruct (Z.ltb_spec (clock w - start) (seconds timeout)) as [Hlt|Hge].
  - assert (k < timeout) by (unfold seconds in *; lia).
    assert (clock (sleep 1 (list_staging env c m y w)) - start
            = seconds (k + 1)) as Hk'
      by (simpl; unfold seconds in *; lia).
    destruct (get_latest_file _) as [latest|].
    + destruct (start <? sf_mtime latest); [done|].
      apply (IH _ (k + 1)); [done|lia|lia].
    + apply (IH _ (k + 1)); [done|lia|lia].
  - intros [= <-]. unfold seconds in *. lia.
Qed.

Lemma wait_for_download_stale fuel timeout start w :
  stale_newest env c m y start →
  (wait_for_download env c m y fuel timeout start w).1 = None.
Proof.
  intros Hstale. revert w. induction fuel as [|fuel IH]; intros w; simpl;
    [done|].
  destruct (clock w - start <? seconds timeout); [|done].
  destruct (get_latest_file _) as [latest|] eqn:Hl; [|apply IH].
  apply get_latest_file_Some in Hl as (Hin & Hfin & Hmax).
  destruct (Hstale (clock w) (staging w)) as (s & Hs & Hsfin & Hold & Hnew).
  destruct (Hnew _ Hin Hfin) as [Hle Heq].
  pose proof (Hmax _ Hs Hsfin) as Hge.
  rewrite (Heq ltac:(lia)).
  destruct (Z.ltb_spec start (sf_mtime s)); [lia|]. apply IH.
Qed.
End Wait.

(** X6.  The wait for a download, as the reconciler runs it (60 seconds,
    one poll per second).  When it finds a file, that file is what
    [get_latest_file] gives on the last listing, it is finished and newer
    than the start of the wait, and less than 60 seconds have passed.  It
    gives up after 60 seconds exactly.  It looks at the newest finished
    file only: a leftover with the greatest creation time hides every
    fresh download, and the wait times out. *)
Theorem wait_for_download_outcome env c m y w :
  let wait := wait_for_download env c m y (S (Z.to_nat 60)) 60 (clock w) w in
  (∀ f, wait.1 = Some f →
     get_latest_file (staging wait.2) = Some f ∧
     in_progress f = false ∧ clock w < sf_mtime f ∧
     clock w ≤ clock wait.2 < clock w + seconds 60) ∧
  (wait.1 = None → clock wait.2 = clock w + seconds 60) ∧
  (stale_newest env c m y (clock w) → wait.1 = None).
Proof.
  intros wait. subst wait.
  destruct (wait_for_download _ _ _ _ _ _ _ _) as [o w1] eqn:Hw. simpl.
  split; [|split].
  - intros f ->.
    pose proof (wait_for_download_Some _ _ _ _ _ _ _ _ _ _ Hw) as (_ & ? & ?).
    pose proof (wait_for_download_Some_time _ _ _ _ _ _ _ _ _ _ Hw)
      as (? & ? & ?).
    repeat split; try done. lia.
  - intros ->.
    assert (clock w1 - clock w = seconds 60); [|lia].
    apply (wait_for_download_None_time env c m y _ _ _ _ _ 0) in Hw;
      [done|unfold seconds; lia|lia|lia].
  - intros Hstale.
    pose proof (wait_for_download_stale env c m y (S (Z.to_nat 60)) 60
                  (clock w) w Hstale) as H.
    by rewrite Hw in H.
Qed.

Lemma wait_for_download_outcome_witness :
  (wait_for_download (env_leftover now_2018_01) "26011100" 1 2018
     (S (Z.to_nat 60)) 60 (clock w_empty) w_empty).1 = None.
Proof.
  apply (wait_for_download_outcome (env_leftover now_2018_01) "26011100"
           1 2018 w_empty).
  intros t l. exists (mk_sfile "data/import/temp_downloads/old.xlsx" (t + 10) (-5)).
  split; [left|]. split; [reflexivity|]. split; [simpl; lia|].
  intros g Hg Hfin. simpl in Hg.
  apply elem_of_cons in Hg as [->|Hg]; [done|].
  apply list_elem_of_singleton in Hg as ->. simpl. lia.
Defined.

End StagingFacts.

(** ** Facts about the requests and the tree of a run *)

Module CrawlFacts.
Import PyStr Scraper Catalog ScraperFacts.

(** *** Artifact paths *)

Lemma string_app_inj_r (s1 s2 t : string) : s1 +:+ t = s2 +:+ t → s1 = s2.
Proof.
  revert s2. induction s1 as [|a s1 IH]; intros [|b s2] H.
  - done.
  - change (t = String b (s2 +:+ t)) in H.
    apply (f_equal String.length) in H. simpl in H.
    rewrite string_app_length in H. lia.
  - change (String a (s1 +:+ t) = t) in H.
    apply (f_equal String.length) in H. simpl in H.
    rewrite string_app_length in H. lia.
  - rewrite !string_app_cons in H. injection H as -> H. f_equal. by apply IH.
Qed.

(** What [os.path.join] puts before a relative name. *)
Lemma os_path_join_relative dir a s :
  a ≠ "/"%char →
  os_path_join dir (String a s) =
  (if String.eqb dir "" || endswith dir "/" then dir else dir +:+ "/")
  +:+ String a s.
Proof.
  intros Ha. unfold os_path_join, startswith.
  change (String.prefix "/" (String a s))
    with (if ascii_dec "/" a then String.prefix "" s else false).
  destruct (ascii_dec "/" a) as [<-|_]; [done|].
  destruct (String.eqb dir "" || endswith dir "/"); [done|].
  by rewrite string_app_assoc.
Qed.

Lemma strftime_B_month y m mn :
  strftime_B y m = Some mn →
  1 ≤ m ≤ 12 ∧ month_names !! Z.to_nat (m - 1) = Some mn.
Proof.
  unfold strftime_B. destruct (date_ok y m) eqn:Hd; [|done].
  apply date_ok_spec in Hd. intros ->. split; [lia|done].
Qed.

Lemma month_cases m : 1 ≤ m ≤ 12 →
  m = 1 ∨ m = 2 ∨ m = 3 ∨ m = 4 ∨ m = 5 ∨ m = 6 ∨
  m = 7 ∨ m = 8 ∨ m = 9 ∨ m = 10 ∨ m = 11 ∨ m = 12.
Proof. lia. Qed.

Lemma target_filename_injective y m mn y' m' mn' :
  strftime_B y m = Some mn → strftime_B y' m' = Some mn' →
  target_filename_of mn y = target_filename_of mn' y' → y = y' ∧ m = m'.
Proof.
  intros [Hm Hn]%strftime_B_month [Hm' Hn']%strftime_B_month.
  unfold target_filename_of.
  apply month_cases in Hm, Hm'.
  destruct_or!; subst m m'; vm_compute in Hn, Hn'; simplify_eq; simpl;
    intros H; simplify_eq;
    (split; [|done]);
    match goal with
    | H : pretty _ +:+ _ = pretty _ +:+ _ |- _ =>
        apply string_app_inj_r in H; by apply (inj pretty) in H
    end.
Qed.

Lemma target_path_injective dir y m y' m' p :
  target_path_of dir y m = Some p → target_path_of dir y' m' = Some p →
  y = y' ∧ m = m'.
Proof.
  unfold target_path_of.
  destruct (strftime_B y m) as [mn|] eqn:Hs; [|done].
  destruct (strftime_B y' m') as [mn'|] eqn:Hs'; [|done].
  simpl. intros [= <-] [= Heq].
  apply (target_filename_injective y m mn y' m' mn'); [done..|].
  pose proof Hs as [Hm Hn]%strftime_B_month.
  pose proof Hs' as [Hm' Hn']%strftime_B_month.
  assert (∃ a s, mn = String a s ∧ a ≠ "/"%char) as (a & s & -> & Ha).
  { apply month_cases in Hm. destruct_or!; subst m; vm_compute in Hn;
      simplify_eq; eexists _, _; (split; [done|]); by intros [=]. }
  assert (∃ a s, mn' = String a s ∧ a ≠ "/"%char) as (a' & s' & -> & Ha').
  { apply month_cases in Hm'. destruct_or!; subst m'; vm_compute in Hn';
      simplify_eq; eexists _, _; (split; [done|]); by intros [=]. }
  unfold target_filename_of in *. rewrite !string_app_cons in Heq.
  rewrite (os_path_join_relative dir a _ Ha) in Heq.
  rewrite (os_path_join_relative dir a' _ Ha') in Heq.
  apply (inj (String.app _)) in Heq. by rewrite !string_app_cons.
Qed.

Lemma target_path_longer dir y m p :
  target_path_of dir y m = Some p →
  (String.length dir < String.length p)%nat.
Proof.
  unfold target_path_of.
  destruct (strftime_B y m) as [mn|] eqn:Hs; [|done].
  simpl. intros [= <-].
  pose proof Hs as [Hm Hn]%strftime_B_month.
  assert (∃ a s, mn = String a s ∧ a ≠ "/"%char) as (a & s & -> & Ha).
  { apply month_cases in Hm. destruct_or!; subst m; vm_compute in Hn;
      simplify_eq; eexists _, _; (split; [done|]); by intros [=]. }
  unfold target_filename_of. rewrite string_app_cons.
  rewrite (os_path_join_relative dir a _ Ha).
  rewrite string_app_length. simpl.
  destruct (String.eqb dir "" || endswith dir "/"); [lia|].
  rewrite string_app_length. lia.
Qed.

(** X7.  Within one directory, two periods never share an artifact path:
    the path determines the year and the month; and no artifact path is
    the directory itself. *)
Theorem artifact_path_determines_period dir y m p :
  target_path_of dir y m = Some p →
  p ≠ dir ∧
  ∀ y' m', target_path_of dir y' m' = Some p → y = y' ∧ m = m'.
Proof.
  intros Hp. split.
  - intros ->. apply target_path_longer in Hp. lia.
  - intros y' m'. by apply target_path_injective.
Qed.

Lemma artifact_path_determines_period_witness :
  "d/March_2025.xlsx"%string ≠ "d"%string ∧
  ∀ y' m', target_path_of "d" y' m' = Some "d/March_2025.xlsx"%string →
           2025 = y' ∧ 3 = m'.
Proof.
  exact (artifact_path_determines_period "d" 2025 3 "d/March_2025.xlsx"
           eq_refl).
Defined.

(** *** The requests of a run *)

Lemma requests_of_app evs1 evs2 :
  requests_of (evs1 ++ evs2) = requests_of evs1 ++ requests_of evs2.
Proof. apply omap_app. Qed.

Lemma elem_of_requests_of c y m evs :
  (c, y, m) ∈ requests_of evs ↔ Net_request c m y ∈ evs.
Proof.
  unfold requests_of. rewrite list_elem_of_omap. split.
  - intros (e & Hin & He). destruct e; simplify_eq. done.
  - intros Hin. by exists (Net_request c m y).
Qed.

Lemma requests_of_no_request evs c m y :
  Forall (λ e, is_network e = true → e = Net_export c m y) evs →
  requests_of evs = [].
Proof.
  induction 1 as [|e evs He _ IH]; [done|].
  unfold requests_of in *. destruct e; simpl; try done.
  by specialize (He eq_refl).
Qed.

Section Traces.
Variable env : Env.
Variable now : datetime.

Lemma trace_spec_refl c periods w : trace_spec env c periods w (Normal w).
Proof.
  exists w, []. rewrite app_nil_r. split; [done|]. split; [done|].
  split; [apply sublist_nil_l|]. by left.
Qed.

Lemma trace_spec_seq c ps1 ps2 w w1 r :
  trace_spec env c ps1 w (Normal w1) → trace_spec env c ps2 w1 r →
  trace_spec env c (ps1 ++ ps2) w r.
Proof.
  intros (w1' & evs1 & [= <-] & Ho1 & Hs1 & Ht1)
         (w' & evs2 & -> & Ho2 & Hs2 & Ht2).
  exists w', (evs1 ++ evs2). split; [done|].
  split; [by rewrite Ho2, Ho1, app_assoc|].
  rewrite requests_of_app, fmap_app. split; [by apply sublist_app|].
  intros p Hp. destruct (Ht2 p Hp) as [Hin|(y & m & Hin & Hpath)].
  - destruct (Ht1 p Hin) as [?|(y & m & Hin' & Hpath)]; [by left|].
    right. exists y, m. split; [|done]. apply elem_of_app. by left.
  - right. exists y, m. split; [|done]. apply elem_of_app. by right.
Qed.

Lemma download_cycle_trace c m y mn p w :
  target_path_of (hscode_dir_of env c) y m = Some p →
  trace_spec env c [(y, m)] w
    (Normal (download_cycle env c m y mn (target_filename_of mn y) p w)).
Proof.
  intros Hp.
  destruct (download_cycle_frame env c m y mn (target_filename_of mn y) p w)
    as (evs & Ho & Hn & Ht).
  eexists _, _. split; [done|]. split; [exact Ho|].
  assert (requests_of (Msg_downloading mn y :: Net_request c m y :: evs)
          = [(c, y, m)]) as ->.
  { change (Msg_downloading mn y :: Net_request c m y :: evs)
      with ([Msg_downloading mn y; Net_request c m y] ++ evs).
    rewrite requests_of_app, (requests_of_no_request evs c m y Hn). done. }
  split; [done|].
  intros q Hq. destruct Ht as [Ht|Ht]; rewrite Ht in Hq; [by left|].
  apply elem_of_union in Hq as [->%elem_of_singleton|Hq]; [|by left].
  right. exists y, m. split; [left|done].
Qed.

Lemma month_loop_trace c y (k : nat) a w :
  MINYEAR ≤ y ≤ MAXYEAR → 1 ≤ a → a + Z.of_nat k ≤ 13 →
  trace_spec env c ((λ m, (y, m)) <$> seqZ a (Z.of_nat k)) w
    (month_loop env now c (hscode_dir_of env c) y (seqZ a (Z.of_nat k)) w).
Proof.
  intros Hy. revert a w. induction k as [|k IH]; intros a w Ha Hk.
  { rewrite seqZ_nil by lia. apply trace_spec_refl. }
  rewrite seqZ_S_cons. cbn [month_loop].
  destruct (future_month now y a); [apply trace_spec_refl|].
  destruct (strftime_B y a) as [mn|] eqn:Hs.
  2:{ apply strftime_B_None in Hs. lia. }
  pose proof (target_path_of_Some (hscode_dir_of env c) _ _ _ Hs) as Hp.
  rewrite fmap_cons.
  destruct (os_path_exists (tree w) _).
  - apply (trace_spec_seq c [(y, a)] _ w w); [apply trace_spec_refl|].
    apply IH; lia.
  - eapply (trace_spec_seq c [(y, a)]); [|apply IH; lia].
    by apply download_cycle_trace.
Qed.

Lemma year_loop_trace c (k : nat) s w :
  MINYEAR ≤ s → s + Z.of_nat k - 1 ≤ MAXYEAR →
  trace_spec env c (periods_of (seqZ s (Z.of_nat k))) w
    (year_loop env now c (hscode_dir_of env c) (seqZ s (Z.of_nat k)) w).
Proof.
  revert s w. induction k as [|k IH]; intros s w Hs Hk.
  { rewrite seqZ_nil by lia. apply trace_spec_refl. }
  rewrite seqZ_S_cons. cbn [year_loop]. unfold periods_of.
  rewrite bind_cons.
  pose proof (month_loop_trace c s 12 1 w ltac:(lia) ltac:(lia) ltac:(lia))
    as Hm.
  change (Z.of_nat 12) with 12 in Hm.
  destruct Hm as (w1 & evs & Hr & Hrest). rewrite Hr.
  eapply trace_spec_seq; [exists w1, evs; split; [done|exact Hrest]|].
  apply IH; lia.
Qed.

Lemma grid_list_cons c hscodes :
  grid_list now (c :: hscodes) = grid_list now [c] ++ grid_list now hscodes.
Proof. unfold grid_list. by rewrite bind_cons, bind_singleton. Qed.

Lemma requests_of_framed first evs last :
  requests_of [first] = [] → requests_of [last] = [] →
  requests_of (first :: evs ++ [last]) = requests_of evs.
Proof.
  intros Hf Hl.
  change (first :: evs ++ [last]) with ([first] ++ evs ++ [last]).
  rewrite !requests_of_app, Hf, Hl. simpl. by rewrite app_nil_r.
Qed.

Lemma process_hscode_trace idx total c w :
  run_trace_spec env now [c] w (process_hscode env now idx total c w).
Proof.
  unfold process_hscode.
  set (w0 := print (Msg_processing idx total c) w).
  destruct (ensure_dir_spec env (hscode_dir_of env c) w0)
    as (_ & _ & Ho1 & _ & Hq1 & _).
  assert (Ht1 : ∀ p, p ∈ tree (world_of (ensure_dir env (hscode_dir_of env c) w0)) →
            p ∈ tree w ∨
            ∃ c', c' ∈ [c] ∧ p ∈ dirs_of (hscode_dir_of env c')).
  { intros p Hp. destruct (Hq1 p Hp) as [?|?]; [by left|].
    right. exists c. split; [left|done]. }
  clear Hq1.
  destruct (ensure_dir env (hscode_dir_of env c) w0) as [w1|e w1];
    cbn [world_of] in Ho1, Ht1.
  2:{ exists [Msg_processing idx total c]. cbn [world_of].
      split; [by rewrite Ho1|]. split; [apply sublist_nil_l|].
      intros p Hp. destruct (Ht1 p Hp) as [?|?]; [by left|right; by left]. }
  assert (Ho1' : output w1 = output w ++ [Msg_processing idx total c])
    by (by rewrite Ho1).
  clear Ho1. rename Ho1' into Ho1.
  pose proof (datetime_year_bounds now) as Hnow.
  destruct (gate_answer now (tree w1) (datetime_now env (clock w1))
              (hscode_dir_of env c)) as (b & -> & _).
  destruct b.
  - exists [Msg_processing idx total c; Msg_skipping c]. cbn [world_of].
    split; [simpl; by rewrite Ho1, <- app_assoc|].
    split; [apply sublist_nil_l|].
    intros p Hp. destruct (Ht1 p Hp) as [?|?]; [by left|right; by left].
  - rewrite <- (seqZ_to_nat start_year).
    destruct (year_loop_trace c (Z.to_nat (dt_year now + 1 - start_year))
                start_year w1) as (w2 & evs & -> & Ho & Hs & Ht).
    { unfold start_year, MINYEAR. lia. }
    { unfold start_year, MAXYEAR, MINYEAR in *. lia. }
    exists (Msg_processing idx total c :: evs ++ [Msg_blank]). cbn [world_of].
    split; [simpl; rewrite Ho, Ho1, <- !app_assoc; done|].
    rewrite requests_of_framed by done.
    split.
    + unfold grid_list. rewrite bind_singleton.
      by rewrite (seqZ_to_nat start_year) in Hs.
    + intros p Hp. destruct (Ht p Hp) as [Hin|(y & m & Hin & Hpath)].
      * destruct (Ht1 p Hin) as [?|?]; [by left|right; by left].
      * right. right. by exists c, y, m.
Qed.

Lemma run_trace_spec_cons c hscodes w w1 r :
  run_trace_spec env now [c] w (Normal w1) →
  run_trace_spec env now hscodes w1 r →
  run_trace_spec env now (c :: hscodes) w r.
Proof.
  intros (evs1 & Ho1 & Hs1 & Ht1) (evs2 & Ho2 & Hs2 & Ht2).
  cbn [world_of] in Ho1, Ht1.
  exists (evs1 ++ evs2).
  split; [by rewrite Ho2, Ho1, app_assoc|].
  rewrite requests_of_app, grid_list_cons. split; [by apply sublist_app|].
  intros p Hp.
  destruct (Ht2 p Hp) as [Hin|[(c' & Hc' & Hd)|(c' & y & m & Hin & Hpath)]].
  - destruct (Ht1 p Hin)
      as [?|[(c' & Hc' & Hd)|(c' & y & m & Hin' & Hpath)]]; [by left| |].
    + right. left. exists c'. split; [|done].
      apply list_elem_of_singleton in Hc' as ->. left.
    + right. right. exists c', y, m. split; [|done].
      apply elem_of_app. by left.
  - right. left. exists c'. split; [by right|done].
  - right. right. exists c', y, m. split; [|done].
    apply elem_of_app. by right.
Qed.

Lemma run_trace_spec_raised c hscodes w e w1 :
  run_trace_spec env now [c] w (Raised e w1) →
  run_trace_spec env now (c :: hscodes) w (Raised e w1).
Proof.
  intros (evs1 & Ho1 & Hs1 & Ht1). exists evs1. split; [done|].
  split.
  - rewrite grid_list_cons. by apply sublist_inserts_r.
  - intros p Hp.
    destruct (Ht1 p Hp)
      as [?|[(c' & Hc' & Hd)|(c' & y & m & Hin' & Hpath)]]; [by left| |].
    + right. left. exists c'. split; [|done].
      apply list_elem_of_singleton in Hc' as ->. left.
    + right. right. by exists c', y, m.
Qed.

Lemma hscode_loop_trace idx total hscodes w :
  run_trace_spec env now hscodes w (hscode_loop env now idx total hscodes w).
Proof.
  revert idx w. induction hscodes as [|c hscodes IH]; intros idx w.
  - exists []. cbn [hscode_loop world_of]. rewrite app_nil_r. split; [done|].
    split; [apply sublist_nil_l|]. by left.
  - cbn [hscode_loop].
    pose proof (process_hscode_trace idx total c w) as Hp.
    destruct (process_hscode env now idx total c w) as [w1|e w1].
    + eapply run_trace_spec_cons; [exact Hp|apply IH].
    + by apply run_trace_spec_raised.
Qed.
End Traces.

Lemma scrape_commodity_data_trace env hscodes w :
  run_trace_spec env (datetime_now env (clock w)) hscodes w
    (scrape_commodity_data env hscodes w).
Proof.
  unfold scrape_commodity_data.
  destruct (setup_error env (clock w)).
  { exists []. cbn [world_of]. rewrite app_nil_r. split; [done|].
    split; [apply sublist_nil_l|]. by left. }
  destruct (hscode_loop_trace env (datetime_now env (clock w)) 1
              (length hscodes) hscodes
              (print (Msg_processing_total (length hscodes)) w))
    as (evs & Ho & Hs & Ht).
  destruct (finally_spec env
              (hscode_loop env (datetime_now env (clock w)) 1 (length hscodes)
                 hscodes (print (Msg_processing_total (length hscodes)) w)))
    as (Hfo & _ & Hft & _).
  exists (Msg_processing_total (length hscodes) :: evs ++ [Msg_closing]).
  split; [rewrite Hfo, Ho; simpl; by rewrite <- !app_assoc|].
  rewrite requests_of_framed by done.
  split; [done|]. intros p Hp. apply Ht.
  destruct Hft as [[Heq _]|[Heq _]]; rewrite Heq in Hp; [done|set_solver].
Qed.

Lemma elem_of_grid_list now hscodes c y m :
  (c, y, m) ∈ grid_list now hscodes →
  c ∈ hscodes ∧ start_year ≤ y ≤ dt_year now ∧ 1 ≤ m ≤ 12.
Proof.
  unfold grid_list, periods_of. intros (c' & Hin & Hc')%list_elem_of_bind.
  apply list_elem_of_fmap in Hin as ([y' m'] & [= -> -> ->] & Hin).
  apply list_elem_of_bind in Hin as (y'' & Hm & Hy).
  apply list_elem_of_fmap in Hm as (m'' & [= -> ->] & Hm).
  apply elem_of_seqZ in Hy, Hm. split; [done|]. lia.
Qed.

Lemma NoDup_periods_of years : NoDup years → NoDup (periods_of years).
Proof.
  intros Hnd. unfold periods_of. apply NoDup_bind; [| |done].
  - intros y1 y2 [y m] _ _ (m1 & [= -> ->] & _)%list_elem_of_fmap
      (m2 & [= -> _] & _)%list_elem_of_fmap. done.
  - intros y _. apply NoDup_fmap_2; [|apply NoDup_seqZ].
    by intros m1 m2 [=].
Qed.

Lemma NoDup_grid_list now hscodes : NoDup hscodes → NoDup (grid_list now hscodes).
Proof.
  intros Hnd. unfold grid_list. apply NoDup_bind; [| |done].
  - intros c1 c2 [[c y] m] _ _ ([y1 m1] & [= -> -> ->] & _)%list_elem_of_fmap
      ([y2 m2] & [= -> _ _] & _)%list_elem_of_fmap. done.
  - intros c _. apply NoDup_fmap_2.
    + by intros [y1 m1] [y2 m2] [= -> ->].
    + apply NoDup_periods_of, NoDup_seqZ.
Qed.

Lemma head_rev_suffix r : head_rev r `suffix_of` r.
Proof. exists (tail_rev r). apply tail_head_rev. Qed.

Lemma drop_slashes_suffix r : drop_slashes r `suffix_of` r.
Proof.
  induction r as [|c r IH]; [done|]. simpl.
  destruct (is_slash c); [by apply suffix_cons_r|done].
Qed.

Lemma os_path_split_prefix p :
  list_ascii_of_string (os_path_split p).1 `prefix_of` list_ascii_of_string p.
Proof.
  unfold os_path_split. cbn [fst].
  rewrite list_ascii_of_string_of_list_ascii.
  set (r := rev (list_ascii_of_string p)).
  assert ((if forallb is_slash (head_rev r) then head_rev r
           else drop_slashes (head_rev r)) `suffix_of` r) as [k Hk].
  { destruct (forallb is_slash (head_rev r)); [apply head_rev_suffix|].
    etrans; [apply drop_slashes_suffix|apply head_rev_suffix]. }
  exists (rev k).
  rewrite <- (rev_involutive (list_ascii_of_string p)). fold r.
  rewrite Hk at 1. by rewrite rev_app_distr.
Qed.

Lemma makedirs_names_prefix fuel name q :
  q ∈ makedirs_names fuel name →
  list_ascii_of_string q `prefix_of` list_ascii_of_string name.
Proof.
  revert name. induction fuel as [|fuel IH]; intros name; cbn [makedirs_names].
  { by intros ->%list_elem_of_singleton. }
  pose proof (os_path_split_prefix name) as H1.
  pose proof (os_path_split_prefix (os_path_split name).1) as H2.
  rewrite (surjective_pairing (os_path_split name)).
  destruct (String.eqb (os_path_split name).2 "").
  - rewrite (surjective_pairing (os_path_split (os_path_split name).1)).
    destruct (negb _ && negb _); [|by intros ->%list_elem_of_singleton].
    intros [->|Hin]%elem_of_cons; [done|].
    etrans; [by apply IH|]. by etrans.
  - destruct (negb _ && negb _); [|by intros ->%list_elem_of_singleton].
    intros [->|Hin]%elem_of_cons; [done|].
    etrans; [by apply IH|done].
Qed.

(** X8.  What a run does to the download tree.  The only path it may
    remove is the staging directory, which is then empty.  Every path it
    adds is a directory made for a code of the catalog (the directory of
    the code or one above it, a leading part of its path) or the artifact
    of a period it requested from the remote tool. *)
Theorem run_adds_only_requested_artifacts env hscodes w :
  let r := scrape_commodity_data env hscodes w in
  (∀ p, p ∈ tree w → p ∉ tree (world_of r) →
     p = TEMP_DOWNLOAD_DIR env ∧ staging (world_of r) = []) ∧
  (∀ p, p ∈ tree (world_of r) →
     p ∈ tree w ∨
     (∃ c, c ∈ hscodes ∧ p ∈ dirs_of (hscode_dir_of env c)) ∨
     ∃ c y m, Net_request c m y ∈ new_events w r ∧
              target_path_of (hscode_dir_of env c) y m = Some p) ∧
  (∀ name q, q ∈ dirs_of name →
     list_ascii_of_string q `prefix_of` list_ascii_of_string name ∧
     (q = name ∨ (String.length q < String.length name)%nat)).
Proof.
  intros r. split; [|split].
  - subst r. unfold scrape_commodity_data.
    destruct (setup_error env (clock w)); [by intros p Hin Hn|].
    set (now := datetime_now env (clock w)).
    set (w0 := print (Msg_processing_total (length hscodes)) w).
    destruct (hscode_loop_spec env now 1 (length hscodes) hscodes w0)
      as (_ & _ & Ht & _).
    destruct (finally_spec env (hscode_loop env now 1 (length hscodes) hscodes w0))
      as (_ & _ & Hft & _).
    intros p Hin Hn. destruct Hft as [[Heq _]|[Heq Hst]]; rewrite Heq in Hn.
    + destruct Hn. apply Ht. done.
    + split; [|done].
      destruct (decide (p = TEMP_DOWNLOAD_DIR env)) as [|Hne]; [done|].
      destruct Hn. apply elem_of_difference. split; [by apply Ht|].
      by apply not_elem_of_singleton.
  - destruct (scrape_commodity_data_trace env hscodes w)
      as (evs & Ho & _ & Ht).
    fold r in Ho, Ht. rewrite (new_events_eq w r evs Ho).
    intros p Hp. destruct (Ht p Hp) as [?|[?|(c & y & m & Hin & Hpath)]];
      [by left|by right; left|].
    right. right. exists c, y, m. split; [|done].
    by apply elem_of_requests_of.
  - intros name q Hq. split.
    + by apply (makedirs_names_prefix (String.length name)).
    + by apply (makedirs_names_length (String.length name)).
Qed.

Lemma run_adds_only_requested_artifacts_witness :
  let r := scrape_commodity_data (env_saving now_2018_01) ["26011100"%string]
             w_empty in
  ("data/import/26011100/January_2018.xlsx"%string ∈ tree w_empty ∨
   (∃ c, c ∈ ["26011100"%string] ∧
      "data/import/26011100/January_2018.xlsx"%string
      ∈ dirs_of (hscode_dir_of (env_saving now_2018_01) c)) ∨
   ∃ c y m, Net_request c m y ∈ new_events w_empty r ∧
     target_path_of (hscode_dir_of (env_saving now_2018_01) c) y m
     = Some "data/import/26011100/January_2018.xlsx"%string).
Proof.
  apply (run_adds_only_requested_artifacts (env_saving now_2018_01)
           ["26011100"%string] w_empty).
  match goal with
  | |- ?P => apply (bool_decide_eq_true_1 P); vm_compute; reflexivity
  end.
Defined.

(** X9.  The requests of a run follow the order of its loops: codes in
    catalog order, years ascending from 2018, months ascending; a catalog
    without repetition gives no period requested twice. *)
Theorem requests_follow_loop_order env hscodes w :
  let r := scrape_commodity_data env hscodes w in
  requests_of (new_events w r)
    `sublist_of` grid_list (datetime_now env (clock w)) hscodes ∧
  (NoDup hscodes → NoDup (requests_of (new_events w r))).
Proof.
  intros r. subst r.
  destruct (scrape_commodity_data_trace env hscodes w)
    as (evs & Ho & Hs & _).
  rewrite (new_events_eq w _ evs Ho). split; [done|].
  intros Hnd. eapply sublist_NoDup; [|exact Hs]. by apply NoDup_grid_list.
Qed.

Lemma requests_follow_loop_order_witness :
  NoDup (requests_of
           (new_events w_empty
              (scrape_commodity_data (env_saving now_2018_02)
                 ["26011100"; "26011200"]%string w_empty))).
Proof.
  apply (requests_follow_loop_order (env_saving now_2018_02)
           ["26011100"; "26011200"]%string w_empty).
  match goal with
  | |- ?P => apply (bool_decide_eq_true_1 P); vm_compute; reflexivity
  end.
Defined.

(** *** The requests of one code are the gaps of its grid *)

Lemma sublist_is_filter {A} (P : A → Prop) `{!∀ x, Decision (P x)}
    (l1 l2 : list A) :
  l1 `sublist_of` l2 → NoDup l2 → (∀ x, x ∈ l2 → (x ∈ l1 ↔ P x)) →
  l1 = filter P l2.
Proof.
  induction 1 as [|x l1 l2 Hsub IH|x l1 l2 Hsub IH]; intros Hnd Hiff.
  - done.
  - apply NoDup_cons in Hnd as [Hx Hnd].
    rewrite filter_cons_True by (apply Hiff; left). f_equal.
    apply IH; [done|]. intros z Hz.
    rewrite <- (Hiff z) by (by right).
    rewrite elem_of_cons. split; [by right|].
    intros [->|?]; [done|done].
  - apply NoDup_cons in Hnd as [Hx Hnd].
    rewrite filter_cons_False.
    + apply IH; [done|]. intros z Hz. apply Hiff. by right.
    + rewrite <- Hiff by left. intros Hin. apply Hx.
      by eapply elem_of_sublist.
Qed.

Lemma filter_none {A} (P : A → Prop) `{!∀ x, Decision (P x)} (l : list A) :
  (∀ x, x ∈ l → ¬ P x) → filter P l = [].
Proof.
  induction l as [|x l IH]; intros Hl; [done|].
  rewrite filter_cons_False by (apply Hl; left).
  apply IH. intros z Hz. apply Hl. by right.
Qed.

Lemma elem_of_grid_list_single now c q :
  q ∈ grid_list now [c] ↔
  ∃ y m, q = (c, y, m) ∧ start_year ≤ y ≤ dt_year now ∧ 1 ≤ m ≤ 12.
Proof.
  unfold grid_list, periods_of. rewrite bind_singleton, list_elem_of_fmap.
  split.
  - intros ([y m] & -> & (y' & Hm & Hy)%list_elem_of_bind).
    apply list_elem_of_fmap in Hm as (m' & [= -> ->] & Hm).
    apply elem_of_seqZ in Hy, Hm. exists y', m'. split; [done|]. lia.
  - intros (y & m & -> & Hy & Hm). exists (y, m). split; [done|].
    apply list_elem_of_bind. exists y. split.
    + apply list_elem_of_fmap. exists m. split; [done|].
      apply elem_of_seqZ. lia.
    + apply elem_of_seqZ. lia.
Qed.

Lemma is_gap_true env tree now c y m :
  is_gap env tree now (c, y, m) = true ↔
  future_month now y m = false ∧
  ∃ p, target_path_of (hscode_dir_of env c) y m = Some p ∧ p ∉ tree.
Proof.
  unfold is_gap. rewrite andb_true_iff, negb_true_iff.
  destruct (target_path_of (hscode_dir_of env c) y m) as [p|].
  - rewrite negb_true_iff, os_path_exists_false. split.
    + intros [? ?]. split; [done|]. by exists p.
    + intros [? (p' & [= <-] & ?)]. done.
  - split; [by intros [_ ?]|]. by intros [_ (p' & ? & _)].
Qed.

Lemma year_loop_gaps env now c w :
  ∃ w' evs,
    year_loop env now c (hscode_dir_of env c)
      (seqZ start_year (dt_year now + 1 - start_year)) w = Normal w' ∧
    output w' = output w ++ evs ∧
    requests_of evs `sublist_of` grid_list now [c] ∧
    ∀ q, q ∈ grid_list now [c] →
         (q ∈ requests_of evs ↔ is_gap env (tree w) now q = true).
Proof.
  pose proof (datetime_year_bounds now) as Hnow.
  rewrite <- (seqZ_to_nat start_year).
  destruct (year_loop_spec env now c
              (Z.to_nat (dt_year now + 1 - start_year)) start_year w)
    as (w' & evs & Hr & Ho & _ & Hl & Hc & _).
  { unfold start_year, MINYEAR. lia. }
  { unfold start_year, MAXYEAR, MINYEAR in *. lia. }
  destruct (year_loop_trace env now c
              (Z.to_nat (dt_year now + 1 - start_year)) start_year w)
    as (w'' & evs' & Hr' & Ho' & Hs & Ht).
  { unfold start_year, MINYEAR. lia. }
  { unfold start_year, MAXYEAR, MINYEAR in *. lia. }
  rewrite Hr in Hr' |- *. injection Hr' as <-.
  rewrite Ho in Ho'. apply app_inv_head in Ho' as <-.
  exists w', evs. split; [done|]. split; [done|]. split.
  { unfold grid_list. rewrite bind_singleton.
    by rewrite (seqZ_to_nat start_year) in Hs. }
  intros q (y & m & -> & Hy & Hm)%elem_of_grid_list_single.
  rewrite elem_of_requests_of, is_gap_true. split.
  - intros Hin.
    pose proof (proj1 (Forall_forall _ _) Hl _ Hin eq_refl)
      as (c' & y' & m' & p & Hnet & _ & _ & Hf & Hp & Hnin).
    destruct Hnet as [Hnet|Hnet]; [|done]. injection Hnet as <- <- <-.
    split; [done|]. by exists p.
  - intros [Hf (p & Hp & Hnin)].
    destruct (Hc y m) as (p' & Hp' & [Hin|Hin]); [lia|done| |done].
    rewrite Hp in Hp'. injection Hp' as <-.
    destruct (Ht p Hin) as [?|(y' & m' & Hreq & Hp')]; [done|].
    destruct (target_path_injective _ _ _ _ _ _ Hp Hp') as [-> ->].
    by apply elem_of_requests_of.
Qed.

(** X10.  What one code of the catalog makes the driver do, when the
    clock of the completion gate shows the date read at the start of the
    run.  The body of the loop ends normally when the directory of the
    code exists or can be made; it then requests the gaps of the grid of
    the code (the periods that are not in the future and whose artifact
    was absent), each once, in the order of the loops.  When it raises,
    the directory could not be made and nothing was requested.  For a
    directory that exists, the gate skips the code exactly when there is
    no gap. *)
Theorem process_hscode_requests_the_gaps env now idx total c w :
  datetime_now env (clock w) = now →
  let r := process_hscode env now idx total c w in
  let gaps := filter (λ q, is_gap env (tree w) now q = true)
                (grid_list now [c]) in
  (hscode_dir_of env c ∈ tree w ∨ (∀ p t, mkdir_error env p t = None) →
   ended_normally r) ∧
  (ended_normally r → requests_of (new_events w r) = gaps) ∧
  (¬ ended_normally r →
   requests_of (new_events w r) = [] ∧ hscode_dir_of env c ∉ tree w) ∧
  (hscode_dir_of env c ∈ tree w →
   (Msg_skipping c ∈ new_events w r ↔ gaps = [])).
Proof.
  intros Hclock r gaps. subst r. unfold process_hscode.
  set (w0 := print (Msg_processing idx total c) w).
  destruct (ensure_dir_spec env (hscode_dir_of env c) w0)
    as (Hc1 & _ & Ho1 & Hsub & Hq1 & Hin1 & Hok1).
  assert (Hfresh : ∀ y m p,
            target_path_of (hscode_dir_of env c) y m = Some p →
            p ∈ tree (world_of (ensure_dir env (hscode_dir_of env c) w0)) →
            p ∈ tree w).
  { intros y m p Hp Hin. destruct (Hq1 p Hin) as [?|Hd]; [done|].
    apply target_path_longer in Hp.
    destruct (makedirs_names_length _ _ _ Hd) as [->|?]; lia. }
  clear Hq1.
  destruct (ensure_dir env (hscode_dir_of env c) w0) as [w1|e w1];
    cbn [world_of] in Hc1, Ho1, Hsub, Hfresh.
  2:{ split; [intros [Hin|Hmk]; [by specialize (Hin1 Hin)|exact (Hok1 Hmk)]|].
      split; [done|]. split.
      - intros _. split.
        + by rewrite (new_events_eq w _ [Msg_processing idx total c])
            by (simpl; by rewrite Ho1).
        + intros Hin. by specialize (Hin1 Hin).
      - intros Hin. by specialize (Hin1 Hin). }
  assert (Ho1' : output w1 = output w ++ [Msg_processing idx total c])
    by (by rewrite Ho1).
  clear Ho1 Hin1 Hok1. rename Ho1' into Ho1.
  assert (Hclock1 : datetime_now env (clock w1) = now)
    by (by rewrite Hc1).
  assert (Hgap : ∀ q, q ∈ grid_list now [c] →
            (is_gap env (tree w1) now q = true ↔
             is_gap env (tree w) now q = true)).
  { intros q (y & m & -> & _)%elem_of_grid_list_single.
    rewrite !is_gap_true. apply and_iff_compat_l.
    split; intros (p & Hp & Hnin); exists p; (split; [done|]).
    - intros Hin. apply Hnin. by apply Hsub.
    - intros Hin. apply Hnin. by apply (Hfresh y m). }
  pose proof (datetime_year_bounds now) as Hnow.
  rewrite Hclock1.
  assert (Hgate :
    (is_hscode_completed (tree w1) now (hscode_dir_of env c) start_year
       (dt_year now) = Some true ∧ gaps = []) ∨
    (is_hscode_completed (tree w1) now (hscode_dir_of env c) start_year
       (dt_year now) = Some false ∧
     (hscode_dir_of env c ∈ tree w → gaps ≠ []))).
  { destruct (decide (hscode_dir_of env c ∈ tree w1)) as [Hdir|Hdir].
    - destruct (is_hscode_completed_spec (tree w1) now
                  (hscode_dir_of env c) start_year (dt_year now) Hdir)
        as (b & Hb & Hiff); [unfold start_year, MINYEAR; lia|lia|].
      destruct b; [left|right]; (split; [done|]).
      + apply filter_none. intros q Hq Hgapq. apply Hgap in Hgapq; [|done].
        apply elem_of_grid_list_single in Hq as (y & m & -> & Hy & Hm).
        apply is_gap_true in Hgapq as [Hf (p & Hp & Hnin)].
        destruct (proj1 Hiff eq_refl y m Hy Hm Hf) as (p' & Hp' & Hin).
        rewrite Hp in Hp'. by injection Hp' as <-.
      + intros _ Hnone. enough (false = true) by done. apply Hiff.
        intros y m Hy Hm Hf.
        destruct (strftime_B_is_Some y m) as [mn Hmn];
          [unfold start_year, MINYEAR, MAXYEAR in *; lia|done|].
        pose proof (target_path_of_Some (hscode_dir_of env c) y m mn Hmn) as Hp.
        eexists. split; [exact Hp|].
        destruct (decide (os_path_join (hscode_dir_of env c)
                            (target_filename_of mn y) ∈ tree w)) as [Hin|Hnin];
          [by apply Hsub|].
        assert ((c, y, m) ∈ gaps) as Hg; [|rewrite Hnone in Hg; by apply elem_of_nil in Hg].
        apply list_elem_of_filter. split.
        * apply is_gap_true. split; [done|]. eexists. by split.
        * apply elem_of_grid_list_single. by exists y, m.
    - right. split; [by apply is_hscode_completed_no_dir|].
      intros Hin. destruct Hdir. by apply Hsub. }
  destruct Hgate as [[-> Hnone]|[-> Hsome]].
  - cbn [world_of].
    rewrite (new_events_eq w _ [Msg_processing idx total c; Msg_skipping c])
      by (simpl; by rewrite Ho1, <- app_assoc).
    split; [done|]. split; [by rewrite Hnone|]. split; [by intros []|].
    intros _. split; [done|]. intros _. right. left.
  - destruct (year_loop_gaps env now c w1) as (w2 & evs & Hr & Ho & Hs & Hiff).
    destruct (year_loop_steps env now c (hscode_dir_of env c)
                (seqZ start_year (dt_year now + 1 - start_year)) w1)
      as (_ & evs' & Ho' & Hev).
    rewrite Hr in Ho' |- *. cbn [world_of] in Ho' |- *.
    rewrite Ho in Ho'. apply app_inv_head in Ho' as <-.
    rewrite (new_events_eq w _ (Msg_processing idx total c :: evs ++ [Msg_blank]))
      by (simpl; rewrite Ho, Ho1, <- !app_assoc; done).
    rewrite requests_of_framed by done.
    split; [done|]. split; [|split; [by intros []|]].
    + intros _. apply sublist_is_filter; [done| |].
      * apply NoDup_grid_list. apply NoDup_singleton.
      * intros q Hq. rewrite (Hiff q Hq). by apply Hgap.
    + intros Hin. split; [|by intros ?%Hsome].
      intros Hskip. exfalso.
      apply elem_of_cons in Hskip as [[=]|Hskip].
      apply elem_of_app in Hskip as [Hskip|[=]%list_elem_of_singleton].
      rewrite Forall_forall in Hev. by specialize (Hev _ Hskip).
Qed.

Lemma process_hscode_requests_the_gaps_witness :
  let w := mk_world 0 {["data/import/26011100/January_2018.xlsx"%string]} [] [] in
  let r := process_hscode (env_saving now_2018_02) now_2018_02 1 1 "26011100" w in
  ended_normally r ∧
  requests_of (new_events w r) =
    filter (λ q, is_gap (env_saving now_2018_02) (tree w) now_2018_02 q = true)
      (grid_list now_2018_02 ["26011100"%string]).
Proof.
  intros w r.
  destruct (process_hscode_requests_the_gaps (env_saving now_2018_02)
              now_2018_02 1 1 "26011100" w eq_refl) as (Hn & Hreq & _).
  assert (ended_normally r) as Hr by (apply Hn; by right).
  split; [exact Hr|]. by apply Hreq.
Defined.

(** *** The completion oracle *)

Lemma check_months_mono t1 t2 now dir y months :
  t1 ⊆ t2 → check_months t1 now dir y months = Fallthrough →
  check_months t2 now dir y months = Fallthrough.
Proof.
  intros Hsub. induction months as [|m months IH]; cbn [check_months];
    [reflexivity|].
  destruct (future_month now y m); [reflexivity|].
  destruct (strftime_B y m) as [mn|]; [|intros [=]].
  destruct (os_path_exists t1 _) eqn:He; [|intros [=]].
  apply os_path_exists_true in He.
  rewrite (proj2 (os_path_exists_true t2 _)) by set_solver. exact IH.
Qed.

Lemma check_years_mono t1 t2 now dir years :
  t1 ⊆ t2 → check_years t1 now dir years = Some true →
  check_years t2 now dir years = Some true.
Proof.
  intros Hsub. induction years as [|y years IH]; cbn [check_years];
    [reflexivity|].
  destruct (check_months t1 now dir y (seqZ 1 12)) eqn:Hm;
    [|intros [=]..].
  rewrite (check_months_mono t1 t2 now dir y _ Hsub Hm). exact IH.
Qed.

(** X11.  The completion oracle is monotone in the tree: a code it
    reports complete stays complete when paths are added. *)
Theorem oracle_monotone t1 t2 now dir s e :
  t1 ⊆ t2 →
  is_hscode_completed t1 now dir s e = Some true →
  is_hscode_completed t2 now dir s e = Some true.
Proof.
  intros Hsub. unfold is_hscode_completed.
  destruct (os_path_exists t1 dir) eqn:He; cbn [negb]; [|intros [=]].
  apply os_path_exists_true in He.
  rewrite (proj2 (os_path_exists_true t2 dir)) by set_solver. cbn [negb].
  apply check_years_mono. exact Hsub.
Qed.

Lemma oracle_monotone_witness :
  is_hscode_completed ({["e"%string]} ∪ tree_jan_2018) now_2018_01 "d"
    2018 2018 = Some true.
Proof.
  apply (oracle_monotone tree_jan_2018 ({["e"%string]} ∪ tree_jan_2018)
           now_2018_01 "d" 2018 2018).
  - apply union_subseteq_r.
  - vm_compute. reflexivity.
Defined.

(** X12.  The oracle at the edges of its year range, for a directory
    that exists: an empty range of years is complete, and a first year
    that [datetime.date] refuses makes the call raise. *)
Theorem oracle_year_range_edges tree now dir s e :
  dir ∈ tree →
  (e < s → is_hscode_completed tree now dir s e = Some true) ∧
  (s ≤ e → s < MINYEAR ∨ MAXYEAR < s →
   is_hscode_completed tree now dir s e = None).
Proof.
  intros Hdir. unfold is_hscode_completed.
  rewrite (proj2 (os_path_exists_true tree dir) Hdir). cbn [negb]. split.
  - intros Hlt. rewrite seqZ_nil by lia. reflexivity.
  - intros Hle Hout. pose proof (datetime_year_bounds now) as Hnow.
    rewrite <- (seqZ_to_nat s).
    destruct (Z.to_nat (e + 1 - s)) as [|k] eqn:Hk; [lia|].
    rewrite seqZ_S_cons. cbn [check_years].
    change 12 with (Z.of_nat 12). rewrite seqZ_S_cons. cbn [check_months].
    rewrite (proj2 (future_month_false now s 1)) by lia.
    unfold strftime_B.
    destruct (date_ok s 1) eqn:Hd; [|reflexivity].
    apply date_ok_spec in Hd. lia.
Qed.

Lemma oracle_year_range_edges_witness :
  is_hscode_completed tree_jan_2018 now_2018_01 "d" 2019 2018 = Some true ∧
  is_hscode_completed tree_jan_2018 now_2018_01 "d" 0 2018 = None.
Proof.
  assert ("d"%string ∈ tree_jan_2018) as Hdir.
  { match goal with
    | |- ?P => apply (bool_decide_eq_true_1 P); vm_compute; reflexivity
    end. }
  split.
  - apply (oracle_year_range_edges tree_jan_2018 now_2018_01 "d" 2019 2018
             Hdir). lia.
  - apply (oracle_year_range_edges tree_jan_2018 now_2018_01 "d" 0 2018
             Hdir); unfold MINYEAR; lia.
Defined.

(** *** The cycle of one period *)

(** X13.  A cycle prints its announcement, makes its request, clicks the
    export button at most once and ends with exactly one outcome line.
    The artifact enters the tree when that line is [Msg_saved], and the
    tree is untouched otherwise; a [Msg_no_data] cycle never clicked
    export; the clock never runs backwards. *)
Theorem cycle_ends_with_one_outcome env c m y mn p w :
  let fn := target_filename_of mn y in
  let w' := download_cycle env c m y mn fn p w in
  ∃ mid e,
    output w' = output w ++ [Msg_downloading mn y; Net_request c m y]
                         ++ mid ++ [e] ∧
    (mid = [] ∨ mid = [Net_export c m y]) ∧
    is_outcome mn y fn e ∧
    (e = Msg_no_data mn y → mid = []) ∧
    (e = Msg_saved fn ∨ e = Msg_timeout → mid = [Net_export c m y]) ∧
    (e = Msg_saved fn → tree w' = {[p]} ∪ tree w) ∧
    (e ≠ Msg_saved fn → tree w' = tree w) ∧
    clock w ≤ clock w'.
Proof.
  intros fn w'. subst w'. unfold download_cycle.
  cbn [print clock tree output staging].
  destruct (submit_query env c m y (clock w)) as [x|].
  { exists [], (Msg_error mn y x). simpl. rewrite <- !app_assoc. simpl.
    split; [done|]. split; [by left|]. split; [right; right; right; by eexists|].
    repeat split; try done; try lia. by intros [?|?]. }
  pose proof (wait_for_excel_button_frame env c m y
    (mk_world (clock w) (tree w) (staging w)
       ((output w ++ [Msg_downloading mn y]) ++ [Net_request c m y])))
    as (Hbt & _ & Hbo).
  assert (clock w ≤ clock (wait_for_excel_button env c m y
    (mk_world (clock w) (tree w) (staging w)
       ((output w ++ [Msg_downloading mn y]) ++ [Net_request c m y]))).2)
    as Hbc.
  { unfold wait_for_excel_button. simpl.
    destruct (excel_button_after env c m y (clock w)) as [d|]; simpl;
      [destruct (d <=? seconds 20); simpl|]; unfold seconds; lia. }
  destruct (wait_for_excel_button _ _ _ _ _) as [found wb]. simpl in Hbt, Hbo, Hbc.
  destruct found; simpl.
  2:{ exists [], (Msg_no_data mn y). simpl. rewrite Hbo, <- !app_assoc. simpl.
      split; [done|]. split; [by left|]. split; [by left|].
      repeat split; try done. by intros [?|?]. }
  destruct (click_excel env c m y (clock wb + seconds 2)) as [x|].
  { exists [Net_export c m y], (Msg_error mn y x). simpl.
    rewrite Hbo, <- !app_assoc. simpl.
    split; [done|]. split; [by right|].
    split; [right; right; right; by eexists|].
    repeat split; try done. unfold seconds. lia. }
  unfold reconcile. cbn [clock].
  destruct (wait_for_download _ _ _ _ _ _ _ _) as [new_file wd] eqn:Hw.
  apply wait_for_download_frame in Hw as (Hdt & Hdo & Hdc).
  simpl in Hdt, Hdo, Hdc.
  destruct new_file as [f|].
  - destruct (move_error env (sf_path f) p _) as [x|].
    + exists [Net_export c m y], (Msg_error mn y x). simpl.
      rewrite Hdo, Hdt, Hbo, Hbt, <- !app_assoc. simpl.
      split; [done|]. split; [by right|].
      split; [right; right; right; by eexists|].
      repeat split; try done. unfold seconds in *. lia.
    + exists [Net_export c m y], (Msg_saved fn). simpl.
      rewrite Hdo, Hdt, Hbo, Hbt, <- !app_assoc. simpl.
      split; [done|]. split; [by right|].
      split; [right; by left|].
      repeat split; try done. unfold seconds in *. lia.
  - exists [Net_export c m y], Msg_timeout. simpl.
    rewrite Hdo, Hdt, Hbo, Hbt, <- !app_assoc. simpl.
    split; [done|]. split; [by right|].
    split; [right; right; by left|].
    repeat split; try done. unfold seconds in *. lia.
Qed.

(** *** The second run *)

(** C1, as amended.  In a second run, no request or export goes to the
    remote tool for a (code, year, month) whose canonical artifact path
    already exists.  When the first run left every artifact of the period
    grid on disk, the second run performs no network interaction at all
    and leaves the same artifacts: of the download tree, the only path it
    may remove is the staging directory.  A period of the grid that the
    first run left without an artifact is requested again, provided that
    nothing raises outside the cycles of the periods, that the calendar
    of the second run never puts the period in the future, and that the
    artifact path is neither a directory made for a code of the catalog
    nor the artifact path of another code. *)
Theorem resumable_second_run env1 env2 hscodes w0 :
  let w1 := world_of (scrape_commodity_data env1 hscodes w0) in
  let r2 := scrape_commodity_data env2 hscodes w1 in
  let now2 := datetime_now env2 (clock w1) in
  (∀ c m y p e,
     target_path_of (hscode_dir_of env2 c) y m = Some p → p ∈ tree w1 →
     net_of c m y e → e ∉ new_events w1 r2) ∧
  (complete env2 now2 hscodes (tree w1) →
     filter (λ e, is_network e = true) (new_events w1 r2) = [] ∧
     ((tree (world_of r2) = tree w1 ∧ staging (world_of r2) = staging w1) ∨
      (tree (world_of r2) = tree w1 ∖ {[TEMP_DOWNLOAD_DIR env2]} ∧
       staging (world_of r2) = [])) ∧
     ∀ c y m, present (tree (world_of r2)) (hscode_dir_of env2 c) y m ↔
              present (tree w1) (hscode_dir_of env2 c) y m) ∧
  (os_cooperates env2 →
   ∀ c y m p, c ∈ hscodes → grid now2 y m →
     target_path_of (hscode_dir_of env2 c) y m = Some p → p ∉ tree w1 →
     (∀ t, clock w1 ≤ t → future_month (datetime_now env2 t) y m = false) →
     (∀ c', c' ∈ hscodes → p ∉ dirs_of (hscode_dir_of env2 c')) →
     (∀ c' y' m', c' ∈ hscodes →
        target_path_of (hscode_dir_of env2 c') y' m' = Some p → c' = c) →
     Net_request c m y ∈ new_events w1 r2).
Proof.
  intros w1 r2 now2.
  destruct (scrape_commodity_data_spec env2 hscodes w1)
    as (evs & Ho & Hk & Ht & Hl & Hs & Hc & Hq & Hn).
  fold r2 now2 in Ho, Hk, Ht, Hl, Hs, Hc, Hq, Hn.
  rewrite (new_events_eq _ _ _ Ho). split; [|split].
  - intros c m y p e Hp Hin Hnet He.
    rewrite Forall_forall in Hl.
    destruct (Hl e He) as (c' & y' & m' & p' & Hnet' & _ & _ & _ & Hp' & Hn').
    { by destruct Hnet as [-> | ->]. }
    assert (c' = c ∧ m' = m ∧ y' = y) as (-> & -> & ->).
    { destruct Hnet as [-> | ->], Hnet' as [Heq|Heq]; by simplify_eq. }
    rewrite Hp in Hp'. by simplify_eq.
  - intros Hcomp. destruct (Hq Hcomp) as (Hnet & Htree).
    split; [by apply filter_network_nil|]. split; [done|].
    intros c y m. destruct Htree as [[-> _]|[-> _]]; [done|].
    apply present_not_temp.
  - intros Hos c y m p Hin Hg Hp Hnin Hcal Hdirs Hother.
    assert (Hfm : future_month now2 y m = false) by (apply Hcal; lia).
    assert (Hfinal : p ∈ tree (world_of r2) → Net_request c m y ∈ evs).
    { intros Hpin.
      destruct (scrape_commodity_data_trace env2 hscodes w1)
        as (evs' & Ho' & Hsub & Htr).
      fold r2 in Ho', Htr. rewrite Ho in Ho'. apply app_inv_head in Ho' as <-.
      destruct (Htr p Hpin) as [?|[(c' & Hc' & Hd)|(c' & y' & m' & Hreq & Hp')]];
        [done|by destruct (Hdirs c' Hc')|].
      assert (c' ∈ hscodes) as Hc'.
      { eapply elem_of_grid_list. eapply elem_of_sublist; [exact Hreq|exact Hsub]. }
      pose proof (Hother c' y' m' Hc' Hp') as ->.
      destruct (target_path_injective _ _ _ _ _ _ Hp Hp') as [-> ->].
      by apply elem_of_requests_of. }
    destruct (Hc (Hn Hos) c y m Hin Hg Hfm) as [Hskip|(p' & Hp' & Hcov)].
    + destruct (Hs c Hskip) as [_ (t & Htk & Hall)].
      destruct (Hall y m Hg) as (p' & Hp' & Hpin); [apply Hcal; lia|].
      rewrite Hp in Hp'. injection Hp' as <-. by apply Hfinal.
    + rewrite Hp in Hp'. injection Hp' as <-.
      destruct Hcov as [Hpin|Hreq]; [by apply Hfinal|done].
Qed.

Lemma resumable_second_run_witness :
  let env := env_saving now_2018_01 in
  let w1 := world_of (scrape_commodity_data env ["26011100"] w_empty) in
  let r2 := scrape_commodity_data env ["26011100"] w1 in
  let v1 := world_of (scrape_commodity_data (env_no_data now_2018_01)
                        ["26011100"] w_empty) in
  (Net_request "26011100" 1 2018 ∉ new_events w1 r2) ∧
  filter (λ e, is_network e = true) (new_events w1 r2) = [] ∧
  Net_request "26011100" 1 2018
    ∈ new_events v1 (scrape_commodity_data env ["26011100"] v1).
Proof.
  intros env w1 r2 v1.
  destruct (resumable_second_run env env ["26011100"] w_empty)
    as (Hskip & Hsilent & _).
  destruct (resumable_second_run (env_no_data now_2018_01) env ["26011100"]
              w_empty) as (_ & _ & Hagain).
  split; [|split].
  - apply (Hskip "26011100" 1 2018 "data/import/26011100/January_2018.xlsx").
    + vm_compute. reflexivity.
    + match goal with
      | |- ?P => apply (bool_decide_eq_true_1 P); vm_compute; reflexivity
      end.
    + by left.
  - apply Hsilent. intros c Hc. apply list_elem_of_singleton in Hc. subst c.
    split.
    { match goal with
      | |- ?P => apply (bool_decide_eq_true_1 P); vm_compute; reflexivity
      end. }
    intros y m [Hy Hm] Hf. apply future_month_false in Hf.
    change (dt_year (datetime_now env (clock _))) with 2018 in Hy, Hf.
    change (dt_month (datetime_now env (clock _))) with 1 in Hf.
    unfold start_year in Hy.
    assert (y = 2018) as -> by lia. assert (m = 1) as -> by lia.
    exists "data/import/26011100/January_2018.xlsx".
    split; [vm_compute; reflexivity|].
    match goal with
    | |- ?P => apply (bool_decide_eq_true_1 P); vm_compute; reflexivity
    end.
  - apply (Hagain ltac:(by repeat split) "26011100" 2018 1
             "data/import/26011100/January_2018.xlsx").
    + left.
    + split; [unfold start_year; simpl; lia|lia].
    + vm_compute. reflexivity.
    + match goal with
      | |- ?P => apply (bool_decide_eq_true_1 P); vm_compute; reflexivity
      end.
    + intros t _. reflexivity.
    + intros c' ->%list_elem_of_singleton.
      match goal with
      | |- ?P => apply (bool_decide_eq_true_1 P); vm_compute; reflexivity
      end.
    + by intros c' y' m' ->%list_elem_of_singleton _.
Defined.

(** C1, as stated, fails: when the first run met periods without data, the
    second run asks the remote tool for them again. *)
Lemma second_run_not_silent :
  ¬ second_run_silent (env_no_data now_2018_01) (env_no_data now_2018_01)
      ["26011100"] w_empty.
Proof. intros [H _]. vm_compute in H. discriminate H. Qed.

End CrawlFacts.

(** ** Facts about the sheets and the frame of one code *)

Module SheetFacts.
Import PyStr Transform TransformFacts.

(** *** The header pattern *)

Lemma first_some_Some {A B} (f : A → option B) (l : list A) y :
  first_some f l = Some y → ∃ x, x ∈ l ∧ f x = Some y.
Proof.
  induction l as [|x l IH]; simpl; [done|].
  destruct (f x) as [y'|] eqn:Hx.
  - intros [= <-]. exists x. split; [left|done].
  - intros (x' & Hin & Hx')%IH. exists x'. split; [by right|done].
Qed.

Lemma first_some_head {A B} (f : A → option B) x (l : list A) y :
  f x = Some y → first_some f (x :: l) = Some y.
Proof. simpl. by intros ->. Qed.

Lemma letter_run_take (k : nat) l :
  (k ≤ letter_run l)%nat →
  Forall (λ c, is_alpha c = true) (take k l) ∧ length (take k l) = k.
Proof.
  revert k. induction l as [|c l IH]; intros k; simpl.
  - intros Hk. assert (k = 0%nat) as -> by lia. by split.
  - destruct k as [|k]; [by split|]. simpl.
    destruct (is_alpha c) eqn:Hc; [|lia]. intros Hk.
    destruct (IH k) as [Hall Hlen]; [lia|]. split; [by constructor|].
    by rewrite Hlen.
Qed.

Lemma letter_run_app g rest :
  Forall (λ c, is_alpha c = true) g →
  match rest with c :: _ => is_alpha c = false | [] => True end →
  letter_run (g ++ rest) = length g.
Proof.
  intros Hg Hrest. induction Hg as [|c g Hc _ IH]; simpl.
  - destruct rest as [|c rest]; [done|]. simpl. by rewrite Hrest.
  - by rewrite Hc, IH.
Qed.

Lemma letters_greedy_elem lo l g r :
  (g, r) ∈ letters_greedy lo l →
  l = g ++ r ∧ Forall (λ c, is_alpha c = true) g ∧ (lo ≤ length g)%nat.
Proof.
  unfold letters_greedy.
  intros (k & [= -> ->] & Hk)%list_elem_of_fmap.
  apply list_elem_of_In, in_rev, list_elem_of_In, elem_of_seq in Hk.
  destruct (letter_run_take k l) as [Hall Hlen]; [lia|].
  split; [by rewrite take_drop|]. split; [done|]. rewrite Hlen. lia.
Qed.

Lemma letters_greedy_head lo l :
  (lo ≤ letter_run l)%nat →
  ∃ tl, letters_greedy lo l =
        (take (letter_run l) l, drop (letter_run l) l) :: tl.
Proof.
  intros Hlo. unfold letters_greedy.
  replace (S (letter_run l) - lo)%nat with (S (letter_run l - lo)) by lia.
  rewrite seq_S, rev_app_distr. simpl.
  replace (lo + (letter_run l - lo))%nat with (letter_run l) by lia.
  by eexists.
Qed.

Lemma four_digits_Some l g :
  four_digits l = Some g →
  length g = 4%nat ∧ Forall (λ c, is_digit c = true) g ∧ ∃ r, l = g ++ r.
Proof.
  destruct l as [|a [|b [|c [|d r]]]]; simpl; try done.
  destruct (is_digit a) eqn:Ha; simpl; [|done].
  destruct (is_digit b) eqn:Hb; simpl; [|done].
  destruct (is_digit c) eqn:Hc; simpl; [|done].
  destruct (is_digit d) eqn:Hd; simpl; [|done].
  intros [= <-]. split; [done|]. split; [by repeat constructor|].
  by exists r.
Qed.

Lemma four_digits_app d tail :
  length d = 4%nat → Forall (λ c, is_digit c = true) d →
  four_digits (d ++ tail) = Some d.
Proof.
  destruct d as [|a [|b [|c [|e [|? ?]]]]]; simpl; try done.
  intros _ Hd.
  apply Forall_cons in Hd as [-> Hd]. apply Forall_cons in Hd as [-> Hd].
  apply Forall_cons in Hd as [-> Hd]. apply Forall_cons in Hd as [-> Hd].
  done.
Qed.

Lemma match_here_Some l g1 g3 :
  match_here l = Some (g1, g3) →
  g1 ≠ [] ∧ Forall (λ c, is_alpha c = true) g1 ∧
  length g3 = 4%nat ∧ Forall (λ c, is_digit c = true) g3 ∧
  ∃ pre post, l = pre ++ g3 ++ post.
Proof.
  unfold match_here.
  intros ([g1' r1] & H1 & Hm)%first_some_Some.
  apply first_some_Some in Hm as (r2 & H2 & Hm).
  apply first_some_Some in Hm as ([g2 r3] & H3 & Hm).
  destruct (four_digits r3) as [g|] eqn:H4; [|done].
  simpl in Hm. injection Hm as -> ->.
  apply letters_greedy_elem in H1 as (-> & Hall & Hlen).
  apply letters_greedy_elem in H3 as (-> & _ & _).
  apply four_digits_Some in H4 as (Hlen4 & Hdig & post & ->).
  split; [intros ->; simpl in Hlen; lia|].
  split; [done|]. split; [done|]. split; [done|].
  unfold optional_dash in H2.
  destruct r1 as [|c r]; [apply list_elem_of_singleton in H2 as <-|].
  - exists (g1 ++ g2), post. by rewrite <- !app_assoc.
  - destruct (Ascii.eqb c "-").
    + apply elem_of_cons in H2 as [<-|H2].
      * exists (g1 ++ c :: g2), post. by rewrite <- !app_assoc.
      * apply list_elem_of_singleton in H2. rewrite <- H2.
        exists (g1 ++ g2), post. by rewrite <- !app_assoc.
    + apply list_elem_of_singleton in H2. rewrite <- H2.
      exists (g1 ++ g2), post. by rewrite <- !app_assoc.
Qed.

Lemma search_from_Some l g1 g3 :
  search_from l = Some (g1, g3) →
  g1 ≠ [] ∧ Forall (λ c, is_alpha c = true) g1 ∧
  length g3 = 4%nat ∧ Forall (λ c, is_digit c = true) g3 ∧
  ∃ pre post, l = pre ++ g3 ++ post.
Proof.
  induction l as [|c l IH].
  - cbn [search_from]. destruct (match_here []) as [g|] eqn:Hm; [|done].
    intros [= ->]. by apply match_here_Some.
  - cbn [search_from]. destruct (match_here (c :: l)) as [g|] eqn:Hm.
    + intros [= ->]. by apply match_here_Some.
    + intros (? & ? & ? & ? & pre & post & ->)%IH.
      repeat split; try done. by exists (c :: pre), post.
Qed.

Lemma match_here_standard g1 g2 d tail :
  g1 ≠ [] → Forall (λ c, is_alpha c = true) g1 →
  Forall (λ c, is_alpha c = true) g2 →
  length d = 4%nat → Forall (λ c, is_digit c = true) d →
  match_here (g1 ++ "-"%char :: g2 ++ d ++ tail) = Some (g1, d).
Proof.
  intros Hne Hg1 Hg2 Hlen Hd. unfold match_here.
  assert (letter_run (g1 ++ "-"%char :: g2 ++ d ++ tail) = length g1) as Hrun1.
  { by apply letter_run_app. }
  assert (letter_run (g2 ++ d ++ tail) = length g2) as Hrun2.
  { apply letter_run_app; [done|].
    destruct d as [|a d]; [done|]. simpl.
    apply Forall_cons in Hd as [Ha _].
    revert Ha. unfold is_digit, is_alpha.
    generalize (nat_of_ascii a). intros n Hn.
    apply andb_true_iff in Hn as [?%Nat.leb_le ?%Nat.leb_le].
    apply orb_false_iff. split; apply andb_false_iff.
    - left. apply Nat.leb_gt. lia.
    - left. apply Nat.leb_gt. lia. }
  destruct (letters_greedy_head 1 (g1 ++ "-"%char :: g2 ++ d ++ tail))
    as (tl1 & ->).
  { rewrite Hrun1. destruct g1; [done|]. simpl. lia. }
  rewrite Hrun1, take_app_length, drop_app_length.
  apply first_some_head.
  cbn [optional_dash]. change (Ascii.eqb "-" "-") with true. cbv iota.
  apply first_some_head.
  destruct (letters_greedy_head 0 (g2 ++ d ++ tail)) as (tl2 & ->); [lia|].
  rewrite Hrun2, take_app_length, drop_app_length.
  apply first_some_head.
  by rewrite four_digits_app.
Qed.

Lemma search_from_match l g :
  match_here l = Some g → search_from l = Some g.
Proof. destruct l; cbn [search_from]; by intros ->. Qed.

Lemma re_search_has_digit s month year :
  re_search_month_year s = Some (month, year) →
  ∃ c, c ∈ list_ascii_of_string s ∧ is_digit c = true.
Proof.
  unfold re_search_month_year.
  destruct (search_from _) as [[g1 g3]|] eqn:Hs; [|done]. intros _.
  apply search_from_Some in Hs as (_ & _ & Hlen & Hd & pre & post & ->).
  destruct g3 as [|c g3]; [done|]. apply Forall_cons in Hd as [Hc _].
  exists c. split; [|done]. apply elem_of_app. right. left.
Qed.

(** X14.  The header pattern.  Whatever label it accepts, the month it
    reads is a non-empty run of letters and the year is four digits that
    occur in the label.  On a label made of a run of letters, a dash, an
    optional second run of letters and four digits, the month is the
    first run and the year the four digits, whatever follows them. *)
Theorem header_pattern_reads_month_and_year :
  (∀ col_str month year,
     re_search_month_year col_str = Some (month, year) →
     month ≠ ""%string ∧
     Forall (λ c, is_alpha c = true) (list_ascii_of_string month) ∧
     String.length year = 4%nat ∧
     Forall (λ c, is_digit c = true) (list_ascii_of_string year) ∧
     ∃ pre post, col_str = (pre +:+ year +:+ post)%string) ∧
  (∀ g1 g2 d tail,
     g1 ≠ [] → Forall (λ c, is_alpha c = true) g1 →
     Forall (λ c, is_alpha c = true) g2 →
     length d = 4%nat → Forall (λ c, is_digit c = true) d →
     re_search_month_year
       (string_of_list_ascii (g1 ++ "-"%char :: g2 ++ d ++ tail))
     = Some (string_of_list_ascii g1, string_of_list_ascii d)).
Proof.
  split.
  - intros col_str month year. unfold re_search_month_year.
    destruct (search_from (list_ascii_of_string col_str)) as [[g1 g3]|] eqn:Hs;
      [|done].
    simpl. intros [= <- <-].
    apply search_from_Some in Hs as (Hne & Ha & Hlen & Hd & pre & post & Hl).
    rewrite !list_ascii_of_string_of_list_ascii.
    split; [by destruct g1|]. split; [done|]. split.
    { rewrite <- Hlen. clear. induction g3 as [|c g IH]; simpl; [done|].
      by rewrite IH. }
    split; [done|].
    exists (string_of_list_ascii pre), (string_of_list_ascii post).
    rewrite <- (string_of_list_ascii_of_string col_str), Hl.
    clear. induction pre as [|c pre IH]; simpl.
    + induction g3 as [|c g IH]; simpl; [done|]. by rewrite IH.
    + by rewrite IH.
  - intros g1 g2 d tail Hne Hg1 Hg2 Hlen Hd. unfold re_search_month_year.
    rewrite list_ascii_of_string_of_list_ascii.
    rewrite (search_from_match _ (g1, d)); [done|].
    by apply match_here_standard.
Qed.

Lemma header_pattern_reads_month_and_year_witness :
  re_search_month_year "Apr-Mar2021 (R)" = Some ("Apr", "2021")%string.
Proof.
  apply (proj2 header_pattern_reads_month_and_year
           (list_ascii_of_string "Apr") (list_ascii_of_string "Mar")
           (list_ascii_of_string "2021") (list_ascii_of_string " (R)")).
  - done.
  - by repeat constructor.
  - by repeat constructor.
  - done.
  - by repeat constructor.
Defined.

(** *** The year columns *)

Lemma extract_year_columns_from_elem idx cells i name year month :
  (i, name, year, month) ∈ extract_year_columns_from idx cells ↔
  ∃ cell, (idx ≤ i)%nat ∧ cells !! (i - idx)%nat = Some cell ∧
          name = strip (py_str cell) ∧ (name ∉ non_year_labels) ∧
          re_search_month_year name = Some (month, year).
Proof.
  revert idx. induction cells as [|c cells IH]; intros idx;
    cbn [extract_year_columns_from].
  { split; [by intros ?%not_elem_of_nil|]. by intros (cell & _ & ? & _). }
  assert (∀ P : Prop,
    ((i, name, year, month) ∈ extract_year_columns_from (S idx) cells ∨
     (i = idx ∧ P)) ↔
    ((∃ cell, (S idx ≤ i)%nat ∧ cells !! (i - S idx)%nat = Some cell ∧
        name = strip (py_str cell) ∧ (name ∉ non_year_labels) ∧
        re_search_month_year name = Some (month, year)) ∨ (i = idx ∧ P)))
    as Hshift.
  { intros P. by rewrite IH. }
  assert ((∃ cell, (idx ≤ i)%nat ∧ (c :: cells) !! (i - idx)%nat = Some cell ∧
             name = strip (py_str cell) ∧ (name ∉ non_year_labels) ∧
             re_search_month_year name = Some (month, year)) ↔
          ((∃ cell, (S idx ≤ i)%nat ∧ cells !! (i - S idx)%nat = Some cell ∧
             name = strip (py_str cell) ∧ (name ∉ non_year_labels) ∧
             re_search_month_year name = Some (month, year)) ∨
           (i = idx ∧ name = strip (py_str c) ∧ (name ∉ non_year_labels) ∧
            re_search_month_year name = Some (month, year)))) as ->.
  { split.
    - intros (cell & Hle & Hl & Hrest).
      destruct (decide (i = idx)) as [->|Hne].
      + right. rewrite Nat.sub_diag in Hl. simpl in Hl.
        injection Hl as <-. done.
      + left. exists cell. split; [lia|]. split; [|done].
        replace (i - idx)%nat with (S (i - S idx)) in Hl by lia. done.
    - intros [(cell & Hle & Hl & Hrest)|(-> & Hrest)].
      + exists cell. split; [lia|]. split; [|done].
        replace (i - idx)%nat with (S (i - S idx)) by lia. done.
      + exists c. split; [lia|]. rewrite Nat.sub_diag. done. }
  rewrite <- Hshift.
  destruct (bool_decide (strip (py_str c) ∈ non_year_labels)) eqn:Hskip.
  - apply bool_decide_eq_true in Hskip. split; [by left|].
    intros [?|(_ & -> & Hn & _)]; done.
  - apply bool_decide_eq_false in Hskip.
    destruct (re_search_month_year (strip (py_str c))) as [[mo ye]|] eqn:Hre.
    + rewrite elem_of_cons. split.
      * intros [[= -> -> -> ->]|?]; [right|by left]. done.
      * intros [?|(-> & -> & _ & Hre')]; [by right|left].
        rewrite Hre in Hre'. by injection Hre' as -> ->.
    + split; [by left|]. intros [?|(_ & -> & _ & Hre')]; [done|].
      by rewrite Hre in Hre'.
Qed.

Lemma extract_year_columns_from_sorted idx cells :
  StronglySorted (λ a b : nat * string * string * string,
                    (a.1.1.1 < b.1.1.1)%nat)
    (extract_year_columns_from idx cells).
Proof.
  revert idx. induction cells as [|c cells IH]; intros idx;
    cbn [extract_year_columns_from]; [constructor|].
  destruct (bool_decide _); [apply IH|].
  destruct (re_search_month_year _) as [[mo ye]|]; [|apply IH].
  constructor; [apply IH|].
  apply Forall_forall. intros [[[i name] year] month] Hin.
  apply extract_year_columns_from_elem in Hin as (_ & Hle & _). simpl. lia.
Qed.

Lemma find_country_from_Some idx cells cidx :
  find_country_from idx cells = Some cidx →
  ∃ cell, (idx ≤ cidx)%nat ∧ cells !! (cidx - idx)%nat = Some cell ∧
          lower (strip (py_str cell)) = "country"%string ∧
          ∀ j cell', (j < cidx - idx)%nat → cells !! j = Some cell' →
                     lower (strip (py_str cell')) ≠ "country"%string.
Proof.
  revert idx. induction cells as [|c cells IH]; intros idx;
    cbn [find_country_from]; [done|].
  destruct (String.eqb (lower (strip (py_str c))) "country") eqn:Hc.
  - intros [= <-]. apply String.eqb_eq in Hc. exists c.
    rewrite Nat.sub_diag. split; [lia|]. split; [done|]. split; [done|].
    intros j ? ?. lia.
  - intros (cell & Hle & Hl & Hlow & Hfirst)%IH.
    apply String.eqb_neq in Hc. exists cell. split; [lia|].
    replace (cidx - idx)%nat with (S (cidx - S idx)) by lia.
    split; [done|]. split; [done|].
    intros [|j] cell' Hj; simpl.
    + by intros [= <-].
    + apply Hfirst. lia.
Qed.

Lemma lower_char_digit c : is_digit c = true → lower_char c = c.
Proof.
  unfold is_digit, lower_char.
  intros [?%Nat.leb_le ?%Nat.leb_le]%andb_true_iff.
  destruct (_ || _) eqn:Hcase; [|done].
  apply orb_true_iff in Hcase
    as [[?%Nat.leb_le _]%andb_true_iff|[[?%Nat.leb_le _]%andb_true_iff _]%andb_true_iff];
    lia.
Qed.

Lemma country_label_has_no_digit s c :
  lower s = "country"%string → c ∈ list_ascii_of_string s →
  is_digit c = false.
Proof.
  intros Hlow Hin. destruct (is_digit c) eqn:Hd; [|done]. exfalso.
  assert (c ∈ list_ascii_of_string (lower s)) as Hin'.
  { unfold lower. rewrite list_ascii_of_string_of_list_ascii.
    rewrite <- (lower_char_digit c Hd).
    apply list_elem_of_In, in_map, list_elem_of_In, Hin. }
  rewrite Hlow in Hin'.
  assert (Forall (λ c, is_digit c = false) (list_ascii_of_string "country"))
    as Hall by (by repeat constructor).
  rewrite Forall_forall in Hall. by rewrite (Hall c Hin') in Hd.
Qed.

(** X15.  The value columns that [extract_year_columns] finds are the
    cells of the header whose stripped label is none of the skipped
    labels and matches the header pattern, each with its position, in
    increasing order of position; and the column that holds the
    countries is never one of them. *)
Theorem year_columns_are_labelled_cells header :
  StronglySorted (λ a b : nat * string * string * string,
                    (a.1.1.1 < b.1.1.1)%nat)
    (extract_year_columns header) ∧
  (∀ idx name year month,
     (idx, name, year, month) ∈ extract_year_columns header ↔
     ∃ cell, header !! idx = Some cell ∧ name = strip (py_str cell) ∧
             (name ∉ non_year_labels) ∧
             re_search_month_year name = Some (month, year)) ∧
  (∀ cidx name year month,
     find_country_from 0 header = Some cidx →
     (cidx, name, year, month) ∉ extract_year_columns header).
Proof.
  split; [apply extract_year_columns_from_sorted|]. split.
  - intros idx name year month. unfold extract_year_columns.
    rewrite extract_year_columns_from_elem. rewrite Nat.sub_0_r.
    split.
    + intros (cell & _ & ?). by exists cell.
    + intros (cell & ?). exists cell. split; [lia|done].
  - intros cidx name year month Hc Hin.
    apply find_country_from_Some in Hc as (cell & _ & Hl & Hlow & _).
    apply extract_year_columns_from_elem in Hin
      as (cell' & _ & Hl' & -> & _ & Hre).
    rewrite Nat.sub_0_r in Hl, Hl'. rewrite Hl in Hl'. injection Hl' as <-.
    destruct (re_search_has_digit _ _ _ Hre) as (c & Hin & Hd).
    by rewrite (country_label_has_no_digit _ c Hlow Hin) in Hd.
Qed.

(** *** The records of one artifact *)

Lemma columns_loop_elem hscode cn data_type row country ycs recs r :
  columns_loop hscode cn data_type row country ycs = Some recs → r ∈ recs →
  HSCod r = hscode ∧ Commodity r = cn ∧ Type_ r = data_type ∧
  Country r = country ∧
  ∃ idx name year month v,
    (idx, name, year, month) ∈ ycs ∧ row !! idx = Some v ∧
    pd_isna v = false ∧ is_empty_str v = false ∧
    py_float v = Float (Value r) ∧ Date r = (month +:+ "-" +:+ year)%string.
Proof.
  revert recs. induction ycs as [|[[[idx name] year] month] ycs IH];
    intros recs; cbn [columns_loop].
  { intros [= <-] Hin. by apply not_elem_of_nil in Hin. }
  assert (∀ recs', columns_loop hscode cn data_type row country ycs = Some recs' →
            r ∈ recs' →
            HSCod r = hscode ∧ Commodity r = cn ∧ Type_ r = data_type ∧
            Country r = country ∧
            ∃ idx' name' year' month' v,
              (idx', name', year', month') ∈ (idx, name, year, month) :: ycs ∧
              row !! idx' = Some v ∧ pd_isna v = false ∧
              is_empty_str v = false ∧ py_float v = Float (Value r) ∧
              Date r = (month' +:+ "-" +:+ year')%string) as Hrec.
  { intros recs' Hl Hin.
    destruct (IH recs' Hl Hin)
      as (? & ? & ? & ? & i & n & y & m & v & ? & ?).
    repeat split; try done. exists i, n, y, m, v. split; [by right|done]. }
  destruct (row !! idx) as [value|] eqn:Hv; [|done].
  destruct (pd_isna value || is_empty_str value) eqn:Hskip; [apply Hrec|].
  apply orb_false_iff in Hskip as [Hna Hem].
  destruct (py_float value) as [x| |] eqn:Hf; [|apply Hrec|done].
  destruct (columns_loop hscode cn data_type row country ycs) as [more|];
    [|done].
  simpl. intros [= <-] [->|Hin]%elem_of_cons; [|by apply (Hrec more)].
  simpl. repeat split; try done.
  exists idx, name, year, month, value. split; [left|done].
Qed.

Lemma rows_loop_elem hscode cn data_type cidx ycs rows recs r :
  rows_loop hscode cn data_type cidx ycs rows = Some recs → r ∈ recs →
  ∃ row c, row ∈ rows ∧ row !! cidx = Some c ∧
    Country r = strip (py_str c) ∧
    (Country r ∉ [""; "nan"; "None"]%string) ∧
    ∃ recs', columns_loop hscode cn data_type row (Country r) ycs = Some recs' ∧
             r ∈ recs'.
Proof.
  revert recs. induction rows as [|row rows IH]; intros recs;
    cbn [rows_loop].
  { intros [= <-] Hin. by apply not_elem_of_nil in Hin. }
  assert (∀ recs', rows_loop hscode cn data_type cidx ycs rows = Some recs' →
            r ∈ recs' →
            ∃ row' c, row' ∈ row :: rows ∧ row' !! cidx = Some c ∧
              Country r = strip (py_str c) ∧
              (Country r ∉ [""; "nan"; "None"]%string) ∧
              ∃ recs'', columns_loop hscode cn data_type row' (Country r) ycs
                        = Some recs'' ∧ r ∈ recs'') as Hrec.
  { intros recs' Hl Hin.
    destruct (IH recs' Hl Hin) as (row' & c & ? & ?).
    exists row', c. split; [by right|done]. }
  destruct (row !! cidx) as [c|] eqn:Hc; [|done].
  destruct (bool_decide (strip (py_str c) ∈ [""; "nan"; "None"]%string))
    eqn:Hskip; [apply Hrec|].
  apply bool_decide_eq_false in Hskip.
  destruct (columns_loop hscode cn data_type row (strip (py_str c)) ycs)
    as [here|] eqn:Hcols; [|done].
  destruct (rows_loop hscode cn data_type cidx ycs rows) as [more|]; [|done].
  simpl. intros [= <-] [Hin|Hin]%elem_of_app; [|by apply (Hrec more)].
  destruct (columns_loop_elem _ _ _ _ _ _ _ _ Hcols Hin)
    as (_ & _ & _ & Hcountry & _).
  exists row, c. split; [left|]. split; [done|]. rewrite Hcountry.
  split; [done|]. split; [done|]. by exists here.
Qed.

Lemma records_from_file file hscode cn data_type recs r :
  process_monthly_file file hscode cn data_type = Some recs → r ∈ recs →
  HSCod r = hscode ∧ Commodity r = cn ∧ Type_ r = data_type.
Proof.
  unfold process_monthly_file. destruct file as [|df]; [done|].
  destruct (length df <? 3)%nat; [done|].
  destruct (df !! 2%nat) as [header|] eqn:Hh; [|done]. simpl.
  destruct (extract_year_columns header) as [|yc ycs] eqn:Hy; [done|].
  destruct (find_country_from 0 header) as [cidx|] eqn:Hc; [|done]. simpl.
  destruct (rows_loop hscode cn data_type cidx (yc :: ycs) (drop 3 df))
    as [long|] eqn:Hrows; [|done]. simpl.
  destruct long as [|r0 long]; [done|]. intros [= <-] Hin.
  destruct (rows_loop_elem _ _ _ _ _ _ _ _ Hrows Hin)
    as (row & c & _ & _ & _ & _ & recs' & Hcols & Hin').
  destruct (columns_loop_elem _ _ _ _ _ _ _ _ Hcols Hin')
    as (? & ? & ? & _).
  done.
Qed.

(** X16.  Where the records of an artifact come from.  When
    [process_monthly_file] returns records there is at least one, and
    each of them carries the code, the commodity name and the type it was
    given; its country is the stripped text of the country cell of a data
    row (a row after the third), and is none of "", "nan", "None"; its
    value is what [float] made of the cell of that row under a year
    column, a cell that is neither missing nor empty; and its date is the
    month and the year of that column joined by a dash. *)
Theorem records_come_from_cells file hscode cn data_type recs :
  process_monthly_file file hscode cn data_type = Some recs →
  recs ≠ [] ∧
  ∃ df header cidx,
    file = Sheet df ∧ df !! 2%nat = Some header ∧
    find_country_from 0 header = Some cidx ∧
    ∀ r, r ∈ recs →
      HSCod r = hscode ∧ Commodity r = cn ∧ Type_ r = data_type ∧
      ∃ row c idx name year month v,
        row ∈ drop 3 df ∧ row !! cidx = Some c ∧
        Country r = strip (py_str c) ∧
        (Country r ∉ [""; "nan"; "None"]%string) ∧
        (idx, name, year, month) ∈ extract_year_columns header ∧
        row !! idx = Some v ∧ pd_isna v = false ∧ is_empty_str v = false ∧
        py_float v = Float (Value r) ∧
        Date r = (month +:+ "-" +:+ year)%string.
Proof.
  unfold process_monthly_file. destruct file as [|df]; [done|].
  destruct (length df <? 3)%nat; [done|].
  destruct (df !! 2%nat) as [header|] eqn:Hh; [|done]. simpl.
  destruct (extract_year_columns header) as [|yc ycs] eqn:Hy; [done|].
  destruct (find_country_from 0 header) as [cidx|] eqn:Hc; [|done]. simpl.
  destruct (rows_loop hscode cn data_type cidx (yc :: ycs) (drop 3 df))
    as [long|] eqn:Hrows; [|done]. simpl.
  destruct long as [|r0 long]; [done|]. intros [= <-]. split; [done|].
  exists df, header, cidx. split; [done|]. split; [done|]. split; [done|].
  intros r Hin.
  destruct (rows_loop_elem _ _ _ _ _ _ _ _ Hrows Hin)
    as (row & c & Hrow & Hcell & Hcountry & Hvalid & recs' & Hcols & Hin').
  destruct (columns_loop_elem _ _ _ _ _ _ _ _ Hcols Hin')
    as (? & ? & ? & _ & idx & name & year & month & v & ? & ? & ? & ? & ? & ?).
  repeat split; try done.
  exists row, c, idx, name, year, month, v. rewrite Hy. done.
Qed.

Lemma records_come_from_cells_witness :
  [record_a 1] ≠ [] ∧
  ∃ df header cidx,
    germany "1" = Sheet df ∧ df !! 2%nat = Some header ∧
    find_country_from 0 header = Some cidx ∧
    ∀ r, r ∈ [record_a 1] →
      HSCod r = "26011100"%string ∧ Commodity r = "Iron ore"%string ∧
      Type_ r = "Export"%string ∧
      ∃ row c idx name year month v,
        row ∈ drop 3 df ∧ row !! cidx = Some c ∧
        Country r = strip (py_str c) ∧
        (Country r ∉ [""; "nan"; "None"]%string) ∧
        (idx, name, year, month) ∈ extract_year_columns header ∧
        row !! idx = Some v ∧ pd_isna v = false ∧ is_empty_str v = false ∧
        py_float v = Float (Value r) ∧
        Date r = (month +:+ "-" +:+ year)%string.
Proof.
  exact (records_come_from_cells (germany "1") "26011100" "Iron ore" "Export"
           [record_a 1] eq_refl).
Defined.

(** *** Deduplication *)


Lemma drop_duplicates_seen_keys seen l k :
  k ∈ key <$> drop_duplicates_seen seen l ↔ k ∈ key <$> l ∧ k ∉ seen.
Proof.
  revert seen. induction l as [|r l IH]; intros seen;
    cbn [drop_duplicates_seen].
  { rewrite fmap_nil. split; [by intros ?%not_elem_of_nil|].
    by intros [?%not_elem_of_nil _]. }
  destruct (bool_decide (key r ∈ seen)) eqn:Hseen.
  - apply bool_decide_eq_true in Hseen.
    rewrite IH, fmap_cons, elem_of_cons. split; [intros [? ?]; by auto|].
    intros [[->|?] ?]; done.
  - apply bool_decide_eq_false in Hseen.
    rewrite !fmap_cons, elem_of_cons, IH, not_elem_of_cons, elem_of_cons.
    destruct (decide (k = key r)) as [->|Hne]; naive_solver.
Qed.

Lemma drop_duplicates_seen_id seen l :
  NoDup (key <$> l) → (∀ k, k ∈ key <$> l → k ∉ seen) →
  drop_duplicates_seen seen l = l.
Proof.
  revert seen. induction l as [|r l IH]; intros seen Hnd Hseen;
    cbn [drop_duplicates_seen]; [done|].
  rewrite fmap_cons in Hnd. apply NoDup_cons in Hnd as [Hr Hnd].
  rewrite bool_decide_eq_false_2 by (apply Hseen; rewrite fmap_cons; left).
  f_equal. apply IH; [done|].
  intros k Hk [->|Hin]%elem_of_cons; [done|].
  apply (Hseen k); [|done]. rewrite fmap_cons. by right.
Qed.

(** X17.  What [drop_duplicates] keeps.  Its result is a subsequence of
    its argument (nothing is invented or reordered) with the same set of
    keys; a frame whose keys are all different is returned as it is; and
    dropping duplicates twice is the same as once. *)
Theorem drop_duplicates_is_a_projection l :
  drop_duplicates l `sublist_of` l ∧
  (∀ k, k ∈ key <$> drop_duplicates l ↔ k ∈ key <$> l) ∧
  (NoDup (key <$> l) → drop_duplicates l = l) ∧
  drop_duplicates (drop_duplicates l) = drop_duplicates l.
Proof.
  unfold drop_duplicates. split; [apply drop_duplicates_seen_sublist|].
  split; [|split].
  - intros k. rewrite drop_duplicates_seen_keys. split; [by intros [? _]|].
    intros ?. split; [done|]. apply not_elem_of_nil.
  - intros Hnd. apply drop_duplicates_seen_id; [done|].
    intros k _. apply not_elem_of_nil.
  - apply drop_duplicates_seen_id; [apply drop_duplicates_seen_NoDup|].
    intros k _. apply not_elem_of_nil.
Qed.

(** *** The directory of one code *)

Lemma excel_files_insert_other (d : gmap string artifact) f x :
  endswith f ".xlsx" = false →
  excel_files_of (<[f := x]> d) = excel_files_of d.
Proof.
  intros Hf. apply (StronglySorted_unique String.le).
  - apply excel_files_sorted.
  - apply excel_files_sorted.
  - apply NoDup_Permutation; [apply excel_files_NoDup..|].
    intros g. rewrite !elem_of_excel_files.
    destruct (decide (g = f)) as [->|Hne].
    + rewrite Hf. split; by intros [? _].
    + by rewrite lookup_insert_ne.
Qed.

Lemma omap_nil_iff {A B} (h : A → option B) (l : list A) :
  omap h l = [] ↔ ∀ x, x ∈ l → h x = None.
Proof.
  induction l as [|x l IH]; simpl.
  { split; [|done]. intros _ x Hx. by apply not_elem_of_nil in Hx. }
  destruct (h x) eqn:Hx.
  - split; [done|]. intros Hall. specialize (Hall x ltac:(left)). congruence.
  - rewrite IH. split.
    + intros Hall y [->|?]%elem_of_cons; [done|by apply Hall].
    + intros Hall y Hy. apply Hall. by right.
Qed.

(** X18.  The frame of one code.  [process_hscode_directory] returns
    nothing exactly when no .xlsx file of the directory yields a record;
    every record it returns comes from the frame of one of the .xlsx
    files, with the code and the commodity name of the call and the type
    "Export"; and a file without the .xlsx suffix has no effect on the
    result, whatever it holds. *)
Theorem directory_frame_comes_from_xlsx_files d hscode cn :
  (process_hscode_directory d hscode cn = None ↔
   ∀ f, endswith f ".xlsx" = true → monthly_frame d hscode cn f = None) ∧
  (∀ out r, process_hscode_directory d hscode cn = Some out → r ∈ out →
     HSCod r = hscode ∧ Commodity r = cn ∧ Type_ r = "Export"%string ∧
     ∃ f recs, endswith f ".xlsx" = true ∧
               monthly_frame d hscode cn f = Some recs ∧ r ∈ recs) ∧
  (∀ f x, endswith f ".xlsx" = false →
     process_hscode_directory (<[f := x]> d) hscode cn
     = process_hscode_directory d hscode cn).
Proof.
  split; [|split].
  - unfold process_hscode_directory.
    destruct (omap _ (excel_files_of d)) as [|fr frs] eqn:Hall.
    + split; [|done]. intros _ f Hf.
      destruct (d !! f) as [x|] eqn:Hd.
      * apply (proj1 (omap_nil_iff _ _) Hall).
        apply elem_of_excel_files. by split.
      * unfold monthly_frame. by rewrite Hd.
    + split; [done|]. intros Hnone. exfalso.
      assert (fr ∈ omap (monthly_frame d hscode cn) (excel_files_of d)) as Hin
        by (rewrite Hall; left).
      apply list_elem_of_omap in Hin as (f & Hf & Hfr).
      apply elem_of_excel_files in Hf as [Hf _].
      by rewrite (Hnone f Hf) in Hfr.
  - intros out r. unfold process_hscode_directory.
    destruct (omap _ (excel_files_of d)) as [|fr frs] eqn:Hall; [done|].
    intros [= <-] Hin.
    pose proof (elem_of_sublist _ _ _ Hin
                  (drop_duplicates_seen_sublist [] (concat (fr :: frs))))
      as Hin'.
    apply elem_of_concat in Hin' as (recs & Hr & Hrecs).
    rewrite <- Hall in Hrecs.
    apply list_elem_of_omap in Hrecs as (f & Hf & Hfr).
    apply elem_of_excel_files in Hf as [Hf _].
    assert (HSCod r = hscode ∧ Commodity r = cn ∧ Type_ r = "Export"%string)
      as (? & ? & ?).
    { unfold monthly_frame in Hfr.
      destruct (d !! f) as [file|]; [|done]. simpl in Hfr.
      destruct (process_monthly_file file hscode cn "Export") as [df|] eqn:Hp;
        [|done].
      simpl in Hfr. destruct (0 <? length df)%nat; [|done].
      injection Hfr as ->.
      destruct (records_from_file _ _ _ _ _ _ Hp Hr) as (? & ? & ?). done. }
    repeat split; try done. by exists f, recs.
  - intros f x Hf. unfold process_hscode_directory.
    rewrite (excel_files_insert_other d f x Hf).
    rewrite (omap_ext_in (monthly_frame (<[f := x]> d) hscode cn)
               (monthly_frame d hscode cn)); [done|].
    intros g [Hg _]%elem_of_excel_files. unfold monthly_frame.
    rewrite lookup_insert_ne; [done|]. intros ->. congruence.
Qed.

Lemma directory_frame_comes_from_xlsx_files_witness :
  process_hscode_directory
    (<["notes.txt"%string := headless_sheet]> april_august_dir)
    "26011100" "Iron ore"
  = process_hscode_directory april_august_dir "26011100" "Iron ore".
Proof.
  apply (directory_frame_comes_from_xlsx_files april_august_dir
           "26011100" "Iron ore").
  reflexivity.
Defined.

End SheetFacts.

(** ** Facts about the consolidation *)

Module ConsolidateFacts.
Import PyStr Transform Consolidate TransformFacts CatalogFacts SheetFacts.

(** *** The order of [sort_values] *)

Lemma lexico_le_trans a b c (P Q R : Prop) :
  (P → Q → R) → lexico_le a b P → lexico_le b c Q → lexico_le a c R.
Proof.
  unfold lexico_le. intros HR [[Hab Hle]|[-> HP]] [[Hbc Hle']|[-> HQ]].
  - left. split; [|by etrans]. intros ->. apply Hab.
    by apply (anti_symm String.le).
  - left. done.
  - left. done.
  - right. split; [done|]. by apply HR.
Qed.

Lemma lexico_le_total a b (P Q : Prop) :
  P ∨ Q → lexico_le a b P ∨ lexico_le b a Q.
Proof.
  unfold lexico_le. intros HPQ. destruct (decide (a = b)) as [->|Hne].
  - destruct HPQ; [left|right]; right; done.
  - destruct (total String.le a b); [left|right]; left; done.
Qed.

Lemma lexico_le_antisym a b (P Q : Prop) :
  lexico_le a b P → lexico_le b a Q → a = b ∧ P ∧ Q.
Proof.
  unfold lexico_le. intros [[Hab Hle]|[-> HP]] [[Hba Hle']|[Heq HQ]];
    try done.
  exfalso. apply Hab. by apply (anti_symm String.le).
Qed.

Lemma key_le_trans a b c : key_le a b → key_le b c → key_le a c.
Proof.
  unfold key_le. apply lexico_le_trans. apply lexico_le_trans.
  intros. by etrans.
Qed.

Lemma key_le_total a b : key_le a b ∨ key_le b a.
Proof.
  unfold key_le. apply lexico_le_total, lexico_le_total.
  apply (total String.le).
Qed.

Lemma key_le_antisym a b : key_le a b → key_le b a → a = b.
Proof.
  unfold key_le. intros H1 H2.
  destruct (lexico_le_antisym _ _ _ _ H1 H2) as (E1 & H1' & H2').
  destruct (lexico_le_antisym _ _ _ _ H1' H2') as (E2 & H1'' & H2'').
  pose proof (anti_symm String.le _ _ H1'' H2'') as E3.
  destruct a as [[a1 a2] a3], b as [[b1 b2] b3]. simpl in *. congruence.
Qed.

Lemma sort_key_key r1 r2 : sort_key r1 = sort_key r2 ↔ key r1 = key r2.
Proof. unfold sort_key, key. split; intros [= -> -> ->]; done. Qed.

Lemma insert_sorted_Permutation r l : insert_sorted r l ≡ₚ r :: l.
Proof.
  induction l as [|x l IH]; cbn [insert_sorted]; [done|].
  destruct (bool_decide (sort_le r x)); [done|].
  rewrite IH. apply Permutation_swap.
Qed.

Lemma insert_sorted_sorted r l :
  StronglySorted sort_le l → StronglySorted sort_le (insert_sorted r l).
Proof.
  induction 1 as [|x l Hs IH Hx]; cbn [insert_sorted].
  { by repeat constructor. }
  destruct (bool_decide (sort_le r x)) eqn:Hle.
  - apply bool_decide_eq_true in Hle. constructor; [by constructor|].
    constructor; [done|]. eapply Forall_impl; [exact Hx|].
    intros y Hy. by apply (key_le_trans _ (sort_key x)).
  - apply bool_decide_eq_false in Hle. constructor; [done|].
    rewrite insert_sorted_Permutation. constructor; [|done].
    by destruct (key_le_total (sort_key r) (sort_key x)).
Qed.

Lemma insert_sorted_head r l :
  Forall (sort_le r) l → insert_sorted r l = r :: l.
Proof.
  destruct 1 as [|x l Hx _]; cbn [insert_sorted]; [done|].
  by rewrite bool_decide_eq_true_2.
Qed.

Lemma sort_values_Permutation l : sort_values l ≡ₚ l.
Proof.
  induction l as [|r l IH]; [done|]. unfold sort_values in *. simpl.
  by rewrite insert_sorted_Permutation, IH.
Qed.

Lemma sort_values_sorted l : StronglySorted sort_le (sort_values l).
Proof.
  induction l as [|r l IH]; [constructor|].
  by apply insert_sorted_sorted.
Qed.

Lemma sort_values_id l : StronglySorted sort_le l → sort_values l = l.
Proof.
  induction 1 as [|r l Hs IH Hr]; [done|]. unfold sort_values in *. simpl.
  rewrite IH. by apply insert_sorted_head.
Qed.

Lemma NoDup_key_inj (l : list LongRecord) r1 r2 :
  NoDup (key <$> l) → r1 ∈ l → r2 ∈ l → key r1 = key r2 → r1 = r2.
Proof.
  induction l as [|x l IH]; [by intros _ ?%not_elem_of_nil|].
  rewrite fmap_cons. intros [Hx Hnd]%NoDup_cons.
  intros [->|H1]%elem_of_cons [->|H2]%elem_of_cons Hk; [done| | |by apply IH].
  - exfalso. apply Hx. rewrite Hk. by apply list_elem_of_fmap_2.
  - exfalso. apply Hx. rewrite <- Hk. by apply list_elem_of_fmap_2.
Qed.

Lemma sort_values_canonical l1 l2 :
  l1 ≡ₚ l2 → NoDup (key <$> l1) → sort_values l1 = sort_values l2.
Proof.
  intros Hp Hnd. apply (StronglySorted_unique_strong sort_le).
  - intros x1 x2 Hx1 Hx2 H12 H21.
    rewrite sort_values_Permutation in Hx1.
    rewrite sort_values_Permutation, <- Hp in Hx2.
    apply (NoDup_key_inj l1); [done..|].
    apply sort_key_key. by apply key_le_antisym.
  - apply sort_values_sorted.
  - apply sort_values_sorted.
  - by rewrite !sort_values_Permutation.
Qed.

Lemma concat_Permutation {A} (ls1 ls2 : list (list A)) :
  ls1 ≡ₚ ls2 → concat ls1 ≡ₚ concat ls2.
Proof.
  induction 1 as [|x l1 l2 _ IH|x y l|l1 l2 l3 _ IH1 _ IH2]; simpl.
  - done.
  - by rewrite IH.
  - rewrite !app_assoc. f_equiv. apply Permutation_app_comm.
  - by etrans.
Qed.

(** *** The lookup of commodity names *)

Lemma load_hscode_lookup_snoc rows code description :
  load_hscode_lookup (rows ++ [(code, description)])
  = <[strip (py_str code) := description]> (load_hscode_lookup rows).
Proof. unfold load_hscode_lookup. by rewrite foldl_snoc. Qed.

(** X19.  The lookup that [load_hscode_lookup] builds maps a code to the
    description of the last row of the sheet whose code cell, as text
    and stripped, reads that code, and holds nothing for the other
    codes, which [main] then names "Unknown Commodity (code)". *)
Theorem lookup_last_row_wins rows hscode :
  load_hscode_lookup rows !! hscode = last_description rows hscode ∧
  (last_description rows hscode = None →
   commodity_name_of (load_hscode_lookup rows) hscode
   = unknown_commodity hscode) ∧
  (∀ rows' code description,
     rows = rows' ++ [(code, description)] →
     strip (py_str code) = hscode →
     commodity_name_of (load_hscode_lookup rows) hscode = description).
Proof.
  assert (load_hscode_lookup rows !! hscode = last_description rows hscode)
    as Hlookup.
  { unfold last_description.
    induction rows as [|[code description] rows IH] using rev_ind; [done|].
    rewrite load_hscode_lookup_snoc, reverse_snoc. cbn [list_find].
    destruct (decide (strip (py_str (code, description).1) = hscode))
      as [<-|Hne]; simpl in *.
    - by rewrite lookup_insert_eq.
    - rewrite lookup_insert_ne by done. rewrite IH.
      by destruct (list_find _ (reverse rows)) as [[i row]|]. }
  split; [done|]. split.
  - intros Hnone. unfold commodity_name_of. by rewrite Hlookup, Hnone.
  - intros rows' code description -> <-. unfold commodity_name_of.
    by rewrite load_hscode_lookup_snoc, lookup_insert_eq.
Qed.

Lemma lookup_last_row_wins_witness :
  commodity_name_of
    (load_hscode_lookup
       [(CInt 26011100, "Iron"%string); (CStr " 26011100 ", "Iron ore"%string)])
    "26011100" = "Iron ore"%string.
Proof.
  apply (proj2 (proj2 (lookup_last_row_wins
           [(CInt 26011100, "Iron"%string); (CStr " 26011100 ", "Iron ore"%string)]
           "26011100")) [(CInt 26011100, "Iron"%string)] (CStr " 26011100 ")
           "Iron ore"%string); reflexivity.
Defined.

(** **** Codes read as floats *)

Lemma elem_of_string_app c (s t : string) :
  c ∈ list_ascii_of_string (s +:+ t) ↔
  c ∈ list_ascii_of_string s ∨ c ∈ list_ascii_of_string t.
Proof. by rewrite list_ascii_of_string_app, elem_of_app. Qed.

Lemma lstrip_chars_keeps c l :
  c ∈ l → isspace c = false → c ∈ lstrip_chars l.
Proof.
  intros Hin Hc. destruct (lstrip_chars_spec l) as (ws & Heq & Hws & _).
  rewrite Heq in Hin. apply elem_of_app in Hin as [Hin|Hin]; [|done].
  rewrite Forall_forall in Hws. by rewrite (Hws c Hin) in Hc.
Qed.

Lemma strip_keeps c s :
  c ∈ list_ascii_of_string s → isspace c = false →
  c ∈ list_ascii_of_string (strip s).
Proof.
  intros Hin Hc. unfold strip, strip_chars.
  rewrite list_ascii_of_string_of_list_ascii.
  apply list_elem_of_In, (proj1 (in_rev _ _)), list_elem_of_In.
  apply lstrip_chars_keeps; [|done].
  apply list_elem_of_In, (proj1 (in_rev _ _)), list_elem_of_In.
  by apply lstrip_chars_keeps.
Qed.

Lemma repr_digits_mark ds decpt :
  "."%char ∈ list_ascii_of_string (repr_digits ds decpt) ∨
  "e"%char ∈ list_ascii_of_string (repr_digits ds decpt).
Proof.
  unfold repr_digits.
  destruct ((decpt <=? -4) || (16 <? decpt)).
  { right. rewrite !elem_of_string_app. right. left. simpl. left. }
  left. destruct (decpt <=? 0).
  { rewrite elem_of_string_app. left. simpl. right. left. }
  destruct (Z.of_nat (length ds) <=? decpt).
  { rewrite elem_of_string_app. right. simpl. left. }
  rewrite !elem_of_string_app. right. left. simpl. left.
Qed.

Lemma float_repr_mark x :
  ∃ c, c ∈ list_ascii_of_string (float_repr x) ∧
       is_digit c = false ∧ isspace c = false.
Proof.
  assert (Hinf : ∀ neg : bool,
            ∃ c, c ∈ list_ascii_of_string (if neg then "-inf" else "inf")%string ∧
                 is_digit c = false ∧ isspace c = false).
  { intros neg. exists "n"%char. split; [|done]. destruct neg; simpl.
    - right. right. left.
    - right. left. }
  assert (Hnan : ∃ c, c ∈ list_ascii_of_string "nan" ∧
                      is_digit c = false ∧ isspace c = false).
  { exists "n"%char. split; [|done]. simpl. left. }
  assert (Hzero : ∃ c, c ∈ list_ascii_of_string "-0.0" ∧
                       is_digit c = false ∧ isspace c = false).
  { exists "."%char. split; [|done]. simpl. right. right. left. }
  destruct x as [m e|neg| |]; cbn [float_repr]; [|apply Hinf|apply Hnan|apply Hzero].
  destruct (binary64_of (m <? 0) (Z.abs m) e) as [m' e'|neg| |];
    [|apply Hinf|apply Hnan|apply Hzero].
  destruct (m' =? 0).
  { exists "."%char. split; [simpl; right; left|done]. }
  destruct (shortest_digits _ _ _ _ _ _) as [c k].
  destruct (drop_zeros _ k) as [rd k'].
  destruct (repr_digits_mark (rev rd) (Z.of_nat (length (rev rd)) + k'))
    as [H|H].
  - exists "."%char. split; [|done]. rewrite elem_of_string_app. by right.
  - exists "e"%char. split; [|done]. rewrite elem_of_string_app. by right.
Qed.

Lemma load_hscode_lookup_None rows hscode :
  (∀ row, row ∈ rows → strip (py_str row.1) ≠ hscode) →
  load_hscode_lookup rows !! hscode = None.
Proof.
  induction rows as [|[code description] rows IH] using rev_ind; [done|].
  intros Hall. rewrite load_hscode_lookup_snoc, lookup_insert_ne.
  - apply IH. intros row Hrow. apply Hall, elem_of_app. by left.
  - apply (Hall (code, description)), elem_of_app. right. left.
Qed.

(** X20.  A code cell that the sheet gives as a float never names a
    directory whose name is made of digits: the text of a float holds a
    point, an exponent mark or a letter.  With a sheet whose code cells
    are all floats, every such directory gets the placeholder name. *)
Theorem float_codes_never_match rows hscode :
  Forall (λ row : cell * string, ∃ x, row.1 = CFloat x) rows →
  Forall (λ c, is_digit c = true) (list_ascii_of_string hscode) →
  commodity_name_of (load_hscode_lookup rows) hscode
  = unknown_commodity hscode.
Proof.
  intros Hrows Hdigits. unfold commodity_name_of.
  rewrite load_hscode_lookup_None; [done|].
  intros [code description] Hrow Heq. simpl in Heq.
  rewrite Forall_forall in Hrows.
  destruct (Hrows _ Hrow) as (x & Hx). simpl in Hx. subst code.
  destruct (float_repr_mark x) as (c & Hin & Hnd & Hns).
  apply (strip_keeps c) in Hin; [|done].
  simpl in Heq. rewrite Heq in Hin.
  rewrite Forall_forall in Hdigits. by rewrite (Hdigits c Hin) in Hnd.
Qed.

Lemma float_codes_never_match_witness :
  commodity_name_of
    (load_hscode_lookup [(CFloat (Finite 26011100 0), "Iron ore"%string)])
    "26011100" = "Unknown Commodity (26011100)"%string.
Proof.
  apply (float_codes_never_match
           [(CFloat (Finite 26011100 0), "Iron ore"%string)] "26011100").
  - repeat constructor. by eexists.
  - by repeat constructor.
Defined.

(** *** The entry point of the transformer *)

Lemma length_omap_le {A B} (h : A → option B) (l : list A) :
  (length (omap h l) ≤ length l)%nat.
Proof.
  induction l as [|x l IH]; csimpl; [done|].
  destruct (h x); csimpl; lia.
Qed.

Lemma frames_of_cons lookup hscode content rest :
  frames_of lookup ((hscode, content) :: rest) =
  match process_hscode_directory content hscode
          (commodity_name_of lookup hscode) with
  | Some df => df :: frames_of lookup rest
  | None => frames_of lookup rest
  end.
Proof.
  unfold frames_of. simpl.
  by destruct (process_hscode_directory _ _ _).
Qed.

Lemma directories_loop_spec lookup dirs all p s :
  directories_loop lookup dirs all p s =
  (all ++ frames_of lookup dirs,
   (p + length (frames_of lookup dirs))%nat,
   (s + (length dirs - length (frames_of lookup dirs)))%nat).
Proof.
  revert all p s. induction dirs as [|[hscode content] dirs IH];
    intros all p s; cbn [directories_loop].
  { simpl. rewrite app_nil_r. repeat f_equal; lia. }
  rewrite frames_of_cons.
  pose proof (length_omap_le
    (λ '(hscode, content),
       process_hscode_directory content hscode
         (commodity_name_of lookup hscode)) dirs) as Hle.
  fold (frames_of lookup dirs) in Hle.
  destruct (process_hscode_directory _ _ _) as [df|]; rewrite IH.
  - rewrite <- app_assoc. simpl. repeat f_equal; lia.
  - simpl. repeat f_equal; lia.
Qed.

Lemma transform_main_unfold rows listing :
  transform_main rows listing =
  mk_summary
    (match frames_of (load_hscode_lookup rows) (hscode_dirs_of listing) with
     | [] => None
     | _ :: _ =>
         Some (sort_values
                 (concat (frames_of (load_hscode_lookup rows)
                            (hscode_dirs_of listing))))
     end)
    (length (frames_of (load_hscode_lookup rows) (hscode_dirs_of listing)))
    (length (hscode_dirs_of listing)
     - length (frames_of (load_hscode_lookup rows) (hscode_dirs_of listing))).
Proof.
  unfold transform_main. rewrite directories_loop_spec. simpl.
  by destruct (frames_of _ _).
Qed.

Lemma hscode_dirs_of_app l1 l2 :
  hscode_dirs_of (l1 ++ l2) = hscode_dirs_of l1 ++ hscode_dirs_of l2.
Proof. apply omap_app. Qed.

Lemma elem_of_hscode_dirs_of listing hscode content :
  (hscode, content) ∈ hscode_dirs_of listing ↔
  (hscode, Directory content) ∈ listing.
Proof.
  unfold hscode_dirs_of. rewrite list_elem_of_omap. split.
  - intros ([d [|c]] & Hin & Heq); simplify_eq. done.
  - intros Hin. by exists (hscode, Directory content).
Qed.

Lemma process_hscode_directory_records d hscode cn out r :
  process_hscode_directory d hscode cn = Some out → r ∈ out →
  HSCod r = hscode ∧ Commodity r = cn ∧ Type_ r = "Export"%string.
Proof.
  unfold process_hscode_directory.
  destruct (omap _ (excel_files_of d)) as [|fr frs] eqn:Hall; [done|].
  intros [= <-] Hin.
  pose proof (elem_of_sublist _ _ _ Hin
                (drop_duplicates_seen_sublist [] (concat (fr :: frs))))
    as Hin'.
  apply elem_of_concat in Hin' as (recs & Hr & Hrecs).
  rewrite <- Hall in Hrecs.
  apply list_elem_of_omap in Hrecs as (f & Hf & Hfr).
  unfold monthly_frame in Hfr.
  destruct (d !! f) as [file|]; [|done]. simpl in Hfr.
  destruct (process_monthly_file file hscode cn "Export") as [df|] eqn:Hp;
    [|done].
  simpl in Hfr. destruct (0 <? length df)%nat; [|done].
  injection Hfr as ->.
  by apply (records_from_file _ _ _ _ _ _ Hp Hr).
Qed.

Lemma process_hscode_directory_NoDup d hscode cn out :
  process_hscode_directory d hscode cn = Some out → NoDup (key <$> out).
Proof.
  unfold process_hscode_directory.
  destruct (omap _ (excel_files_of d)) as [|fr frs]; [done|].
  intros [= <-]. apply drop_duplicates_seen_NoDup.
Qed.

Lemma elem_of_frames_of lookup dirs r :
  r ∈ concat (frames_of lookup dirs) →
  ∃ content df,
    (HSCod r, content) ∈ dirs ∧
    Commodity r = commodity_name_of lookup (HSCod r) ∧
    Type_ r = "Export"%string ∧
    process_hscode_directory content (HSCod r) (Commodity r) = Some df ∧
    r ∈ df.
Proof.
  intros (df & Hr & Hdf)%elem_of_concat.
  apply list_elem_of_omap in Hdf as ([hscode content] & Hin & Hp).
  destruct (process_hscode_directory_records _ _ _ _ _ Hp Hr)
    as (Hh & Hc & Ht).
  exists content, df. rewrite Hh, Hc. done.
Qed.

Lemma NoDup_key_frames lookup dirs :
  NoDup dirs.*1 → NoDup (key <$> concat (frames_of lookup dirs)).
Proof.
  induction dirs as [|[hscode content] dirs IH]; [constructor|].
  rewrite fmap_cons. intros [Hh Hnd]%NoDup_cons.
  rewrite frames_of_cons.
  destruct (process_hscode_directory _ _ _) as [df|] eqn:Hp; [|by apply IH].
  simpl. rewrite fmap_app. apply NoDup_app. split; [|split].
  - by apply (process_hscode_directory_NoDup _ _ _ _ Hp).
  - intros k (r1 & -> & Hr1)%list_elem_of_fmap (r2 & Hk & Hr2)%list_elem_of_fmap.
    destruct (process_hscode_directory_records _ _ _ _ _ Hp Hr1) as (H1 & _).
    destruct (elem_of_frames_of _ _ _ Hr2) as (c2 & _ & Hin & _).
    apply Hh. apply list_elem_of_fmap. exists (HSCod r2, c2).
    split; [|done]. simpl. unfold key in Hk. by simplify_eq.
  - by apply IH.
Qed.

Lemma NoDup_hscode_dirs_of listing :
  NoDup listing.*1 → NoDup (hscode_dirs_of listing).*1.
Proof.
  induction listing as [|[d e] listing IH]; [constructor|].
  rewrite fmap_cons. intros [Hd Hnd]%NoDup_cons.
  unfold hscode_dirs_of in *. simpl. destruct e as [|content]; [by apply IH|].
  simpl. apply NoDup_cons. split; [|by apply IH].
  intros ([d' c'] & -> & Hin)%list_elem_of_fmap.
  apply elem_of_hscode_dirs_of in Hin.
  apply Hd. apply list_elem_of_fmap. by exists (d', Directory c').
Qed.

(** X21.  The counts of [main]: every directory of the data directory is
    counted once, as processed when it yields a frame and as skipped
    otherwise; the consolidated file is written exactly when some
    directory was processed; and a plain file in the data directory has
    no effect at all. *)
Theorem transform_main_counts rows listing :
  let run := transform_main rows listing in
  (processed run + skipped run)%nat = length (hscode_dirs_of listing) ∧
  processed run
  = length (frames_of (load_hscode_lookup rows) (hscode_dirs_of listing)) ∧
  (consolidated run = None ↔ processed run = 0%nat) ∧
  ∀ l1 l2 f, listing = l1 ++ (f, File) :: l2 →
             transform_main rows (l1 ++ l2) = run.
Proof.
  intros run. subst run. rewrite transform_main_unfold.
  cbn [consolidated processed skipped].
  pose proof (length_omap_le
    (λ '(hscode, content),
       process_hscode_directory content hscode
         (commodity_name_of (load_hscode_lookup rows) hscode))
    (hscode_dirs_of listing)) as Hle.
  fold (frames_of (load_hscode_lookup rows) (hscode_dirs_of listing)) in Hle.
  split; [lia|]. split; [done|]. split.
  - by destruct (frames_of _ _).
  - intros l1 l2 f ->. rewrite transform_main_unfold.
    rewrite !hscode_dirs_of_app. done.
Qed.

(** X22.  The consolidated frame of [main] is sorted by code, then date,
    then country, as texts; it is a rearrangement of the frames of the
    directories put end to end; and each of its records comes from the
    directory named by its code, with the commodity name the lookup
    gives for that code (or the placeholder) and the type "Export". *)
Theorem consolidated_is_sorted_union rows listing out :
  consolidated (transform_main rows listing) = Some out →
  StronglySorted sort_le out ∧
  out ≡ₚ concat (frames_of (load_hscode_lookup rows) (hscode_dirs_of listing)) ∧
  ∀ r, r ∈ out →
    ∃ content df,
      (HSCod r, Directory content) ∈ listing ∧
      Commodity r = commodity_name_of (load_hscode_lookup rows) (HSCod r) ∧
      Type_ r = "Export"%string ∧
      process_hscode_directory content (HSCod r) (Commodity r) = Some df ∧
      r ∈ df.
Proof.
  rewrite transform_main_unfold. cbn [consolidated].
  pose proof (elem_of_frames_of (load_hscode_lookup rows)
                (hscode_dirs_of listing)) as Hfrom.
  destruct (frames_of _ _) as [|fr frs]; [done|].
  intros Hout. injection Hout as <-. split; [apply sort_values_sorted|].
  split; [apply sort_values_Permutation|].
  intros r Hr. rewrite sort_values_Permutation in Hr.
  destruct (Hfrom r Hr) as (content & df & Hin & ?).
  exists content, df. split; [|done]. by apply elem_of_hscode_dirs_of.
Qed.

Lemma consolidated_is_sorted_union_witness :
  ∃ out, consolidated (transform_main sample_lookup sample_listing) = Some out ∧
         StronglySorted sort_le out.
Proof.
  destruct (consolidated (transform_main sample_lookup sample_listing))
    as [out|] eqn:Hout.
  - exists out. split; [done|].
    apply (consolidated_is_sorted_union sample_lookup sample_listing out Hout).
  - vm_compute in Hout. discriminate.
Defined.

(** X23.  With directory names that are all different, the consolidated
    frame of [main] holds one row per code, country and date, and the
    whole outcome of [main] does not depend on the order in which the
    data directory is listed. *)
Theorem consolidated_is_canonical rows listing :
  NoDup listing.*1 →
  (∀ out, consolidated (transform_main rows listing) = Some out →
          canonical out) ∧
  (∀ listing', listing' ≡ₚ listing →
               transform_main rows listing' = transform_main rows listing).
Proof.
  intros Hnd.
  pose proof (NoDup_key_frames (load_hscode_lookup rows) _
                (NoDup_hscode_dirs_of _ Hnd)) as Hkeys.
  split.
  - intros out. rewrite transform_main_unfold. cbn [consolidated].
    destruct (frames_of _ _) as [|fr frs] eqn:Hf; [done|].
    intros [= <-]. split; [apply sort_values_sorted|].
    by rewrite sort_values_Permutation.
  - intros listing' Hp. rewrite !transform_main_unfold.
    assert (hscode_dirs_of listing' ≡ₚ hscode_dirs_of listing) as Hd.
    { unfold hscode_dirs_of. by rewrite Hp. }
    assert (frames_of (load_hscode_lookup rows) (hscode_dirs_of listing')
            ≡ₚ frames_of (load_hscode_lookup rows) (hscode_dirs_of listing))
      as Hfr.
    { unfold frames_of. by rewrite Hd. }
    rewrite (Permutation_length Hd), (Permutation_length Hfr).
    f_equal.
    destruct (frames_of _ (hscode_dirs_of listing')) as [|fr' frs'] eqn:Hf'.
    { apply Permutation_nil_l in Hfr. by rewrite <- Hfr. }
    destruct (frames_of _ (hscode_dirs_of listing)) as [|fr frs] eqn:Hf.
    { by apply Permutation_nil_r in Hfr. }
    f_equal. symmetry. apply sort_values_canonical; [|done].
    apply concat_Permutation. by symmetry.
Qed.

Lemma consolidated_is_canonical_witness :
  transform_main sample_lookup (reverse sample_listing)
  = transform_main sample_lookup sample_listing.
Proof.
  apply (consolidated_is_canonical sample_lookup sample_listing).
  - match goal with
    | |- ?P => apply (bool_decide_eq_true_1 P); vm_compute; reflexivity
    end.
  - apply reverse_Permutation.
Defined.

(** *** The merger *)

Lemma read_loop_spec {frame} (files : list (string * option frame)) all p e :
  read_loop files all p e =
  (all ++ omap snd files,
   (p + length (omap snd files))%nat,
   (e + (length files - length (omap snd files)))%nat).
Proof.
  revert all p e. induction files as [|[f [df|]] files IH];
    intros all p e; cbn [read_loop].
  - csimpl. rewrite app_nil_r. repeat f_equal; lia.
  - rewrite IH. pose proof (length_omap_le snd files).
    csimpl. rewrite <- app_assoc. csimpl. repeat f_equal; lia.
  - rewrite IH. pose proof (length_omap_le snd files).
    csimpl. repeat f_equal; lia.
Qed.

Lemma merge_excel_files_unfold {frame} (consolidate : list frame → option frame)
    listing :
  merge_excel_files consolidate listing =
  match filter (λ p, selected p.1 = true) listing with
  | [] => No_files
  | _ :: _ =>
      match omap snd (filter (λ p, selected p.1 = true) listing) with
      | [] => No_valid_data (length (filter (λ p, selected p.1 = true) listing))
      | _ :: _ =>
          match consolidate
                  (omap snd (filter (λ p, selected p.1 = true) listing)) with
          | Some df =>
              Merged df
                (length (omap snd (filter (λ p, selected p.1 = true) listing)))
                (length (filter (λ p, selected p.1 = true) listing)
                 - length (omap snd (filter (λ p, selected p.1 = true) listing)))
          | None => Consolidation_raised
          end
      end
  end.
Proof.
  unfold merge_excel_files. cbv zeta.
  destruct (filter _ listing) as [|x files]; [done|].
  rewrite read_loop_spec. rewrite app_nil_l, !Nat.add_0_l.
  destruct (omap snd (x :: files)) as [|fr frs]; [|done].
  by rewrite Nat.sub_0_r.
Qed.

(** X24.  What [merge_excel_files] reads.  A file that does not end in
    .xlsx, or whose name holds "consolidated" in any case, is never read:
    the outcome is the same with or without it, whatever it holds and
    whatever pandas makes of the frames.  In particular the file the
    merger writes is not read back by a later run. *)
Theorem merge_ignores_unselected_files {frame}
    (consolidate : list frame → option frame) l1 l2 f x :
  selected f = false →
  merge_excel_files consolidate (l1 ++ (f, x) :: l2)
  = merge_excel_files consolidate (l1 ++ l2).
Proof.
  intros Hf. rewrite !merge_excel_files_unfold.
  rewrite !filter_app, filter_cons_False; [done|].
  simpl. by rewrite Hf.
Qed.

Lemma merge_ignores_unselected_files_witness :
  merge_excel_files text_consolidate
    ([("26011100.xlsx"%string, Some [record_a 1])]
       ++ ("consolidated_all_hscodes.xlsx"%string, Some [record_a 2]) :: [])
  = merge_excel_files text_consolidate
      ([("26011100.xlsx"%string, Some [record_a 1])] ++ []).
Proof.
  apply (merge_ignores_unselected_files text_consolidate
           [("26011100.xlsx"%string, Some [record_a 1])] []
           "consolidated_all_hscodes.xlsx" (Some [record_a 2])).
  vm_compute. reflexivity.
Defined.

(** X25.  The outcomes of [merge_excel_files], whatever pandas makes of
    the frames.  It stops with "no files" exactly when no file of the
    listing is selected, and with "no valid data" exactly when files are
    selected and none gives a frame, every one of them counted as an
    error.  When it writes a frame, the frames read in the order of the
    listing went to the consolidation, the count of processed files is
    their number, and the two counts add up to the number of selected
    files. *)
Theorem merge_counts_selected_files {frame}
    (consolidate : list frame → option frame) listing :
  let files := filter (λ q, selected q.1 = true) listing in
  let frames := omap snd files in
  (merge_excel_files consolidate listing = No_files ↔ files = []) ∧
  (∀ e, merge_excel_files consolidate listing = No_valid_data e ↔
        files ≠ [] ∧ frames = [] ∧ e = length files) ∧
  (∀ out p e, merge_excel_files consolidate listing = Merged out p e ↔
        frames ≠ [] ∧ consolidate frames = Some out ∧
        p = length frames ∧ (p + e)%nat = length files).
Proof.
  intros files frames. rewrite merge_excel_files_unfold. fold files frames.
  pose proof (length_omap_le snd files) as Hle. fold frames in Hle.
  assert (Hnil : files = [] → frames = []) by (by intros ->).
  destruct files as [|x files'] eqn:Hfiles.
  { rewrite (Hnil eq_refl). split; [done|]. split.
    - intros e. split; [done|]. by intros [? _].
    - intros out p e. split; [done|]. by intros [? _]. }
  destruct frames as [|fr frs] eqn:Hframes.
  { split; [split; intros [=]|]. split.
    - intros e. split; [intros [= <-]; by repeat split|]. by intros (_ & _ & ->).
    - intros out p e. split; [intros [=]|]. by intros [? _]. }
  split; [destruct (consolidate (fr :: frs)); split; intros [=]|]. split.
  { intros e. destruct (consolidate (fr :: frs)); (split; [intros [=]|]);
      by intros (_ & ? & _). }
  intros out p e. destruct (consolidate (fr :: frs)) as [df|].
  - split.
    + intros [= <- <- <-]. split; [done|]. split; [done|]. split; [done|].
      cbn [length] in *. lia.
    + intros (_ & [= <-] & -> & He). f_equal. cbn [length] in *. lia.
  - split; [intros [=]|]. by intros (_ & ? & _).
Qed.

Lemma merge_counts_selected_files_witness :
  merge_excel_files text_consolidate
    [("b.xlsx"%string, Some [record_a 1]); ("a.txt"%string, None);
     ("c.xlsx"%string, Some [record_a 2]); ("d.xlsx"%string, None)]
  = Merged [record_a 1] 2 1.
Proof.
  apply (merge_counts_selected_files text_consolidate
           [("b.xlsx"%string, Some [record_a 1]); ("a.txt"%string, None);
            ("c.xlsx"%string, Some [record_a 2]); ("d.xlsx"%string, None)]).
  vm_compute. repeat split; discriminate.
Defined.

End ConsolidateFacts.

(** ** Facts about the progress of a run and about rectangular sheets *)

Module ProgressFacts.
Import PyStr Scraper Catalog Transform Consolidate.
Import ScraperFacts TransformFacts SheetFacts.

(** *** The progress lines of a run *)

Lemma announcements_app evs1 evs2 :
  announcements (evs1 ++ evs2) = announcements evs1 ++ announcements evs2.
Proof. apply omap_app. Qed.

Section Progress.
Variable env : Env.
Variable now : datetime.

Lemma reconcile_events c m y mn fn p w :
  ∃ e, output (reconcile env c m y mn fn p w) = output w ++ [e] ∧
       (e = Msg_saved fn ∨ e = Msg_timeout ∨ ∃ x, e = Msg_error mn y x).
Proof.
  unfold reconcile.
  destruct (wait_for_download _ _ _ _ _ _ _ _) as [new_file wd] eqn:Hw.
  apply wait_for_download_frame in Hw as (_ & Hdo & _).
  destruct new_file as [f|].
  - destruct (move_error env (sf_path f) p _) as [x|].
    + exists (Msg_error mn y x). simpl. rewrite Hdo.
      split; [done|]. right. right. by exists x.
    + exists (Msg_saved fn). simpl. rewrite Hdo. split; [done|]. by left.
  - exists Msg_timeout. simpl. rewrite Hdo. split; [done|]. right. by left.
Qed.

Lemma download_cycle_announcements c m y mn fn p w :
  ∃ evs, output (download_cycle env c m y mn fn p w) = output w ++ evs ∧
         announcements evs = [].
Proof.
  unfold download_cycle. cbv zeta.
  set (w1 := print (Net_request c m y) (print (Msg_downloading mn y) w)).
  assert (output w1 = output w ++ [Msg_downloading mn y; Net_request c m y])
    as Ho1 by (simpl; by rewrite <- app_assoc).
  destruct (submit_query env c m y (clock w1)) as [x|].
  { exists [Msg_downloading mn y; Net_request c m y; Msg_error mn y x].
    rewrite output_print, Ho1, <- app_assoc. done. }
  pose proof (wait_for_excel_button_frame env c m y w1) as (_ & _ & Hbo).
  destruct (wait_for_excel_button env c m y w1) as [found wb].
  change (output wb = output w1) in Hbo.
  destruct found; cbn [negb].
  2:{ exists [Msg_downloading mn y; Net_request c m y; Msg_no_data mn y].
      rewrite output_print, Hbo, Ho1, <- app_assoc. done. }
  set (w2 := print (Net_export c m y) (sleep 2 wb)).
  assert (output w2 = output w ++ [Msg_downloading mn y; Net_request c m y;
                                   Net_export c m y])
    as Ho2 by (simpl; by rewrite Hbo, Ho1, <- app_assoc).
  destruct (click_excel env c m y (clock w2)) as [x|].
  { exists [Msg_downloading mn y; Net_request c m y; Net_export c m y;
            Msg_error mn y x].
    rewrite output_print, Ho2, <- app_assoc. done. }
  destruct (reconcile_events c m y mn fn p w2) as (e & He & Hk).
  exists [Msg_downloading mn y; Net_request c m y; Net_export c m y; e].
  rewrite He, Ho2, <- app_assoc. split; [done|].
  by destruct Hk as [->|[->|[x ->]]].
Qed.

Lemma month_loop_announcements c dir y months w :
  ∃ evs, output (world_of (month_loop env now c dir y months w))
         = output w ++ evs ∧ announcements evs = [].
Proof.
  revert w. induction months as [|m months IH]; intros w; cbn [month_loop].
  { exists []. by rewrite app_nil_r. }
  destruct (future_month now y m); [exists []; by rewrite app_nil_r|].
  destruct (strftime_B y m) as [mn|]; [|exists []; by rewrite app_nil_r].
  destruct (os_path_exists (tree w) _); [apply IH|].
  destruct (download_cycle_announcements c m y mn (target_filename_of mn y)
              (os_path_join dir (target_filename_of mn y)) w)
    as (evs1 & Ho1 & Ha1).
  destruct (IH (download_cycle env c m y mn (target_filename_of mn y)
                  (os_path_join dir (target_filename_of mn y)) w))
    as (evs2 & Ho2 & Ha2).
  exists (evs1 ++ evs2). rewrite Ho2, Ho1, app_assoc. split; [done|].
  by rewrite announcements_app, Ha1, Ha2.
Qed.

Lemma year_loop_announcements c dir years w :
  ∃ evs, output (world_of (year_loop env now c dir years w))
         = output w ++ evs ∧ announcements evs = [].
Proof.
  revert w. induction years as [|y years IH]; intros w; cbn [year_loop].
  { exists []. by rewrite app_nil_r. }
  destruct (month_loop_announcements c dir y (seqZ 1 12) w)
    as (evs1 & Ho1 & Ha1).
  destruct (month_loop env now c dir y (seqZ 1 12) w) as [w1|x w1];
    simpl in Ho1.
  - destruct (IH w1) as (evs2 & Ho2 & Ha2).
    exists (evs1 ++ evs2). rewrite Ho2, Ho1, app_assoc. split; [done|].
    by rewrite announcements_app, Ha1, Ha2.
  - by exists evs1.
Qed.

Lemma process_hscode_announcements idx total c w :
  ∃ evs, output (world_of (process_hscode env now idx total c w))
         = output w ++ evs ∧ announcements evs = [(idx, total, c)].
Proof.
  unfold process_hscode.
  set (w0 := print (Msg_processing idx total c) w).
  destruct (ensure_dir_spec env (hscode_dir_of env c) w0)
    as (_ & _ & Ho1 & _).
  destruct (ensure_dir env (hscode_dir_of env c) w0) as [w1|x w1];
    cbn [world_of] in Ho1.
  2:{ exists [Msg_processing idx total c]. cbn [world_of]. by rewrite Ho1. }
  assert (Ho1' : output w1 = output w ++ [Msg_processing idx total c])
    by (by rewrite Ho1).
  clear Ho1. rename Ho1' into Ho1.
  destruct (is_hscode_completed _ _ _ _ _) as [[|]|].
  - exists [Msg_processing idx total c; Msg_skipping c]. cbn [world_of].
    by rewrite output_print, Ho1, <- app_assoc.
  - destruct (year_loop_announcements c (hscode_dir_of env c)
                (seqZ start_year (dt_year now + 1 - start_year)) w1)
      as (evs & Ho & Ha).
    destruct (year_loop _ _ _ _ _ _) as [w2|x w2]; cbn [world_of] in Ho |- *.
    + exists (Msg_processing idx total c :: evs ++ [Msg_blank]).
      rewrite output_print, Ho, Ho1, <- !app_assoc. split; [done|].
      change (Msg_processing idx total c :: evs ++ [Msg_blank])
        with ([Msg_processing idx total c] ++ evs ++ [Msg_blank]).
      by rewrite !announcements_app, Ha.
    + exists (Msg_processing idx total c :: evs).
      rewrite Ho, Ho1, <- !app_assoc. split; [done|].
      change (Msg_processing idx total c :: evs)
        with ([Msg_processing idx total c] ++ evs).
      by rewrite !announcements_app, Ha.
  - exists [Msg_processing idx total c]. cbn [world_of]. by rewrite Ho1.
Qed.

Lemma hscode_loop_announcements idx total hscodes w :
  let r := hscode_loop env now idx total hscodes w in
  ∃ evs, output (world_of r) = output w ++ evs ∧
    announcements evs
      `prefix_of` imap (λ i c, ((idx + i)%nat, total, c)) hscodes ∧
    (ended_normally r →
     announcements evs = imap (λ i c, ((idx + i)%nat, total, c)) hscodes).
Proof.
  revert idx w. induction hscodes as [|c hscodes IH]; intros idx w;
    cbn [hscode_loop].
  { exists []. cbn [world_of]. by rewrite app_nil_r. }
  destruct (process_hscode_announcements idx total c w) as (evs1 & Ho1 & Ha1).
  assert (Hshift : imap (λ i c0, ((idx + i)%nat, total, c0)) (c :: hscodes)
                   = (idx, total, c)
                     :: imap (λ i c0, ((S idx + i)%nat, total, c0)) hscodes).
  { simpl. rewrite Nat.add_0_r. f_equal. apply imap_ext. intros i c0 _. simpl.
    f_equal. f_equal. lia. }
  rewrite Hshift.
  destruct (process_hscode env now idx total c w) as [w1|x w1];
    cbn [world_of] in Ho1.
  - destruct (IH (S idx) w1) as (evs2 & Ho2 & Hp2 & Ha2).
    exists (evs1 ++ evs2).
    split; [by rewrite Ho2, Ho1, app_assoc|].
    rewrite announcements_app, Ha1. split.
    + by apply prefix_cons.
    + intros Hn. by rewrite (Ha2 Hn).
  - exists evs1. cbn [world_of]. split; [done|]. rewrite Ha1.
    split; [|done]. apply prefix_cons, prefix_nil.
Qed.
End Progress.

(** X27.  The progress lines of a run.  When the browser cannot be
    started, nothing is printed.  Otherwise the run prints the total
    first and the closing line last, however it ends, and in between it
    announces the codes of the catalog in catalog order, each once,
    numbered from 1 with the length of the catalog as total: all of them
    when it ends normally, and otherwise the codes up to the one at which
    it raised.  What the cycles of the periods do leaves no code out: the
    run ends normally when nothing raises outside them. *)
Theorem every_code_is_announced_once env hscodes w :
  let r := scrape_commodity_data env hscodes w in
  let numbered := imap (λ i c, (S i, length hscodes, c)) hscodes in
  (∀ e, setup_error env (clock w) = Some e → r = Raised e w) ∧
  (setup_error env (clock w) = None →
   ∃ evs,
     new_events w r
     = Msg_processing_total (length hscodes) :: evs ++ [Msg_closing] ∧
     announcements evs `prefix_of` numbered ∧
     (ended_normally r → announcements evs = numbered)) ∧
  (os_cooperates env → ended_normally r).
Proof.
  intros r numbered. subst r. split; [|split].
  - intros e He. unfold scrape_commodity_data. by rewrite He.
  - intros Hsetup. unfold scrape_commodity_data. rewrite Hsetup.
    set (now := datetime_now env (clock w)).
    set (w0 := print (Msg_processing_total (length hscodes)) w).
    destruct (hscode_loop_announcements env now 1 (length hscodes) hscodes w0)
      as (evs & Ho & Hp & Ha).
    destruct (finally_spec env (hscode_loop env now 1 (length hscodes) hscodes w0))
      as (Hfo & _ & _ & Hfn & _).
    exists evs. split; [|split].
    + apply new_events_eq. rewrite Hfo, Ho. simpl. by rewrite <- !app_assoc.
    + exact Hp.
    + intros Hn. apply Ha. by apply Hfn.
  - intros Hos.
    destruct (scrape_commodity_data_spec env hscodes w)
      as (evs & _ & _ & _ & _ & _ & _ & _ & Hrun).
    by apply Hrun.
Qed.

Lemma every_code_is_announced_once_witness :
  ∃ evs,
    new_events w_empty
      (scrape_commodity_data (env_failing now_2018_02)
         ["26011100"; "26011200"] w_empty)
    = Msg_processing_total 2 :: evs ++ [Msg_closing] ∧
    announcements evs
    = [(1%nat, 2%nat, "26011100"%string); (2%nat, 2%nat, "26011200"%string)].
Proof.
  destruct (every_code_is_announced_once (env_failing now_2018_02)
              ["26011100"; "26011200"]%string w_empty)
    as (_ & Hrun & Hnorm).
  destruct (Hrun eq_refl) as (evs & Hev & _ & Hall).
  exists evs. split; [exact Hev|]. apply Hall. apply Hnorm. by repeat split.
Defined.

(** *** Sheets as frames hold them *)

Lemma columns_loop_total hscode cn data_type row country ycs :
  Forall in_float_range row →
  Forall (λ yc : nat * string * string * string,
            (yc.1.1.1 < length row)%nat) ycs →
  is_Some (columns_loop hscode cn data_type row country ycs).
Proof.
  intros Hrange. induction 1 as [|[[[idx name] year] month] ycs Hidx _ IH];
    cbn [columns_loop]; [done|].
  simpl in Hidx. destruct (lookup_lt_is_Some_2 row idx Hidx) as [v Hv].
  rewrite Hv. destruct (pd_isna v || is_empty_str v); [done|].
  assert (py_float v ≠ OverflowError) as Hno.
  { rewrite Forall_forall in Hrange.
    pose proof (Hrange v (list_elem_of_lookup_2 _ _ _ Hv)) as Hr.
    destruct v as [s|z|x]; simpl in *.
    - by destruct (float_of_string s).
    - by rewrite (proj2 (Z.ltb_lt _ _) Hr).
    - done. }
  destruct (py_float v); [|done|done].
  destruct IH as [recs ->]. by eexists.
Qed.

Lemma rows_loop_total hscode cn data_type cidx ycs rows n :
  (cidx < n)%nat →
  Forall (λ yc : nat * string * string * string, (yc.1.1.1 < n)%nat) ycs →
  Forall (λ row, length row = n) rows →
  Forall (Forall in_float_range) rows →
  is_Some (rows_loop hscode cn data_type cidx ycs rows).
Proof.
  intros Hc Hycs Hrect. induction Hrect as [|row rows Hlen _ IH];
    intros Hrange; cbn [rows_loop]; [done|].
  apply Forall_cons in Hrange as [Hrow Hrange].
  destruct (lookup_lt_is_Some_2 row cidx ltac:(lia)) as [c ->].
  destruct (IH Hrange) as [more Hmore].
  destruct (bool_decide _); [by rewrite Hmore|].
  destruct (columns_loop_total hscode cn data_type row (strip (py_str c)) ycs)
    as [recs ->]; [done| |].
  { eapply Forall_impl; [exact Hycs|]. intros yc. simpl. lia. }
  rewrite Hmore. by eexists.
Qed.

(** X28.  On a sheet as a frame holds it (every row as wide as the
    header, no integer beyond the range of a float), with a year column
    and a country column in its third row, the loops over rows and
    columns run through, and [process_monthly_file] returns the records
    they collect, or [None] when they collect none: no other row or
    cell can make it give up the file. *)
Theorem rectangular_sheets_run_through df header cidx hscode cn data_type :
  rectangular df → Forall (Forall in_float_range) df →
  df !! 2%nat = Some header →
  extract_year_columns header ≠ [] →
  find_country_from 0 header = Some cidx →
  ∃ recs,
    rows_loop hscode cn data_type cidx (extract_year_columns header)
      (drop 3 df) = Some recs ∧
    process_monthly_file (Sheet df) hscode cn data_type
    = match recs with [] => None | _ => Some recs end.
Proof.
  intros [n Hrect] Hrange Hheader Hyears Hcountry.
  assert (length header = n) as Hn.
  { rewrite Forall_forall in Hrect. apply Hrect.
    by eapply list_elem_of_lookup_2. }
  destruct (rows_loop_total hscode cn data_type cidx
              (extract_year_columns header) (drop 3 df) n) as [recs Hrecs].
  - apply find_country_from_Some in Hcountry as (cell & _ & Hl & _).
    rewrite Nat.sub_0_r in Hl. apply lookup_lt_Some in Hl. lia.
  - apply Forall_forall. intros [[[idx name] year] month] Hin.
    apply extract_year_columns_from_elem in Hin as (cell & _ & Hl & _).
    rewrite Nat.sub_0_r in Hl. apply lookup_lt_Some in Hl. simpl. lia.
  - by apply Forall_drop.
  - by apply Forall_drop.
  - exists recs. split; [done|]. unfold process_monthly_file.
    assert ((length df <? 3)%nat = false) as ->.
    { apply Nat.ltb_ge. apply lookup_lt_Some in Hheader. lia. }
    rewrite Hheader. simpl.
    destruct (extract_year_columns header) as [|yc ycs] eqn:Hy; [done|].
    rewrite Hcountry. simpl. rewrite Hrecs. simpl. by destruct recs.
Qed.

Lemma rectangular_sheets_run_through_witness :
  ∃ recs,
    rows_loop "26011100" "Iron ore" "Export" 1
      (extract_year_columns synthetic_header)
      (drop 3 rectangular_sheet) = Some recs ∧
    process_monthly_file (Sheet rectangular_sheet)
      "26011100" "Iron ore" "Export"
    = match recs with [] => None | _ => Some recs end.
Proof.
  apply (rectangular_sheets_run_through rectangular_sheet synthetic_header 1
           "26011100" "Iron ore" "Export").
  - exists 5%nat. repeat constructor.
  - repeat constructor.
  - reflexivity.
  - vm_compute. discriminate.
  - vm_compute. reflexivity.
Defined.

End ProgressFacts.
